(** * Threejs-Game: the recycling game component

    A shallow embedding of [ReciclajeJuegoComponent]
    (src/app/reciclaje-juego/reciclaje-juego.component.ts): the keyboard
    handlers, the nearest-entity queries, the pickup / deposit logic of
    [tryInteract], the win / lose evaluation of [checkGameState] and the frame
    callback [animate].

    Conventions of the embedding.
    - JavaScript numbers that hold coordinates, scales and time steps are
      rationals ([Q]), as every finite double is; the score and the
      per-category counters, which only ever move by one, are integers ([Z]).
      Where the code computes a scale by a quotient or a product, the
      operation is the runtime's ([divide], [times]) and may round; what is
      proved of such a scale is proved up to the rounding.
    - Every [THREE.Object3D] lives in a heap indexed by handles ([ObjId]); a
      TypeScript field of type [THREE.Object3D] holds a handle, so two fields
      holding the same handle alias the same object.
    - What three.js and the JavaScript runtime compute (square roots,
      rotations, world matrices, scene traversal, orbit controls, the
      animation mixer, rounded quotients and products) is not part of the
      repository: it is the interface
      [Three], and every theorem holds for every implementation of it. *)

From Stdlib Require Import ZArith QArith Qabs String Ascii List Bool Lia DecimalString.
From Stdlib Require Import Permutation Lqa.
Import ListNotations.

Local Open Scope Q_scope.

(** ** THREE.Vector3 *)

Module Vector3.

Record t : Set := mk { x : Q; y : Q; z : Q }.

Definition add (a b : t) : t := mk (x a + x b) (y a + y b) (z a + z b).

Definition multiplyScalar (a : t) (s : Q) : t := mk (x a * s) (y a * s) (z a * s).

(** [a.distanceToSquared(b)]: dx*dx + dy*dy + dz*dz. *)
Definition distanceToSquared (a b : t) : Q :=
  let dx := x a - x b in
  let dy := y a - y b in
  let dz := z a - z b in
  dx * dx + dy * dy + dz * dz.

(** [a.lerp(b, alpha)]: each component moves by [alpha] of the gap. *)
Definition lerp (a b : t) (alpha : Q) : t :=
  mk (x a + (x b - x a) * alpha) (y a + (y b - y a) * alpha) (z a + (z b - z a) * alpha).

(** Componentwise product, the way a parent's world scale composes with the
    local scale of an unrotated child. *)
Definition multiply (a b : t) : t := mk (x a * x b) (y a * y b) (z a * z b).

(** Componentwise equality of the rational values. *)
Definition equiv (a b : t) : Prop := x a == x b /\ y a == y b /\ z a == z b.

End Vector3.

(** ** The heap of THREE.Object3D instances *)

Definition ObjId := nat.

Module Object3D.

(** The fields of an Object3D the component reads or writes. [children] is
    kept by three.js as the inverse of [parent] and is not stored. *)
Record t : Set := mk {
  name : string;
  parent : option ObjId;
  position : Vector3.t;
  rotation : Vector3.t;
  scale : Vector3.t
}.

Definition set_parent (p : option ObjId) (o : t) : t :=
  mk (name o) p (position o) (rotation o) (scale o).

Definition set_position (v : Vector3.t) (o : t) : t :=
  mk (name o) (parent o) v (rotation o) (scale o).

Definition set_rotation (v : Vector3.t) (o : t) : t :=
  mk (name o) (parent o) (position o) v (scale o).

Definition set_scale (v : Vector3.t) (o : t) : t :=
  mk (name o) (parent o) (position o) (rotation o) v.

End Object3D.

Definition Heap := ObjId -> Object3D.t.

(** In-place mutation of the object behind handle [o]. *)
Definition update (o : ObjId) (f : Object3D.t -> Object3D.t) (h : Heap) : Heap :=
fun o' => if Nat.eq_dec o' o then f (h o) else h o'.

(** [anchor.add(o)]: three.js refuses to add an object to itself; otherwise it
    removes [o] from its previous parent and links it under [anchor]. *)
Definition Object3D_add (anchor o : ObjId) (h : Heap) : Heap :=
if Nat.eq_dec o anchor then h else update o (Object3D.set_parent (Some anchor)) h.

(** [o.parent?.remove(o)]: when [o] has a parent the link is cut; without a
    parent nothing happens. *)
Definition Object3D_removeFromParent (o : ObjId) (h : Heap) : Heap :=
match Object3D.parent (h o) with
| Some _ => update o (Object3D.set_parent None) h
| None => h
end.

(** ** Camera, animation handles *)

Module Camera.

(** The camera's position and the point it was last told to look at. *)
Record t : Set := mk { position : Vector3.t; lookAt : Vector3.t }.

End Camera.

Module AnimationAction.

Record t : Set := mk { paused : bool }.

End AnimationAction.

(** ** The data model of the component *)

Inductive TrashType : Set := organico | reciclable | general.

Definition TrashType_eq_dec (a b : TrashType) : {a = b} + {a <> b}.
Proof. decide equality. Defined.

Definition TrashType_to_string (t : TrashType) : string :=
match t with
| organico => "organico"
| reciclable => "reciclable"
| general => "general"
end.

Module TrashItem.

Record t : Set := mk {
  object : ObjId;
  type : TrashType;
  baseScale : Q;
  labelSprite : option ObjId
}.

(** Two [TrashItem] references are the same reference exactly when they are
    the same record: the loaders build every item around its own clone. *)
Definition eq_dec (a b : t) : {a = b} + {a <> b}.
Proof.
  repeat decide equality.
Defined.

End TrashItem.

Module Bin.

Record t : Set := mk { object : ObjId; type : TrashType }.

End Bin.

Inductive GameState : Set := playing | win | lose.

Inductive Sound : Set := pickupSound | correctSound | wrongSound.

Module RecycledCount.

(** [Record<TrashType, number>] with its three fixed keys. *)
Record t : Set := mk { organico_ : Z; reciclable_ : Z; general_ : Z }.

Definition get (r : t) (k : TrashType) : Z :=
  match k with
  | organico => organico_ r
  | reciclable => reciclable_ r
  | general => general_ r
  end.

(** [r[k]++] *)
Definition incr (k : TrashType) (r : t) : t :=
  match k with
  | organico => mk (organico_ r + 1) (reciclable_ r) (general_ r)
  | reciclable => mk (organico_ r) (reciclable_ r + 1) (general_ r)
  | general => mk (organico_ r) (reciclable_ r) (general_ r + 1)
  end.

End RecycledCount.

(** The mutable fields of [ReciclajeJuegoComponent], the heap its handles
    point into, and the log of the sounds handed to [playSound]. *)
Record Component : Type := mkComponent {
  heap : Heap;
  scene : ObjId;
  camera : Camera.t;
  player : option ObjId;
  playerMixer : bool;
  walkAction : option AnimationAction.t;
  moveForward : Q;
  turn : Q;
  trashItems : list TrashItem.t;
  bins : list Bin.t;
  carryingItem : option TrashItem.t;
  recycledCount : RecycledCount.t;
  score : Z;
  gameState : GameState;
  showWinMenu : bool;
  showLoseMenu : bool;
  hudMessage : string;
  played : list Sound
}.

Definition pickupDistance : Q := 40.
Definition binDistance : Q := 70.

Section Setters.

Variable c : Component.

Definition set_heap (v : Heap) : Component :=
  mkComponent v (scene c) (camera c) (player c) (playerMixer c) (walkAction c)
    (moveForward c) (turn c) (trashItems c) (bins c) (carryingItem c)
    (recycledCount c) (score c) (gameState c) (showWinMenu c) (showLoseMenu c)
    (hudMessage c) (played c).

Definition set_camera (v : Camera.t) : Component :=
  mkComponent (heap c) (scene c) v (player c) (playerMixer c) (walkAction c)
    (moveForward c) (turn c) (trashItems c) (bins c) (carryingItem c)
    (recycledCount c) (score c) (gameState c) (showWinMenu c) (showLoseMenu c)
    (hudMessage c) (played c).

Definition set_walkAction (v : option AnimationAction.t) : Component :=
  mkComponent (heap c) (scene c) (camera c) (player c) (playerMixer c) v
    (moveForward c) (turn c) (trashItems c) (bins c) (carryingItem c)
    (recycledCount c) (score c) (gameState c) (showWinMenu c) (showLoseMenu c)
    (hudMessage c) (played c).

Definition set_moveForward (v : Q) : Component :=
  mkComponent (heap c) (scene c) (camera c) (player c) (playerMixer c) (walkAction c)
    v (turn c) (trashItems c) (bins c) (carryingItem c)
    (recycledCount c) (score c) (gameState c) (showWinMenu c) (showLoseMenu c)
    (hudMessage c) (played c).

Definition set_turn (v : Q) : Component :=
  mkComponent (heap c) (scene c) (camera c) (player c) (playerMixer c) (walkAction c)
    (moveForward c) v (trashItems c) (bins c) (carryingItem c)
    (recycledCount c) (score c) (gameState c) (showWinMenu c) (showLoseMenu c)
    (hudMessage c) (played c).

Definition set_trashItems (v : list TrashItem.t) : Component :=
  mkComponent (heap c) (scene c) (camera c) (player c) (playerMixer c) (walkAction c)
    (moveForward c) (turn c) v (bins c) (carryingItem c)
    (recycledCount c) (score c) (gameState c) (showWinMenu c) (showLoseMenu c)
    (hudMessage c) (played c).

Definition set_carryingItem (v : option TrashItem.t) : Component :=
  mkComponent (heap c) (scene c) (camera c) (player c) (playerMixer c) (walkAction c)
    (moveForward c) (turn c) (trashItems c) (bins c) v
    (recycledCount c) (score c) (gameState c) (showWinMenu c) (showLoseMenu c)
    (hudMessage c) (played c).

Definition set_recycledCount (v : RecycledCount.t) : Component :=
  mkComponent (heap c) (scene c) (camera c) (player c) (playerMixer c) (walkAction c)
    (moveForward c) (turn c) (trashItems c) (bins c) (carryingItem c)
    v (score c) (gameState c) (showWinMenu c) (showLoseMenu c)
    (hudMessage c) (played c).

Definition set_score (v : Z) : Component :=
  mkComponent (heap c) (scene c) (camera c) (player c) (playerMixer c) (walkAction c)
    (moveForward c) (turn c) (trashItems c) (bins c) (carryingItem c)
    (recycledCount c) v (gameState c) (showWinMenu c) (showLoseMenu c)
    (hudMessage c) (played c).

Definition set_gameState (v : GameState) : Component :=
  mkComponent (heap c) (scene c) (camera c) (player c) (playerMixer c) (walkAction c)
    (moveForward c) (turn c) (trashItems c) (bins c) (carryingItem c)
    (recycledCount c) (score c) v (showWinMenu c) (showLoseMenu c)
    (hudMessage c) (played c).

Definition set_showWinMenu (v : bool) : Component :=
  mkComponent (heap c) (scene c) (camera c) (player c) (playerMixer c) (walkAction c)
    (moveForward c) (turn c) (trashItems c) (bins c) (carryingItem c)
    (recycledCount c) (score c) (gameState c) v (showLoseMenu c)
    (hudMessage c) (played c).

Definition set_showLoseMenu (v : bool) : Component :=
  mkComponent (heap c) (scene c) (camera c) (player c) (playerMixer c) (walkAction c)
    (moveForward c) (turn c) (trashItems c) (bins c) (carryingItem c)
    (recycledCount c) (score c) (gameState c) (showWinMenu c) v
    (hudMessage c) (played c).

Definition set_hudMessage (v : string) : Component :=
  mkComponent (heap c) (scene c) (camera c) (player c) (playerMixer c) (walkAction c)
    (moveForward c) (turn c) (trashItems c) (bins c) (carryingItem c)
    (recycledCount c) (score c) (gameState c) (showWinMenu c) (showLoseMenu c)
    v (played c).

(** [playSound(sound)]: the sound is restarted and played; a failure is
    caught and logged, the game state is not touched. *)
Definition playSound (v : Sound) : Component :=
  mkComponent (heap c) (scene c) (camera c) (player c) (playerMixer c) (walkAction c)
    (moveForward c) (turn c) (trashItems c) (bins c) (carryingItem c)
    (recycledCount c) (score c) (gameState c) (showWinMenu c) (showLoseMenu c)
    (hudMessage c) (played c ++ [v]).

End Setters.

(** ** Strings *)

Local Open Scope string_scope.

(** [String.prototype.toLowerCase] on the ASCII letters, which are the only
    ones the key names and the bone names compared below contain. *)
Definition lower_ascii (a : ascii) : ascii :=
let n := nat_of_ascii a in
if ((65 <=? n) && (n <=? 90))%nat then ascii_of_nat (n + 32) else a.

Fixpoint toLowerCase (s : string) : string :=
match s with
| EmptyString => EmptyString
| String a r => String (lower_ascii a) (toLowerCase r)
end.

(** [s.includes(sub)] *)
Definition includes (sub s : string) : bool :=
match index 0 sub s with
| Some _ => true
| None => false
end.

(** Template-literal rendering of an integer. *)
Definition number_to_string (n : Z) : string := NilZero.string_of_int (Z.to_int n).

(** ** What three.js and the runtime provide *)

Class Three : Type := {
  (** [Math.sqrt] *)
  Math_sqrt : Q -> Q;
  (** [v.applyAxisAngle(axis, angle)] *)
  applyAxisAngle : Vector3.t -> Vector3.t -> Q -> Vector3.t;
  (** [o.getWorldPosition(target)] *)
  getWorldPosition : Heap -> ObjId -> Vector3.t;
  (** [o.getWorldScale(target)], after [o.updateWorldMatrix(true, false)] *)
  getWorldScale : Heap -> ObjId -> Vector3.t;
  (** the objects [o.traverse(callback)] visits, in visiting order *)
  traverse : Heap -> ObjId -> list ObjId;
  (** [controls.update()] of the orbit controls, acting on the camera *)
  controls_update : Camera.t -> Camera.t;
  (** [playerMixer.update(delta)], acting on the animated objects *)
  mixer_update : option AnimationAction.t -> Q -> Heap -> Heap;
  (** [a / b] on numbers, where the code computes a scale: the quotient as
      the engine rounds it. No rational is the quotient by zero (JavaScript
      gives an infinity or NaN there): whatever is proved of a quotient
      assumes a divisor other than zero. *)
  divide : Q -> Q -> Q;
  (** [a * b] on numbers, where the code computes a scale: the product as
      the engine rounds it. *)
  times : Q -> Q -> Q
}.

Section Game.

Context {T : Three}.

(** [a.distanceTo(b)]: the square root of [a.distanceToSquared(b)]. *)
Definition distanceTo (a b : Vector3.t) : Q :=
  Math_sqrt (Vector3.distanceToSquared a b).

(** *** getHandAnchor *)

Definition isHand (h : Heap) (child : ObjId) : bool :=
  let n := Object3D.name (h child) in
  negb (n =? "") && includes "hand" (toLowerCase n).

Definition getHandAnchor (c : Component) : ObjId :=
  match player c with
  | None => scene c
  | Some p =>
      match find (isHand (heap c)) (traverse (heap c) p) with
      | Some hand => hand
      | None => p
      end
  end.

(** *** findNearestTrash, findNearestBin *)

Definition findNearestTrash (c : Component) (playerPos : Vector3.t) (maxDistance : Q)
  : option TrashItem.t :=
  fst (fold_left
         (fun (acc : option TrashItem.t * Q) (item : TrashItem.t) =>
            let (nearest, minDist) := acc in
            let itemPos := getWorldPosition (heap c) (TrashItem.object item) in
            let dist := distanceTo itemPos playerPos in
            if Qlt_le_dec dist minDist then (Some item, dist) else (nearest, minDist))
         (trashItems c) (None, maxDistance)).

Definition findNearestBin (c : Component) (playerPos : Vector3.t) (maxDistance : Q)
  : option Bin.t :=
  fst (fold_left
         (fun (acc : option Bin.t * Q) (bin : Bin.t) =>
            let (nearest, minDist) := acc in
            let binPos := getWorldPosition (heap c) (Bin.object bin) in
            let dist := distanceTo binPos playerPos in
            if Qlt_le_dec dist minDist then (Some bin, dist) else (nearest, minDist))
         (bins c) (None, maxDistance)).

(** *** checkGameState *)

Definition checkGameState (c : Component) : Component :=
  match gameState c with
  | playing =>
      let c :=
        if (score c >=? 5)%Z then
          let c := set_gameState c win in
          let c := set_showWinMenu c true in
          set_hudMessage c "¡Excelente! Clasificaste bien la basura. 🎉"
        else if (score c <=? -2)%Z then
          let c := set_gameState c lose in
          let c := set_showLoseMenu c true in
          set_hudMessage c "Has reciclado mal demasiadas veces. 😢"
        else c in
      match gameState c with
      | playing => c
      | _ =>
          let c := set_moveForward c 0%Q in
          let c := set_turn c 0%Q in
          match walkAction c with
          | Some _ => set_walkAction c (Some (AnimationAction.mk true))
          | None => c
          end
      end
  | _ => c
  end.

(** *** tryInteract *)

Definition tryInteract (c : Component) : Component :=
  match player c, gameState c with
  | Some p, playing =>
      let playerPos := getWorldPosition (heap c) p in
      match carryingItem c with
      | None =>
          match findNearestTrash c playerPos pickupDistance with
          | Some nearestTrash =>
              let c := set_carryingItem c (Some nearestTrash) in
              let c := set_trashItems c
                         (filter (fun t => if TrashItem.eq_dec t nearestTrash then false else true)
                                 (trashItems c)) in
              let handAnchor := getHandAnchor c in
              let handWorldScale := getWorldScale (heap c) handAnchor in
              let s := TrashItem.baseScale nearestTrash in
              let o := TrashItem.object nearestTrash in
              let c := set_heap c
                         (update o (Object3D.set_scale
                                      (Vector3.mk (divide s (Vector3.x handWorldScale))
                                                  (divide s (Vector3.y handWorldScale))
                                                  (divide s (Vector3.z handWorldScale))))
                                 (heap c)) in
              let c := set_heap c (Object3D_add handAnchor o (heap c)) in
              let c := playSound c pickupSound in
              let c := set_heap c
                         (update o (Object3D.set_position (Vector3.mk 0.1 0.3 0.2)) (heap c)) in
              let c := set_heap c
                         (update o (Object3D.set_rotation (Vector3.mk 0 0 0)) (heap c)) in
              set_hudMessage c
                ("Recogiste basura (" ++ TrashType_to_string (TrashItem.type nearestTrash)
                   ++ "). Llévala al contenedor correcto.")
          | None => set_hudMessage c "No hay basura cerca para recoger."
          end
      | Some carrying =>
          match findNearestBin c playerPos binDistance with
          | None => set_hudMessage c "No hay ningún contenedor cerca. Acércate más."
          | Some nearestBin =>
              if TrashType_eq_dec (Bin.type nearestBin) (TrashItem.type carrying) then
                let c := set_recycledCount c
                           (RecycledCount.incr (Bin.type nearestBin) (recycledCount c)) in
                let c := set_score c (score c + 1)%Z in
                let c := set_heap c
                           (Object3D_removeFromParent (TrashItem.object carrying) (heap c)) in
                let c := set_carryingItem c None in
                let c := playSound c correctSound in
                let c := set_hudMessage c
                           ("¡Bien! +1 punto. Puntos: " ++ number_to_string (score c)) in
                checkGameState c
              else
                let c := set_score c (score c - 1)%Z in
                let c := playSound c wrongSound in
                let c := set_heap c
                           (Object3D_removeFromParent (TrashItem.object carrying) (heap c)) in
                let c := set_carryingItem c None in
                let c := set_hudMessage c
                           ("Contenedor incorrecto. -1 punto. Puntos: "
                              ++ number_to_string (score c)) in
                checkGameState c
          end
      end
  | _, _ => c
  end.

(** *** onKeyDown, onKeyUp *)

Definition onKeyDown (e_key : string) (c : Component) : Component :=
  let key := toLowerCase e_key in
  match gameState c with
  | playing =>
      if (key =? "w") || (key =? "arrowup") then set_moveForward c 1%Q
      else if (key =? "s") || (key =? "arrowdown") then set_moveForward c (-1)%Q
      else if (key =? "a") || (key =? "arrowleft") then set_turn c 1%Q
      else if (key =? "d") || (key =? "arrowright") then set_turn c (-1)%Q
      else if key =? "e" then tryInteract c
      else c
  | _ => c
  end.

Definition onKeyUp (e_key : string) (c : Component) : Component :=
  let key := toLowerCase e_key in
  match gameState c with
  | playing =>
      if (key =? "w") || (key =? "arrowup") || (key =? "s") || (key =? "arrowdown")
      then set_moveForward c 0%Q
      else if (key =? "a") || (key =? "arrowleft") || (key =? "d") || (key =? "arrowright")
      then set_turn c 0%Q
      else c
  | _ => c
  end.

(** *** animate *)

Definition speed : Q := 100.
Definition rotationSpeed : Q := 2.5.

(** One frame with [delta] seconds on the clock. Requesting the next frame
    and rendering leave the component's fields alone. *)
Definition animate (delta : Q) (c : Component) : Component :=
  let c := set_camera c (controls_update (camera c)) in
  let c :=
    match playerMixer c, gameState c with
    | true, playing => set_heap c (mixer_update (walkAction c) delta (heap c))
    | _, _ => c
    end in
  match player c, gameState c with
  | Some p, playing =>
      let c := set_heap c
                 (update p (fun o =>
                    Object3D.set_rotation
                      (Vector3.mk (Vector3.x (Object3D.rotation o))
                                  (Vector3.y (Object3D.rotation o) - turn c * rotationSpeed * delta)
                                  (Vector3.z (Object3D.rotation o))) o)
                    (heap c)) in
      let forward := Vector3.mk 0 0 1 in
      let forward := applyAxisAngle forward (Vector3.mk 0 1 0)
                       (Vector3.y (Object3D.rotation (heap c p))) in
      let forward := Vector3.multiplyScalar forward (moveForward c * speed * delta) in
      let c := set_heap c
                 (update p (fun o =>
                    Object3D.set_position (Vector3.add (Object3D.position o) forward) o)
                    (heap c)) in
      let offset := Vector3.mk 0 80 (-150) in
      let playerWorldPos := getWorldPosition (heap c) p in
      let desiredCamPos := Vector3.add playerWorldPos offset in
      let c := set_camera c
                 (Camera.mk (Vector3.lerp (Camera.position (camera c)) desiredCamPos 0.1)
                            playerWorldPos) in
      match walkAction c with
      | Some _ =>
          let isMoving :=
            (if Qlt_le_dec 0.001 (Qabs (moveForward c)) then true else false)
            || (if Qlt_le_dec 0.001 (Qabs (turn c)) then true else false) in
          set_walkAction c (Some (AnimationAction.mk (negb isMoving)))
      | None => c
      end
  | _, _ => c
  end.

(** ** Events *)

(** What reaches the component from outside: key presses and releases with
    the key's name, a direct request to interact, and animation frames with
    the time elapsed since the previous one. *)
Inductive Event : Set :=
| KeyDown (key : string)
| KeyUp (key : string)
| Interact
| Tick (delta : Q).

Definition step (e : Event) (c : Component) : Component :=
  match e with
  | KeyDown key => onKeyDown key c
  | KeyUp key => onKeyUp key c
  | Interact => tryInteract c
  | Tick delta => animate delta c
  end.

Definition run (es : list Event) (c : Component) : Component :=
  fold_left (fun c e => step e c) es c.

End Game.

(** ** The nearest-entity scan, once for both candidate kinds *)

Local Open Scope list_scope.

Section Scan.

Variable A : Type.
Variable dist : A -> Q.

(** The body of the [for ... of] loop shared by [findNearestTrash] and
    [findNearestBin], on the pair ([nearest], [minDist]). *)
Definition scanStep (acc : option A * Q) (a : A) : option A * Q :=
  let (nearest, minDist) := acc in
  if Qlt_le_dec (dist a) minDist then (Some a, dist a) else (nearest, minDist).

Definition scan (l : list A) (maxDistance : Q) : option A * Q :=
  fold_left scanStep l (None, maxDistance).

(** What the pair holds once the candidates [l] have been visited. *)
Definition scanned (l : list A) (maxDistance : Q) (acc : option A * Q) : Prop :=
  match fst acc with
  | None =>
      snd acc = maxDistance /\ forall a, In a l -> maxDistance <= dist a
  | Some n =>
      snd acc = dist n /\
      exists before after,
        l = before ++ n :: after /\
        dist n < maxDistance /\
        (forall a, In a before -> dist n < dist a) /\
        (forall a, In a after -> dist n <= dist a)
  end.

End Scan.

Arguments scanStep {A} dist acc a.
Arguments scan {A} dist l maxDistance.
Arguments scanned {A} dist l maxDistance acc.

Section Distances.

Context {T : Three}.

(** The distance the scans compare: from a candidate's world position to the
    player's position. *)
Definition distanceOfTrash (c : Component) (playerPos : Vector3.t) (item : TrashItem.t) : Q :=
  distanceTo (getWorldPosition (heap c) (TrashItem.object item)) playerPos.

Definition distanceOfBin (c : Component) (playerPos : Vector3.t) (bin : Bin.t) : Q :=
  distanceTo (getWorldPosition (heap c) (Bin.object bin)) playerPos.

End Distances.

(** ** A concrete runtime and concrete scenes *)

(** Square root that is exact on the squares of rationals. *)
Definition exact_sqrt (q : Q) : Q := Z.sqrt (Qnum q * Zpos (Qden q)) # Qden q.

(** A scene in which every object hangs directly under an untransformed root
    and has no descendants: world position and world scale are the local
    ones, a traversal visits the object alone; nothing is rotated, the orbit
    controls are at rest and no animation clip is bound. Quotients and
    products are exact. *)
Definition flatScene : Three := {|
  Math_sqrt := exact_sqrt;
  applyAxisAngle := fun v _ _ => v;
  getWorldPosition := fun h o => Object3D.position (h o);
  getWorldScale := fun h o => Object3D.scale (h o);
  traverse := fun _ o => [o];
  controls_update := fun cam => cam;
  mixer_update := fun _ _ h => h;
  divide := Qdiv;
  times := Qmult
|}.

Definition origin : Vector3.t := Vector3.mk 0 0 0.
Definition unit_scale : Vector3.t := Vector3.mk 1 1 1.

Definition object_at (nm : string) (pos : Vector3.t) (sc : Q) : Object3D.t :=
  Object3D.mk nm (Some 0%nat) pos origin (Vector3.mk sc sc sc).

(** Handles: 0 the scene root, 1 the player (scaled by 30, as
    [loadPlayerModel] does), 2 and 3 two bananas at the same distance from
    the player, 10 to 12 the three bins where [loadBins] puts them. *)
Definition demoHeap : Heap := fun o =>
  match o with
  | 1%nat => object_at "hombre" origin 30
  | 2%nat => object_at "BANANA" (Vector3.mk 10 0 0) 0.003
  | 3%nat => object_at "BANANA" (Vector3.mk (-10) 0 0) 0.003
  | 10%nat => object_at "green" (Vector3.mk (-150) 0 200) 30
  | 11%nat => object_at "black" (Vector3.mk 0 0 200) 30
  | 12%nat => object_at "white" (Vector3.mk 150 0 200) 30
  | _ => Object3D.mk "" None origin origin unit_scale
  end.

Definition bananaA : TrashItem.t := TrashItem.mk 2%nat organico 0.003 None.
Definition bananaB : TrashItem.t := TrashItem.mk 3%nat organico 0.003 None.

Definition demoBins : list Bin.t :=
  [Bin.mk 10%nat organico; Bin.mk 11%nat general; Bin.mk 12%nat reciclable].

Definition demoCamera : Camera.t := Camera.mk (Vector3.mk 0 80 (-150)) origin.

(** The component once the player, two bananas and the bins are loaded. *)
Definition demoGame : Component :=
  mkComponent demoHeap 0%nat demoCamera (Some 1%nat) true
    (Some (AnimationAction.mk true)) 0 0 [bananaA; bananaB] demoBins None
    (RecycledCount.mk 0 0 0) 0%Z playing false false "" [].

(** A small yard: the player at the origin, the organic bin fifty units ahead
    of it, and the trash items given, each around its own object; the object
    with handle [20 + k] lies [k + 1] units to the player's side. *)
Definition yardHeap : Heap := fun o =>
  match o with
  | 1%nat => object_at "hombre" origin 30
  | 10%nat => object_at "green" (Vector3.mk 0 0 50) 30
  | _ =>
      if (20 <=? o)%nat
      then object_at "trash" (Vector3.mk (inject_Z (Z.of_nat (o - 19))) 0 0) 0.1
      else Object3D.mk "" None origin origin unit_scale
  end.

Definition yard (items : list TrashItem.t) : Component :=
  mkComponent yardHeap 0%nat demoCamera (Some 1%nat) true
    (Some (AnimationAction.mk true)) 0 0 items [Bin.mk 10%nat organico] None
    (RecycledCount.mk 0 0 0) 0%Z playing false false "" [].

Definition peel (k : nat) : TrashItem.t := TrashItem.mk (20 + k)%nat organico 0.1 None.
Definition wrapper (k : nat) : TrashItem.t := TrashItem.mk (20 + k)%nat general 0.1 None.

Definition fivePeels : list TrashItem.t := [peel 0; peel 1; peel 2; peel 3; peel 4].
Definition twoWrappers : list TrashItem.t := [wrapper 0; wrapper 1].

(** The demo component before the player model has arrived. *)
Definition unloadedGame : Component :=
  mkComponent demoHeap 0%nat demoCamera None false None 0 0 [bananaA; bananaB]
    demoBins None (RecycledCount.mk 0 0 0) 0%Z playing false false "" [].

(** States reached in the concrete runtime: a banana in hand far from every
    bin; a wrapper, then a peel, in hand next to the organic bin; the yard
    after ten interactions that recycle the five peels. *)
Definition carryingBanana : Component := @tryInteract flatScene demoGame.
Definition carryingWrapper : Component := @tryInteract flatScene (yard twoWrappers).
Definition carryingPeel : Component := @tryInteract flatScene (yard fivePeels).
Definition wonGame : Component := @run flatScene (repeat Interact 10) (yard fivePeels).

(** Keys and frames of a short walk with a pickup at its start. *)
Definition shortWalk : list Event :=
  [Interact; KeyDown "ArrowUp"; Tick 0.5; KeyUp "ArrowUp"; KeyDown "E"; KeyDown "a"; Tick 0.25].

(** ** The rules in the specification's words *)

(** Game progress: a score of five or more wins; otherwise a score of minus
    two or less loses; otherwise the game goes on. *)
Definition verdict (s : Z) : GameState :=
  if (s >=? 5)%Z then win else if (s <=? -2)%Z then lose else playing.

(** The floor set without [item]. *)
Definition removeItem (item : TrashItem.t) (l : list TrashItem.t) : list TrashItem.t :=
  filter (fun t => if TrashItem.eq_dec t item then false else true) l.

(** The net score of a series of deposits: plus one for each correct one,
    minus one for each incorrect one. *)
Fixpoint tally (ds : list bool) : Z :=
  match ds with
  | [] => 0
  | true :: ds' => 1 + tally ds'
  | false :: ds' => -1 + tally ds'
  end.

(** The registry invariant, for the items [spawned] by the loaders: the floor
    set holds spawned items, each once, and the carry slot is empty or holds a
    spawned item that is not on the floor. *)
Definition registryInvariant (spawned : list TrashItem.t) (c : Component) : Prop :=
  NoDup (trashItems c) /\
  incl (trashItems c) spawned /\
  match carryingItem c with
  | None => True
  | Some item => In item spawned /\ ~ In item (trashItems c)
  end.

(** The walk action after the game has ended: paused, when there is one. *)
Definition pausedWalk (a : option AnimationAction.t) : option AnimationAction.t :=
  option_map (fun _ => AnimationAction.mk true) a.

(** ** Deposits along a run *)

Section Deposits.

Context {T : Three}.

(** Whether event [e], arriving in state [c], reaches [tryInteract]: a direct
    request always does, a key press does while playing when the key is E. *)
Definition interacts (e : Event) (c : Component) : bool :=
  match e with
  | Interact => true
  | KeyDown key =>
      match gameState c with
      | playing => (toLowerCase key =? "e")%string
      | _ => false
      end
  | _ => false
  end.

(** The deposit [tryInteract] performs in state [c], if it performs one: the
    player is loaded, the game is being played, an item is carried and the
    bin query finds a bin. *)
Definition deposit (c : Component) : option (TrashItem.t * Bin.t) :=
  match player c, gameState c, carryingItem c with
  | Some p, playing, Some item =>
      match findNearestBin c (getWorldPosition (heap c) p) binDistance with
      | Some bin => Some (item, bin)
      | None => None
      end
  | _, _, _ => None
  end.

Definition depositBy (e : Event) (c : Component) : option (TrashItem.t * Bin.t) :=
  if interacts e c then deposit c else None.

(** A deposit is correct when the bin's category is the item's. *)
Definition correct (d : TrashItem.t * Bin.t) : bool :=
  if TrashType_eq_dec (Bin.type (snd d)) (TrashItem.type (fst d)) then true else false.

(** The deposits made along a run, in order, each marked correct or not. *)
Fixpoint deposits (es : list Event) (c : Component) : list bool :=
  match es with
  | [] => []
  | e :: es' =>
      match depositBy e c with
      | Some d => correct d :: deposits es' (step e c)
      | None => deposits es' (step e c)
      end
  end.

(** The score bounds that go with each game state. *)
Definition scoreInBounds (c : Component) : Prop :=
  match gameState c with
  | playing => (-2 < score c < 5)%Z
  | win => score c = 5%Z
  | lose => score c = (-2)%Z
  end.

End Deposits.

(** ** More of the component: bookkeeping along a run *)

Definition Sound_eq_dec (a b : Sound) : {a = b} + {a <> b}.
Proof. decide equality. Defined.

(** How many times [s] was handed to [playSound]. *)
Definition timesPlayed (s : Sound) (c : Component) : nat :=
  count_occ Sound_eq_dec (played c) s.

(** The deposits counted in [recycledCount], all categories together. *)
Definition totalRecycled (c : Component) : Z :=
  (RecycledCount.organico_ (recycledCount c)
   + RecycledCount.reciclable_ (recycledCount c)
   + RecycledCount.general_ (recycledCount c))%Z.

(** The number of items in the carry slot. *)
Definition carriedCount (c : Component) : nat :=
  match carryingItem c with
  | Some _ => 1
  | None => 0
  end.

(** The values the key handlers give an intent. *)
Definition isIntent (q : Q) : Prop := q = 1 \/ q = (-1) \/ q = 0.


(** What a finished game looks like: no intent, the walk action paused. *)
Definition frozenWhenOver (c : Component) : Prop :=
  gameState c <> playing ->
  moveForward c = 0 /\ turn c = 0 /\
  forall a, walkAction c = Some a -> AnimationAction.paused a = true.

(** The HUD tells the game state: each end menu is shown exactly in its end
    state, where the HUD message is the closing one. *)
Definition hudTellsState (c : Component) : Prop :=
  (showWinMenu c = true <-> gameState c = win) /\
  (showLoseMenu c = true <-> gameState c = lose) /\
  (gameState c = win ->
   hudMessage c = "¡Excelente! Clasificaste bien la basura. 🎉") /\
  (gameState c = lose ->
   hudMessage c = "Has reciclado mal demasiadas veces. 😢").

(** The books balance: the counters add up to the correct-deposit sounds, the
    score is the correct-deposit sounds minus the wrong-deposit sounds, every
    pickup sound is matched by a deposit sound or by the item in hand, and no
    counter is negative. *)
Definition booksBalance (c : Component) : Prop :=
  totalRecycled c = Z.of_nat (timesPlayed correctSound c) /\
  score c = (Z.of_nat (timesPlayed correctSound c) - Z.of_nat (timesPlayed wrongSound c))%Z /\
  timesPlayed pickupSound c
  = (timesPlayed correctSound c + timesPlayed wrongSound c + carriedCount c)%nat /\
  (forall k, (0 <= RecycledCount.get (recycledCount c) k)%Z).

Section Frames.

Context {T : Three}.

(** The scene as the animation mixer leaves it at the start of a frame: the
    mixer runs when it exists and the game is being played. *)
Definition afterMixer (delta : Q) (c : Component) : Heap :=
  match playerMixer c, gameState c with
  | true, playing => mixer_update (walkAction c) delta (heap c)
  | _, _ => heap c
  end.

End Frames.

(** ** Asset loading: the callbacks of the four loaders *)

(** [new THREE.Sprite(...)], [new THREE.Object3D()]: an object with the
    default transform and no parent, behind the handle the runtime hands
    out. *)
Definition Object3D_new (o : ObjId) (h : Heap) : Heap :=
  fun o' =>
    if Nat.eq_dec o' o
    then Object3D.mk "" None (Vector3.mk 0 0 0) (Vector3.mk 0 0 0) (Vector3.mk 1 1 1)
    else h o'.

(** [dst = src.clone(true)]: a copy of [src] without a parent, behind the
    handle [dst] the runtime hands out. *)
Definition Object3D_clone (src dst : ObjId) (h : Heap) : Heap :=
  fun o' => if Nat.eq_dec o' dst then Object3D.set_parent None (h src) else h o'.

Section MoreSetters.

Variable c : Component.

Definition set_player (v : option ObjId) : Component :=
  mkComponent (heap c) (scene c) (camera c) v (playerMixer c) (walkAction c)
    (moveForward c) (turn c) (trashItems c) (bins c) (carryingItem c)
    (recycledCount c) (score c) (gameState c) (showWinMenu c) (showLoseMenu c)
    (hudMessage c) (played c).

Definition set_playerMixer (v : bool) : Component :=
  mkComponent (heap c) (scene c) (camera c) (player c) v (walkAction c)
    (moveForward c) (turn c) (trashItems c) (bins c) (carryingItem c)
    (recycledCount c) (score c) (gameState c) (showWinMenu c) (showLoseMenu c)
    (hudMessage c) (played c).

Definition set_bins (v : list Bin.t) : Component :=
  mkComponent (heap c) (scene c) (camera c) (player c) (playerMixer c) (walkAction c)
    (moveForward c) (turn c) (trashItems c) v (carryingItem c)
    (recycledCount c) (score c) (gameState c) (showWinMenu c) (showLoseMenu c)
    (hudMessage c) (played c).

End MoreSetters.

(** *** loadPlayerModel *)

(** The success callback of [loadPlayerModel], for the loaded scene [model]
    and the number of animation clips that came with it (0 also when the
    file has no [animations] field). *)
Definition loadPlayerModel_onLoad (model : ObjId) (animations : nat) (c : Component)
  : Component :=
  let c := set_heap c (update model (Object3D.set_scale (Vector3.mk 30 30 30)) (heap c)) in
  let c := set_heap c (update model (Object3D.set_position (Vector3.mk 0 0 0)) (heap c)) in
  let c := set_heap c (Object3D_add (scene c) model (heap c)) in
  let c := set_player c (Some model) in
  let c := set_playerMixer c true in
  if (0 <? animations)%nat
  then set_walkAction c (Some (AnimationAction.mk true))
  else c.

(** *** loadBins *)

Module BinConfig.

Record t : Set := mk { file : string; type : TrashType; position : Vector3.t }.

End BinConfig.

Definition binConfigs : list BinConfig.t :=
  [ BinConfig.mk "assets/green.glb" organico (Vector3.mk (-150) 0 200);
    BinConfig.mk "assets/black.glb" general (Vector3.mk 0 0 200);
    BinConfig.mk "assets/white.glb" reciclable (Vector3.mk 150 0 200) ].

(** The success callback of the load [loadBins] starts for [cfg]. *)
Definition loadBins_onLoad (cfg : BinConfig.t) (model : ObjId) (c : Component) : Component :=
  let c := set_heap c (update model (Object3D.set_scale (Vector3.mk 30 30 30)) (heap c)) in
  let c := set_heap c (update model (Object3D.set_position (BinConfig.position cfg)) (heap c)) in
  let c := set_heap c (Object3D_add (scene c) model (heap c)) in
  set_bins c (bins c ++ [Bin.mk model (BinConfig.type cfg)]).

(** *** loadTrash *)

Module TrashConfig.

Record t : Set := mk {
  name : string;
  type : TrashType;
  instances : nat;
  scale : Q;
  label : string
}.

End TrashConfig.

Definition trashConfigs : list TrashConfig.t :=
  [ TrashConfig.mk "BANANA" organico 2 0.003 "Banana";
    TrashConfig.mk "BOLSA_DE_PAPAS" general 2 0.1 "Bolsa de Papas";
    TrashConfig.mk "BOTELLA_DE_GASEOSA" reciclable 2 0.1 " Gaseosa";
    TrashConfig.mk "BOLSA_DE_CHETOS" general 2 0.1 "Chetos";
    TrashConfig.mk "BOLSA_DE_CHOCLITOS" general 2 0.1 "Choclitos";
    TrashConfig.mk "BOLSA_DE_MADURITOS" general 2 0.1 "Maduritos";
    TrashConfig.mk "LATA_DE_GASEOSA_000" reciclable 2 0.1 " Sprite";
    TrashConfig.mk "LATA_DE_GASEOSA_001" reciclable 2 0.1 "Cocacola";
    TrashConfig.mk "BOTELLA_DE_VINO" reciclable 2 0.1 "Botella de Vino";
    TrashConfig.mk "CAFE" reciclable 2 0.1 "Cafe";
    TrashConfig.mk "MANZANA_VERDE" organico 2 0.1 "Manzana Verde" ].

Definition areaSize : Q := 400.

(** What the runtime supplies for one instance: the handles of the clone and
    of its label sprite, the lowest point and the height of the clone's
    bounding box, and the two results of [Math.random()]. *)
Module Instance.

Record t : Set := mk {
  trash : ObjId;
  labelSprite : ObjId;
  boxMinY : Q;
  boxSizeY : Q;
  random1 : Q;
  random2 : Q
}.

End Instance.

(** [(Math.random() - 0.5) * 2 * areaSize] *)
Definition randomCoordinate (random : Q) : Q := (random - 0.5) * 2 * areaSize.

(** The label's local scale and offset under an item scaled by [s]:
    [inv = 1 / s], then [20 * inv], [8 * inv] and [25 * inv], each as the
    engine computes it. *)
Definition labelScale {T : Three} (s : Q) : Vector3.t :=
  let inv := divide 1 s in Vector3.mk (times 20 inv) (times 8 inv) 1.

Definition labelPosition {T : Three} (s : Q) : Vector3.t :=
  let inv := divide 1 s in Vector3.mk 0 (times 25 inv) 0.

(** One turn of the [for] loop of [loadTrash]: an instance of [cfg] cloned
    from [original]. *)
Definition loadTrash_instance {T : Three} (cfg : TrashConfig.t) (original : ObjId) (i : Instance.t)
  (c : Component) : Component :=
  let trash := Instance.trash i in
  let labelSprite := Instance.labelSprite i in
  let c := set_heap c (Object3D_clone original trash (heap c)) in
  let c := set_heap c
             (update trash
                (Object3D.set_scale
                   (Vector3.mk (TrashConfig.scale cfg) (TrashConfig.scale cfg)
                      (TrashConfig.scale cfg)))
                (heap c)) in
  let yOffset := - Instance.boxMinY i in
  let c := set_heap c
             (update trash
                (fun o => Object3D.set_position
                            (Vector3.mk (Vector3.x (Object3D.position o))
                                        (Vector3.y (Object3D.position o) + yOffset)
                                        (Vector3.z (Object3D.position o))) o)
                (heap c)) in
  let c := set_heap c (Object3D_new labelSprite (heap c)) in
  let c := set_heap c
             (update labelSprite (Object3D.set_scale (labelScale (TrashConfig.scale cfg)))
                (heap c)) in
  let c := set_heap c
             (update labelSprite
                (Object3D.set_position (labelPosition (TrashConfig.scale cfg))) (heap c)) in
  let c := set_heap c (Object3D_add trash labelSprite (heap c)) in
  let randomX := randomCoordinate (Instance.random1 i) in
  let randomZ := randomCoordinate (Instance.random2 i) in
  let c := set_heap c
             (update trash
                (fun o => Object3D.set_position
                            (Vector3.mk randomX (Vector3.y (Object3D.position o)) randomZ) o)
                (heap c)) in
  let c := set_heap c (Object3D_add (scene c) trash (heap c)) in
  set_trashItems c
    (trashItems c
       ++ [TrashItem.mk trash (TrashConfig.type cfg) (TrashConfig.scale cfg)
             (Some labelSprite)]).

(** The success callback of [loadTrash]: [getObjectByName] looks a model up
    in the loaded file, [instances] supplies what the runtime hands out for
    the [i]-th instance of the model of a given name. *)
Definition loadTrash_onLoad {T : Three} (getObjectByName : string -> option ObjId)
  (instances : string -> nat -> Instance.t) (c : Component) : Component :=
  fold_left
    (fun c cfg =>
       match getObjectByName (TrashConfig.name cfg) with
       | None => c
       | Some original =>
           fold_left
             (fun c i => loadTrash_instance cfg original (instances (TrashConfig.name cfg) i) c)
             (seq 0 (TrashConfig.instances cfg)) c
       end)
    trashConfigs c.

(** *** loadExtraTrashModels *)

Module ExtraConfig.

Record t : Set := mk {
  file : string;
  type : TrashType;
  label : string;
  scale : Q;
  instances : nat
}.

End ExtraConfig.

Definition extraConfigs : list ExtraConfig.t :=
  [ ExtraConfig.mk "assets/taoabocas.glb" general "Tapabocas" 1 2;
    ExtraConfig.mk "assets/servilleta.glb" general "Servilletas" 10 4 ].

Definition debugScale : Q := 5.

(** One turn of the [for] loop of [loadExtraTrashModels]. *)
Definition loadExtraTrashModels_instance {T : Three} (cfg : ExtraConfig.t) (base : ObjId)
  (i : Instance.t) (c : Component) : Component :=
  let trash := Instance.trash i in
  let labelSprite := Instance.labelSprite i in
  let c := set_heap c (Object3D_clone base trash (heap c)) in
  let c := set_heap c
             (update trash (Object3D.set_scale (Vector3.mk debugScale debugScale debugScale))
                (heap c)) in
  let yOffset := - Instance.boxMinY i in
  let c := set_heap c
             (update trash
                (fun o => Object3D.set_position
                            (Vector3.mk (Vector3.x (Object3D.position o))
                                        (Vector3.y (Object3D.position o)
                                         + (yOffset + Instance.boxSizeY i * 0.05))
                                        (Vector3.z (Object3D.position o))) o)
                (heap c)) in
  let randomX := randomCoordinate (Instance.random1 i) in
  let randomZ := randomCoordinate (Instance.random2 i) in
  let c := set_heap c
             (update trash
                (fun o => Object3D.set_position
                            (Vector3.mk randomX (Vector3.y (Object3D.position o)) randomZ) o)
                (heap c)) in
  let c := set_heap c (Object3D_new labelSprite (heap c)) in
  let c := set_heap c (update labelSprite (Object3D.set_scale (labelScale debugScale)) (heap c)) in
  let c := set_heap c
             (update labelSprite (Object3D.set_position (labelPosition debugScale)) (heap c)) in
  let c := set_heap c (Object3D_add trash labelSprite (heap c)) in
  let c := set_heap c (Object3D_add (scene c) trash (heap c)) in
  set_trashItems c
    (trashItems c
       ++ [TrashItem.mk trash (ExtraConfig.type cfg) debugScale (Some labelSprite)]).

(** The success callback of the load [loadExtraTrashModels] starts for
    [cfg], with the loaded scene [base]. *)
Definition loadExtraTrashModels_onLoad {T : Three} (cfg : ExtraConfig.t) (base : ObjId)
  (instances : nat -> Instance.t) (c : Component) : Component :=
  fold_left
    (fun c i => loadExtraTrashModels_instance cfg base (instances i) c)
    (seq 0 (ExtraConfig.instances cfg)) c.

(** ** Sessions: events and arriving assets, interleaved *)

(** A loader's success callback firing, with what the loaded file and the
    runtime supply. A failed load calls the error callback, which only logs,
    and is no arrival. *)
Inductive Arrival : Type :=
| PlayerModel (model : ObjId) (animations : nat)
| BinModel (cfg : BinConfig.t) (model : ObjId)
| TrashModels (getObjectByName : string -> option ObjId)
              (instances : string -> nat -> Instance.t)
| ExtraModel (cfg : ExtraConfig.t) (base : ObjId) (instances : nat -> Instance.t).

Definition arrive {T : Three} (a : Arrival) (c : Component) : Component :=
  match a with
  | PlayerModel model animations => loadPlayerModel_onLoad model animations c
  | BinModel cfg model => loadBins_onLoad cfg model c
  | TrashModels getObjectByName instances => loadTrash_onLoad getObjectByName instances c
  | ExtraModel cfg base instances => loadExtraTrashModels_onLoad cfg base instances c
  end.

(** The items [loadTrash] makes of one configuration: one per instance when
    the loaded file has the model, none when it has not. *)
Definition instancesOf (getObjectByName : string -> option ObjId)
  (instances : string -> nat -> Instance.t) (cfg : TrashConfig.t) : list TrashItem.t :=
  match getObjectByName (TrashConfig.name cfg) with
  | None => []
  | Some _ =>
      map (fun i =>
             let inst := instances (TrashConfig.name cfg) i in
             TrashItem.mk (Instance.trash inst) (TrashConfig.type cfg)
               (TrashConfig.scale cfg) (Some (Instance.labelSprite inst)))
          (seq 0 (TrashConfig.instances cfg))
  end.

(** The items an arrival puts on the floor, in order. *)
Definition arriving (a : Arrival) : list TrashItem.t :=
  match a with
  | PlayerModel _ _ => []
  | BinModel _ _ => []
  | TrashModels getObjectByName instances =>
      flat_map (instancesOf getObjectByName instances) trashConfigs
  | ExtraModel cfg _ instances =>
      map (fun i =>
             let inst := instances i in
             TrashItem.mk (Instance.trash inst) (ExtraConfig.type cfg) debugScale
               (Some (Instance.labelSprite inst)))
          (seq 0 (ExtraConfig.instances cfg))
  end.

Inductive Input : Type :=
| FromUser (e : Event)
| FromLoader (a : Arrival).

Section Sessions.

Context {T : Three}.

Definition handle (i : Input) (c : Component) : Component :=
  match i with
  | FromUser e => step e c
  | FromLoader a => arrive a c
  end.

Definition session (inputs : list Input) (c : Component) : Component :=
  fold_left (fun c i => handle i c) inputs c.

End Sessions.

(** The scene objects of the items in play: those on the floor, then the one
    carried. *)
Definition itemHandles (c : Component) : list ObjId :=
  map TrashItem.object (trashItems c)
  ++ match carryingItem c with
     | Some item => [TrashItem.object item]
     | None => []
     end.

Section Admissible.

Context {T : Three}.

(** The runtime hands out new objects: the clones an arrival brings are
    pairwise distinct and distinct from the objects of the items in play. *)
Fixpoint clonesAreNew (inputs : list Input) (c : Component) : Prop :=
  match inputs with
  | [] => True
  | i :: rest =>
      match i with
      | FromUser _ => True
      | FromLoader a => NoDup (itemHandles c ++ map TrashItem.object (arriving a))
      end /\ clonesAreNew rest (handle i c)
  end.

End Admissible.

(** The bin an arrival registers, if it is a bin model. *)
Definition arrivingBins (a : Arrival) : list Bin.t :=
  match a with
  | BinModel cfg model => [Bin.mk model (BinConfig.type cfg)]
  | _ => []
  end.

(** The fields of the game proper, which no loader writes. *)
Definition gameUntouched (c c' : Component) : Prop :=
  scene c' = scene c /\ camera c' = camera c /\
  moveForward c' = moveForward c /\ turn c' = turn c /\
  carryingItem c' = carryingItem c /\ recycledCount c' = recycledCount c /\
  score c' = score c /\ gameState c' = gameState c /\
  showWinMenu c' = showWinMenu c /\ showLoseMenu c' = showLoseMenu c /\
  hudMessage c' = hudMessage c /\ played c' = played c.

(** The bin configurations whose models arrive in a session, in order. *)
Fixpoint binsArrived (inputs : list Input) : list BinConfig.t :=
  match inputs with
  | [] => []
  | FromLoader (BinModel cfg _) :: rest => cfg :: binsArrived rest
  | _ :: rest => binsArrived rest
  end.

(** Whether the loaded file has the model a trash configuration names. *)
Definition hasModel (getObjectByName : string -> option ObjId) (cfg : TrashConfig.t) : bool :=
  match getObjectByName (TrashConfig.name cfg) with
  | Some _ => true
  | None => false
  end.

(** How many of the given items are of category [k]. *)
Definition countOfType (k : TrashType) (items : list TrashItem.t) : nat :=
  count_occ TrashType_eq_dec (map TrashItem.type items) k.

(** ** A concrete session *)

(** The component as constructed, around the demo heap. *)
Definition emptyGame : Component :=
  mkComponent demoHeap 0%nat demoCamera None false None 0 0 [] [] None
    (RecycledCount.mk 0 0 0) 0%Z playing false false "" [].

(** A trash file that has the banana and the coffee cup only. *)
Definition snackFile (name : string) : option ObjId :=
  if name =? "BANANA" then Some 50%nat
  else if name =? "CAFE" then Some 51%nat
  else None.

(** Clones and labels numbered by the model's name and the instance, boxes
    resting on the ground, and random numbers that put the instances a few
    units from the middle of the area. *)
Definition snackInstances (name : string) (i : nat) : Instance.t :=
  Instance.mk (100 + 10 * String.length name + i)%nat
    (500 + 10 * String.length name + i)%nat
    0 1 (0.5 + inject_Z (Z.of_nat (S i)) / 100) 0.5.

Definition blackBin : BinConfig.t :=
  BinConfig.mk "assets/black.glb" general (Vector3.mk 0 0 200).

Definition greenBin : BinConfig.t :=
  BinConfig.mk "assets/green.glb" organico (Vector3.mk (-150) 0 200).

(** The black bin, the player and the trash arrive, the green bin arrives
    late; the user picks a banana up, walks to the black bin and drops it
    there. *)
Definition demoSession : list Input :=
  [ FromLoader (BinModel blackBin 11%nat);
    FromLoader (PlayerModel 1%nat 1%nat);
    FromUser Interact;
    FromLoader (TrashModels snackFile snackInstances);
    FromUser Interact;
    FromUser (KeyDown "w");
    FromUser (Tick 1.5);
    FromLoader (BinModel greenBin 10%nat);
    FromUser (KeyUp "w");
    FromUser (KeyDown "e") ].

Definition anInstance : Instance.t := Instance.mk 100%nat 500%nat (-2) 4 0.25 0.75.


(** ** Scales up to rounding *)

(** [x] is [y] up to the relative error [eps]. *)
Definition within (eps x y : Q) : Prop := Qabs (x - y) <= eps * Qabs y.

Definition withinV (eps : Q) (v w : Vector3.t) : Prop :=
  within eps (Vector3.x v) (Vector3.x w) /\
  within eps (Vector3.y v) (Vector3.y w) /\
  within eps (Vector3.z v) (Vector3.z w).

(** No component of [v] is zero. *)
Definition nonzeroV (v : Vector3.t) : Prop :=
  ~ Vector3.x v == 0 /\ ~ Vector3.y v == 0 /\ ~ Vector3.z v == 0.

(** The arithmetic of the label of an item scaled by [s] is accurate to the
    relative error [u]: the reciprocal of [s], and its products by 20, by 8
    and by 25. *)
Definition labelArithmetic {T : Three} (u s : Q) : Prop :=
  let inv := divide 1 s in
  within u inv (1 / s) /\
  within u (times 20 inv) (20 * inv) /\
  within u (times 8 inv) (8 * inv) /\
  within u (times 25 inv) (25 * inv).

(** *** Binary64 arithmetic *)

(** The integer nearest to [n / d], the even one on a tie ([0 < d]). *)
Definition nearest_even (n d : Z) : Z :=
  let m := (n / d)%Z in
  let r := (n mod d)%Z in
  match (2 * r ?= d)%Z with
  | Lt => m
  | Gt => (m + 1)%Z
  | Eq => if Z.even m then m else (m + 1)%Z
  end.

(** [m * 2 ^ e] as a rational. *)
Definition scale2 (m e : Z) : Q :=
  if (0 <=? e)%Z then inject_Z (m * 2 ^ e) else m # Z.to_pos (2 ^ (- e)).

(** Rounding of a rational to the nearest number with a significand of 53
    bits, the even one on a tie: what IEEE 754 binary64 arithmetic returns
    for an exact result [q], as long as the result neither overflows nor is
    subnormal (the exponent is left unbounded). With [k] the difference of
    the binary logarithms of numerator and denominator, [q] lies between
    [2 ^ (k - 1)] and [2 ^ (k + 1)]; the exponent [e] is chosen such that
    [q / 2 ^ e] lies from [2 ^ 52] up to [2 ^ 53], and is then rounded to an
    integer. *)
Definition round64 (q : Q) : Q :=
  let n := Z.abs (Qnum q) in
  let d := Z.pos (Qden q) in
  if (n =? 0)%Z then 0 else
  let k := (Z.log2 n - Z.log2 d)%Z in
  let above := if (0 <=? k)%Z then (d * 2 ^ k <=? n)%Z else (d <=? n * 2 ^ (- k))%Z in
  let e := if above then (k - 52)%Z else (k - 53)%Z in
  let m := if (0 <=? e)%Z then nearest_even n (d * 2 ^ e)
           else nearest_even (n * 2 ^ (- e)) d in
  scale2 (Z.sgn (Qnum q) * m) e.

(** The unit roundoff of binary64 arithmetic, [2 ^ -53]. *)
Definition unitRoundoff : Q := 1 # 9007199254740992.

(** *** A rigged player in binary64 arithmetic *)

(** The world scale of an object none of whose ancestors is rotated: the
    product of the local scales from the root down to the object, each
    product rounded, along at most [fuel] links. *)
Fixpoint worldScaleOf (fuel : nat) (h : Heap) (o : ObjId) : Vector3.t :=
  match fuel, Object3D.parent (h o) with
  | S n, Some a =>
      let w := worldScaleOf n h a in
      let l := Object3D.scale (h o) in
      Vector3.mk (round64 (Vector3.x w * Vector3.x l))
                 (round64 (Vector3.y w * Vector3.y l))
                 (round64 (Vector3.z w * Vector3.z l))
  | _, _ => Object3D.scale (h o)
  end.

(** A scene whose objects are not rotated and are asked for their world
    position only when they hang under the untransformed root, where it is
    the local one. The world scale composes the local scales down the
    parent chain, a traversal visits an object and then those of the first
    eight handles that hang directly under it, and quotients and products
    are rounded to binary64 numbers. *)
Definition rigScene : Three := {|
  Math_sqrt := exact_sqrt;
  applyAxisAngle := fun v _ _ => v;
  getWorldPosition := fun h o => Object3D.position (h o);
  getWorldScale := worldScaleOf 8;
  traverse := fun h o =>
    o :: filter (fun x => match Object3D.parent (h x) with
                          | Some a => (a =? o)%nat
                          | None => false
                          end) (seq 0 8);
  controls_update := fun cam => cam;
  mixer_update := fun _ _ h => h;
  divide := fun a b => round64 (a / b);
  times := fun a b => round64 (a * b)
|}.

(** Handles: 0 the scene root, 1 the player (scaled by 30, as
    [loadPlayerModel] does), 2 its hand bone, scaled by 10 under the player,
    3 a bag of crisps lying ten units from the player, at the scale 0.1 of
    [trashConfigs] as a binary64 number. *)
Definition rigHeap : Heap := fun o =>
  match o with
  | 1%nat => object_at "hombre" origin 30
  | 2%nat => Object3D.mk "mixamorigRightHand" (Some 1%nat) origin origin (Vector3.mk 10 10 10)
  | 3%nat => object_at "BOLSA_DE_PAPAS" (Vector3.mk 10 0 0) (round64 0.1)
  | _ => Object3D.mk "" None origin origin unit_scale
  end.

Definition crisps : TrashItem.t := TrashItem.mk 3%nat general (round64 0.1) None.

(** The banana of [trashConfigs], its scale 0.003 as a binary64 number. *)
Definition bananaConfig64 : TrashConfig.t :=
  TrashConfig.mk "BANANA" organico 2%nat (round64 0.003) "Banana".

Definition rigGame : Component :=
  mkComponent rigHeap 0%nat demoCamera (Some 1%nat) true
    (Some (AnimationAction.mk true)) 0 0 [crisps] [] None
    (RecycledCount.mk 0 0 0) 0%Z playing false false "" [].

(** * Theorems *)

(** ** C1: the nearest-entity queries *)

Section ScanFacts.

Variable A : Type.
Variable dist : A -> Q.

Lemma scanned_nil (maxDistance : Q) : scanned dist [] maxDistance (None, maxDistance).
Proof.
  unfold scanned; simpl. split; [reflexivity | intros a []].
Qed.

Lemma scanned_snoc (l : list A) (maxDistance : Q) (acc : option A * Q) (a : A) :
  scanned dist l maxDistance acc ->
  scanned dist (l ++ [a]) maxDistance (scanStep dist acc a).
Proof.
  destruct acc as [nearest minDist]. unfold scanned, scanStep; simpl.
  destruct nearest as [n|]; intros H.
  - destruct H as [-> (before & after & -> & Hn & Hb & Ha)].
    destruct (Qlt_le_dec (dist a) (dist n)) as [Hlt | Hle]; simpl.
    + split; [reflexivity|].
      exists (before ++ n :: after), []. repeat split.
      * eapply Qlt_trans; eassumption.
      * intros x Hx. apply in_app_or in Hx. destruct Hx as [Hx | [<- | Hx]].
        -- eapply Qlt_trans; [exact Hlt | auto].
        -- exact Hlt.
        -- eapply Qlt_le_trans; [exact Hlt | auto].
      * intros x [].
    + split; [reflexivity|].
      exists before, (after ++ [a]). repeat split.
      * rewrite <- app_assoc. reflexivity.
      * exact Hn.
      * exact Hb.
      * intros x Hx. apply in_app_or in Hx. destruct Hx as [Hx | [<- | []]]; auto.
  - destruct H as [-> Hall].
    destruct (Qlt_le_dec (dist a) maxDistance) as [Hlt | Hle]; simpl.
    + split; [reflexivity|].
      exists l, []. repeat split.
      * exact Hlt.
      * intros x Hx. eapply Qlt_le_trans; [exact Hlt | auto].
      * intros x [].
    + split; [reflexivity|].
      intros x Hx. apply in_app_or in Hx. destruct Hx as [Hx | [<- | []]]; auto.
Qed.

Lemma scan_scanned (l : list A) (maxDistance : Q) :
  scanned dist l maxDistance (scan dist l maxDistance).
Proof.
  unfold scan. induction l as [|a l IH] using rev_ind.
  - apply scanned_nil.
  - rewrite fold_left_app. simpl. apply scanned_snoc. exact IH.
Qed.

(** The result of a scan, read off the invariant. *)
Lemma scan_result (l : list A) (maxDistance : Q) :
  match fst (scan dist l maxDistance) with
  | Some n =>
      exists before after,
        l = before ++ n :: after /\
        dist n < maxDistance /\
        (forall a, In a before -> dist n < dist a) /\
        (forall a, In a after -> dist n <= dist a)
  | None => forall a, In a l -> maxDistance <= dist a
  end.
Proof.
  pose proof (scan_scanned l maxDistance) as H. unfold scanned in H.
  destruct (fst (scan dist l maxDistance)); tauto.
Qed.

Lemma scan_none_iff (l : list A) (maxDistance : Q) :
  fst (scan dist l maxDistance) = None <-> forall a, In a l -> maxDistance <= dist a.
Proof.
  pose proof (scan_result l maxDistance) as H.
  destruct (fst (scan dist l maxDistance)) as [n|].
  - split; [discriminate|]. intros Hall.
    destruct H as (before & after & -> & Hn & _).
    exfalso. apply (Qlt_not_le _ _ Hn). apply Hall. apply in_elt.
  - tauto.
Qed.

Lemma scan_some_in (l : list A) (maxDistance : Q) (n : A) :
  fst (scan dist l maxDistance) = Some n -> In n l.
Proof.
  intros E. pose proof (scan_result l maxDistance) as H. rewrite E in H.
  destruct H as (before & after & -> & _). apply in_elt.
Qed.

End ScanFacts.

Section NearestFacts.

Context {T : Three}.

Lemma findNearestTrash_scan (c : Component) (playerPos : Vector3.t) (maxDistance : Q) :
  findNearestTrash c playerPos maxDistance
  = fst (scan (distanceOfTrash c playerPos) (trashItems c) maxDistance).
Proof. reflexivity. Qed.

Lemma findNearestBin_scan (c : Component) (playerPos : Vector3.t) (maxDistance : Q) :
  findNearestBin c playerPos maxDistance
  = fst (scan (distanceOfBin c playerPos) (bins c) maxDistance).
Proof. reflexivity. Qed.

Lemma findNearestTrash_in (c : Component) (playerPos : Vector3.t) (maxDistance : Q) n :
  findNearestTrash c playerPos maxDistance = Some n -> In n (trashItems c).
Proof. rewrite findNearestTrash_scan. apply scan_some_in. Qed.

End NearestFacts.

Section NearestTheorems.

Context {T : Three}.


End NearestTheorems.


(** ** The effect of one event *)

Ltac break_match :=
  match goal with
  | |- context [match ?x with _ => _ end] =>
      match x with
      | context [match _ with _ => _ end] => fail 1
      | _ => destruct x eqn:?
      end
  end.

Ltac fields :=
  cbn [heap scene camera player playerMixer walkAction moveForward turn trashItems
       bins carryingItem recycledCount score gameState showWinMenu showLoseMenu
       hudMessage played set_heap set_camera set_walkAction set_moveForward set_turn
       set_trashItems set_carryingItem set_recycledCount set_score set_gameState
       set_showWinMenu set_showLoseMenu set_hudMessage playSound fst snd] in *.

Lemma set_camera_same (c : Component) : set_camera c (camera c) = c.
Proof. destruct c; reflexivity. Qed.

Lemma removeItem_incl (item : TrashItem.t) (l : list TrashItem.t) :
  incl (removeItem item l) l.
Proof. intros t Ht. apply filter_In in Ht. tauto. Qed.

Lemma removeItem_absent (item : TrashItem.t) (l : list TrashItem.t) :
  ~ In item (removeItem item l).
Proof.
  intros Ht. apply filter_In in Ht. destruct Ht as [_ Ht].
  destruct (TrashItem.eq_dec item item); [discriminate | congruence].
Qed.

Lemma removeItem_NoDup (item : TrashItem.t) (l : list TrashItem.t) :
  NoDup l -> NoDup (removeItem item l).
Proof. apply NoDup_filter. Qed.

Lemma incr_get (k k' : TrashType) (r : RecycledCount.t) :
  RecycledCount.get (RecycledCount.incr k r) k'
  = if TrashType_eq_dec k k' then (RecycledCount.get r k' + 1)%Z else RecycledCount.get r k'.
Proof. destruct k, k'; reflexivity. Qed.

Lemma verdict_cases (s : Z) :
  ((5 <= s)%Z /\ verdict s = win) \/
  ((s <= -2)%Z /\ verdict s = lose) \/
  ((-2 < s < 5)%Z /\ verdict s = playing).
Proof.
  unfold verdict.
  destruct (s >=? 5)%Z eqn:E1; [left; split; [lia | reflexivity]|].
  destruct (s <=? -2)%Z eqn:E2;
    [right; left | right; right]; (split; [lia | reflexivity]).
Qed.

Section Effects.

Context {T : Three}.

(** *** checkGameState *)

Lemma checkGameState_frame (c : Component) :
  trashItems (checkGameState c) = trashItems c /\
  carryingItem (checkGameState c) = carryingItem c /\
  score (checkGameState c) = score c /\
  recycledCount (checkGameState c) = recycledCount c /\
  heap (checkGameState c) = heap c /\
  player (checkGameState c) = player c /\
  bins (checkGameState c) = bins c /\
  played (checkGameState c) = played c.
Proof.
  unfold checkGameState.
  repeat (break_match; fields); repeat split; reflexivity || congruence.
Qed.

Lemma checkGameState_verdict (c : Component) :
  gameState c = playing -> gameState (checkGameState c) = verdict (score c).
Proof.
  intros H. unfold checkGameState, verdict. rewrite H.
  repeat (break_match; fields); congruence.
Qed.

(** Leaving the playing state stops the character: both intents are zero and
    the walk action, when there is one, is paused. *)
Lemma checkGameState_frozen (c : Component) :
  gameState c = playing ->
  gameState (checkGameState c) <> playing ->
  moveForward (checkGameState c) = 0 /\
  turn (checkGameState c) = 0 /\
  walkAction (checkGameState c) = pausedWalk (walkAction c).
Proof.
  intros H. unfold checkGameState. rewrite H.
  repeat (break_match; fields); intros N; try congruence;
    repeat split; try reflexivity; try congruence;
    fields; match goal with E : walkAction _ = _ |- _ => rewrite E; reflexivity end.
Qed.

(** *** tryInteract *)

Lemma deposit_inv (c : Component) (item : TrashItem.t) (bin : Bin.t) :
  deposit c = Some (item, bin) ->
  gameState c = playing /\
  carryingItem c = Some item /\
  exists p, player c = Some p /\
            findNearestBin c (getWorldPosition (heap c) p) binDistance = Some bin.
Proof.
  unfold deposit. intros H.
  destruct (player c) as [p|]; [|discriminate].
  destruct (gameState c); try discriminate.
  destruct (carryingItem c) as [i|]; [|discriminate].
  destruct (findNearestBin c (getWorldPosition (heap c) p) binDistance) as [b|] eqn:E;
    [|discriminate].
  inversion H; subst. repeat split. exists p. split; [reflexivity | exact E].
Qed.

Lemma deposit_intro (c : Component) (p : ObjId) (item : TrashItem.t) (bin : Bin.t) :
  player c = Some p -> gameState c = playing -> carryingItem c = Some item ->
  findNearestBin c (getWorldPosition (heap c) p) binDistance = Some bin ->
  deposit c = Some (item, bin).
Proof.
  intros Hp Hg Hc Hb. unfold deposit. rewrite Hp, Hg, Hc, Hb. reflexivity.
Qed.

Lemma tryInteract_idle (c : Component) :
  player c = None \/ gameState c <> playing -> tryInteract c = c.
Proof.
  unfold tryInteract. intros [H | H].
  - rewrite H. reflexivity.
  - destruct (player c); [|reflexivity]. destruct (gameState c); congruence.
Qed.

(** What [tryInteract] does to the floor set, the carry slot, the score, the
    counters and the game state, by whether it makes a deposit. *)
Lemma tryInteract_effect (c : Component) :
  match deposit c with
  | Some d =>
      trashItems (tryInteract c) = trashItems c /\
      carryingItem (tryInteract c) = None /\
      score (tryInteract c) = (if correct d then score c + 1 else score c - 1)%Z /\
      recycledCount (tryInteract c)
      = (if correct d then RecycledCount.incr (TrashItem.type (fst d)) (recycledCount c)
         else recycledCount c) /\
      gameState (tryInteract c) = verdict (score (tryInteract c)) /\
      (gameState (tryInteract c) <> playing ->
       moveForward (tryInteract c) = 0 /\ turn (tryInteract c) = 0 /\
       walkAction (tryInteract c) = pausedWalk (walkAction c))
  | None =>
      score (tryInteract c) = score c /\
      recycledCount (tryInteract c) = recycledCount c /\
      gameState (tryInteract c) = gameState c /\
      moveForward (tryInteract c) = moveForward c /\
      turn (tryInteract c) = turn c /\
      walkAction (tryInteract c) = walkAction c /\
      ((trashItems (tryInteract c) = trashItems c /\
        carryingItem (tryInteract c) = carryingItem c)
       \/ exists item, carryingItem c = None /\ In item (trashItems c) /\
            trashItems (tryInteract c) = removeItem item (trashItems c) /\
            carryingItem (tryInteract c) = Some item)
  end.
Proof.
  unfold deposit, tryInteract.
  destruct (player c) as [p|] eqn:Hp; [|tauto].
  destruct (gameState c) eqn:Hg; try tauto.
  destruct (carryingItem c) as [item|] eqn:Hc.
  - destruct (findNearestBin c (getWorldPosition (heap c) p) binDistance) as [bin|] eqn:Hb.
    + unfold correct; cbn [fst snd].
      destruct (TrashType_eq_dec (Bin.type bin) (TrashItem.type item)) as [E|E];
        match goal with |- context [checkGameState ?x] =>
          assert (G : gameState x = playing) by exact Hg;
          pose proof (checkGameState_frame x) as F;
          pose proof (checkGameState_verdict x G) as V;
          pose proof (checkGameState_frozen x G) as Z;
          set (y := checkGameState x) in *
        end;
        fields; destruct F as (F1 & F2 & F3 & F4 & _);
        (split; [exact F1|]); (split; [exact F2|]); (split; [exact F3|]);
        (split; [rewrite F4, ?E; reflexivity|]);
        (split; [rewrite F3; exact V | exact Z]).
    + fields. rewrite Hc. tauto.
  - destruct (findNearestTrash c (getWorldPosition (heap c) p) pickupDistance)
      as [item|] eqn:Hn.
    + fields. repeat split; try assumption. right. exists item. repeat split.
      eapply findNearestTrash_in; eassumption.
    + fields. rewrite Hc. tauto.
Qed.

(** *** The handlers around it *)

Lemma step_interacts (e : Event) (c : Component) :
  interacts e c = true -> step e c = tryInteract c.
Proof.
  destruct e as [key | key | | delta]; simpl; try discriminate; [|reflexivity].
  unfold onKeyDown. destruct (gameState c); try discriminate.
  intros E. apply String.eqb_eq in E. rewrite E. reflexivity.
Qed.

(** An event that does not reach [tryInteract] leaves the registry, the carry
    slot, the score, the counters, the game state and the HUD alone. *)
Lemma step_quiet (e : Event) (c : Component) :
  interacts e c = false ->
  trashItems (step e c) = trashItems c /\
  carryingItem (step e c) = carryingItem c /\
  score (step e c) = score c /\
  recycledCount (step e c) = recycledCount c /\
  gameState (step e c) = gameState c /\
  bins (step e c) = bins c /\
  player (step e c) = player c /\
  hudMessage (step e c) = hudMessage c /\
  played (step e c) = played c.
Proof.
  destruct e as [key | key | | delta]; simpl; try discriminate.
  - unfold onKeyDown. destruct (gameState c) eqn:Hg; try tauto.
    intros E. rewrite E.
    repeat (break_match; fields); repeat split; congruence.
  - intros _. unfold onKeyUp.
    repeat (break_match; fields); repeat split; congruence.
  - intros _. unfold animate.
    repeat (break_match; fields); repeat split; congruence.
Qed.

(** Outside the playing state a frame only updates the orbit controls. *)
Lemma animate_terminal (delta : Q) (c : Component) :
  gameState c <> playing -> animate delta c = set_camera c (controls_update (camera c)).
Proof.
  intros H. unfold animate.
  destruct (gameState c) eqn:G; [congruence | |];
    destruct (playerMixer c) eqn:M, (player c) eqn:P; fields;
    rewrite ?G, ?M, ?P; fields; rewrite ?G, ?P; reflexivity.
Qed.

(** Outside the playing state an event can only let the orbit controls move
    the camera. *)
Lemma step_terminal (e : Event) (c : Component) :
  gameState c <> playing -> step e c = set_camera c (camera (step e c)).
Proof.
  intros H. destruct e as [key | key | | delta]; simpl.
  - unfold onKeyDown. destruct (gameState c); try congruence;
      symmetry; apply set_camera_same.
  - unfold onKeyUp. destruct (gameState c); try congruence;
      symmetry; apply set_camera_same.
  - rewrite tryInteract_idle by tauto. symmetry; apply set_camera_same.
  - rewrite (animate_terminal delta c H). reflexivity.
Qed.

Lemma run_cons (e : Event) (es : list Event) (c : Component) :
  run (e :: es) c = run es (step e c).
Proof. reflexivity. Qed.

Lemma run_terminal (es : list Event) (c : Component) :
  gameState c <> playing -> run es c = set_camera c (camera (run es c)).
Proof.
  revert c. induction es as [|e es IH]; intros c H.
  - symmetry; apply set_camera_same.
  - rewrite run_cons.
    pose proof (step_terminal e c H) as S.
    assert (H' : gameState (step e c) <> playing) by (rewrite S; exact H).
    rewrite (IH _ H'). rewrite S at 1. reflexivity.
Qed.

(** What one event does, by whether it makes a deposit. *)
Lemma step_effect (e : Event) (c : Component) :
  match depositBy e c with
  | Some d =>
      deposit c = Some d /\
      trashItems (step e c) = trashItems c /\
      carryingItem (step e c) = None /\
      score (step e c) = (if correct d then score c + 1 else score c - 1)%Z /\
      recycledCount (step e c)
      = (if correct d then RecycledCount.incr (TrashItem.type (fst d)) (recycledCount c)
         else recycledCount c) /\
      gameState (step e c) = verdict (score (step e c)) /\
      (gameState (step e c) <> playing ->
       moveForward (step e c) = 0 /\ turn (step e c) = 0 /\
       walkAction (step e c) = pausedWalk (walkAction c))
  | None =>
      score (step e c) = score c /\
      recycledCount (step e c) = recycledCount c /\
      gameState (step e c) = gameState c /\
      ((trashItems (step e c) = trashItems c /\
        carryingItem (step e c) = carryingItem c)
       \/ exists item, carryingItem c = None /\ In item (trashItems c) /\
            trashItems (step e c) = removeItem item (trashItems c) /\
            carryingItem (step e c) = Some item)
  end.
Proof.
  unfold depositBy. destruct (interacts e c) eqn:I.
  - rewrite (step_interacts e c I).
    pose proof (tryInteract_effect c) as H.
    destruct (deposit c) as [d|]; tauto.
  - pose proof (step_quiet e c I). tauto.
Qed.

End Effects.

(** ** Invariants of runs *)

Section Runs.

Context {T : Three}.

Lemma depositBy_playing (e : Event) (c : Component) (d : TrashItem.t * Bin.t) :
  depositBy e c = Some d -> deposit c = Some d /\ gameState c = playing.
Proof.
  unfold depositBy. destruct (interacts e c); [|discriminate].
  intros H. split; [exact H|]. destruct d as [item bin].
  apply deposit_inv in H. tauto.
Qed.

(** No event puts anything on the floor. *)
Lemma step_floor_shrinks (e : Event) (c : Component) :
  incl (trashItems (step e c)) (trashItems c).
Proof.
  pose proof (step_effect e c) as H.
  destruct (depositBy e c) as [d|].
  - destruct H as (_ & -> & _). apply incl_refl.
  - destruct H as (_ & _ & _ & [[-> _] | (item & _ & _ & -> & _)]).
    + apply incl_refl.
    + apply removeItem_incl.
Qed.

Lemma run_floor_shrinks (es : list Event) (c : Component) :
  incl (trashItems (run es c)) (trashItems c).
Proof.
  revert c. induction es as [|e es IH]; intros c.
  - apply incl_refl.
  - rewrite run_cons. eapply incl_tran; [apply IH | apply step_floor_shrinks].
Qed.

Lemma step_registry (spawned : list TrashItem.t) (e : Event) (c : Component) :
  registryInvariant spawned c -> registryInvariant spawned (step e c).
Proof.
  unfold registryInvariant. intros (Hnd & Hin & Hc).
  pose proof (step_effect e c) as H.
  destruct (depositBy e c) as [d|].
  - destruct H as (_ & -> & -> & _). tauto.
  - destruct H as (_ & _ & _ & [[-> ->] | (item & Hnone & Hitem & -> & ->)]).
    + tauto.
    + split; [apply removeItem_NoDup; exact Hnd|].
      split; [eapply incl_tran; [apply removeItem_incl | exact Hin]|].
      split; [apply Hin; exact Hitem | apply removeItem_absent].
Qed.

Lemma run_registry (spawned : list TrashItem.t) (es : list Event) (c : Component) :
  registryInvariant spawned c -> registryInvariant spawned (run es c).
Proof.
  revert c. induction es as [|e es IH]; intros c H.
  - exact H.
  - rewrite run_cons. apply IH. apply step_registry. exact H.
Qed.

Lemma step_bounds (e : Event) (c : Component) :
  scoreInBounds c -> scoreInBounds (step e c).
Proof.
  unfold scoreInBounds. intros B.
  pose proof (step_effect e c) as H.
  destruct (depositBy e c) as [d|] eqn:D.
  - apply depositBy_playing in D. destruct D as [_ G]. rewrite G in B.
    destruct H as (_ & _ & _ & Hs & _ & -> & _).
    destruct (verdict_cases (score (step e c))) as [[V ->] | [[V ->] | [V ->]]];
      destruct (correct d); lia.
  - destruct H as (-> & _ & -> & _). exact B.
Qed.

Lemma run_bounds (es : list Event) (c : Component) :
  scoreInBounds c -> scoreInBounds (run es c).
Proof.
  revert c. induction es as [|e es IH]; intros c H.
  - exact H.
  - rewrite run_cons. apply IH. apply step_bounds. exact H.
Qed.

(** The score is the starting score plus the tally of the deposits made. *)
Lemma run_score (es : list Event) (c : Component) :
  score (run es c) = (score c + tally (deposits es c))%Z.
Proof.
  revert c. induction es as [|e es IH]; intros c.
  - simpl. lia.
  - rewrite run_cons, IH. cbn [deposits].
    pose proof (step_effect e c) as H.
    destruct (depositBy e c) as [d|].
    + destruct H as (_ & _ & _ & -> & _). destruct (correct d); cbn [tally]; lia.
    + destruct H as (-> & _). reflexivity.
Qed.

Lemma bounds_state (c : Component) :
  scoreInBounds c ->
  (score c = 5%Z -> gameState c = win) /\ (score c = (-2)%Z -> gameState c = lose).
Proof.
  unfold scoreInBounds. destruct (gameState c); split; intros; try reflexivity; lia.
Qed.

(** C2. From a state in which nothing is carried and the floor set has no
    duplicates (the items the loaders spawned), every sequence of interact,
    key and frame events leads to a state in which the floor set still has no
    duplicates and holds spawned items only, and the carry slot is either
    empty or holds a spawned item that is not in the floor set. *)
Theorem carried_item_is_off_the_floor (c0 : Component) (es : list Event) :
  NoDup (trashItems c0) ->
  carryingItem c0 = None ->
  NoDup (trashItems (run es c0)) /\
  incl (trashItems (run es c0)) (trashItems c0) /\
  match carryingItem (run es c0) with
  | None => True
  | Some item => In item (trashItems c0) /\ ~ In item (trashItems (run es c0))
  end.
Proof.
  intros Hnd Hc.
  apply (run_registry (trashItems c0) es c0).
  unfold registryInvariant. rewrite Hc.
  split; [exact Hnd | split; [apply incl_refl | exact I]].
Qed.

(** C9. From a state with score 0 in which the game is being played, every
    sequence of interact, key and frame events leads to a state whose score
    lies between -2 and 5; the score is strictly inside these bounds while
    the game is being played, is 5 once it is won and -2 once it is lost. *)
Theorem score_stays_within_thresholds (c0 : Component) (es : list Event) :
  score c0 = 0%Z ->
  gameState c0 = playing ->
  (-2 <= score (run es c0) <= 5)%Z /\
  match gameState (run es c0) with
  | playing => (-2 < score (run es c0) < 5)%Z
  | win => score (run es c0) = 5%Z
  | lose => score (run es c0) = (-2)%Z
  end.
Proof.
  intros Hs Hg.
  assert (B : scoreInBounds (run es c0)).
  { apply run_bounds. unfold scoreInBounds. rewrite Hg, Hs. lia. }
  split; [|exact B].
  unfold scoreInBounds in B. destruct (gameState (run es c0)); lia.
Qed.

(** C3. Any event that changes the score happens while playing and leaves
    the game state at the verdict on the new score: won exactly when the
    score is at least 5, otherwise lost exactly when it is at most -2,
    otherwise still playing; when that state is won or lost both motion
    intents are 0 and the walk action, if there is one, is paused. The same
    holds of [checkGameState] called in the playing state. From score 0 in
    the playing state, a run whose deposits are five correct ones ends won
    with score 5, and a run whose deposits are two incorrect ones ends lost
    with score -2. *)
Theorem game_progress_evaluation :
  (forall s : Z,
      (verdict s = win <-> (5 <= s)%Z) /\
      (verdict s = lose <-> (s <= -2)%Z) /\
      (verdict s = playing <-> (-2 < s < 5)%Z)) /\
  (forall c : Component,
      gameState c = playing ->
      score (checkGameState c) = score c /\
      gameState (checkGameState c) = verdict (score c) /\
      (gameState (checkGameState c) <> playing ->
       moveForward (checkGameState c) = 0 /\ turn (checkGameState c) = 0 /\
       walkAction (checkGameState c) = pausedWalk (walkAction c))) /\
  (forall (e : Event) (c : Component),
      score (step e c) <> score c ->
      gameState c = playing /\
      gameState (step e c) = verdict (score (step e c)) /\
      (gameState (step e c) <> playing ->
       moveForward (step e c) = 0 /\ turn (step e c) = 0 /\
       walkAction (step e c) = pausedWalk (walkAction c))) /\
  (forall (c0 : Component) (es : list Event),
      score c0 = 0%Z ->
      gameState c0 = playing ->
      (deposits es c0 = [true; true; true; true; true] ->
       gameState (run es c0) = win /\ score (run es c0) = 5%Z) /\
      (deposits es c0 = [false; false] ->
       gameState (run es c0) = lose /\ score (run es c0) = (-2)%Z)).
Proof.
  split; [|split; [|split]].
  - intros s.
    destruct (verdict_cases s) as [[V E] | [[V E] | [V E]]]; rewrite E;
      repeat split; intros; try reflexivity; try discriminate; lia.
  - intros c G. split; [apply checkGameState_frame|].
    split; [apply checkGameState_verdict; exact G|].
    apply checkGameState_frozen; exact G.
  - intros e c N.
    pose proof (step_effect e c) as H.
    destruct (depositBy e c) as [d|] eqn:D.
    + apply depositBy_playing in D. tauto.
    + destruct H as (H & _). congruence.
  - intros c0 es Hs Hg.
    assert (B : scoreInBounds (run es c0)).
    { apply run_bounds. unfold scoreInBounds. rewrite Hg, Hs. lia. }
    pose proof (run_score es c0) as S. rewrite Hs in S.
    apply bounds_state in B.
    split; intros D; rewrite D in S; cbn in S; split; try exact S; apply B; exact S.
Qed.

(** C4. A deposit (the player is loaded, the game is being played, an item is
    carried and the bin query finds a bin) raises the score by exactly 1 and
    the count of the item's category by 1 when the bin's category is the
    item's, and lowers the score by exactly 1, leaving every count alone,
    when it is not. An event that makes no deposit (a pickup, an interact
    that finds nothing, a key event, a frame) changes neither the score nor
    any count. So a category's count only ever changes by a correct deposit
    of that category, which adds 1 to it. *)
Theorem score_changes_only_on_deposit :
  (forall (c : Component) (p : ObjId) (item : TrashItem.t) (bin : Bin.t),
      player c = Some p ->
      gameState c = playing ->
      carryingItem c = Some item ->
      findNearestBin c (getWorldPosition (heap c) p) binDistance = Some bin ->
      depositBy Interact c = Some (item, bin) /\
      (Bin.type bin = TrashItem.type item ->
       score (tryInteract c) = (score c + 1)%Z /\
       recycledCount (tryInteract c)
       = RecycledCount.incr (TrashItem.type item) (recycledCount c)) /\
      (Bin.type bin <> TrashItem.type item ->
       score (tryInteract c) = (score c - 1)%Z /\
       recycledCount (tryInteract c) = recycledCount c)) /\
  (forall (e : Event) (c : Component),
      match depositBy e c with
      | Some (item, bin) =>
          if TrashType_eq_dec (Bin.type bin) (TrashItem.type item)
          then score (step e c) = (score c + 1)%Z /\
               recycledCount (step e c)
               = RecycledCount.incr (TrashItem.type item) (recycledCount c)
          else score (step e c) = (score c - 1)%Z /\
               recycledCount (step e c) = recycledCount c
      | None =>
          score (step e c) = score c /\ recycledCount (step e c) = recycledCount c
      end) /\
  (forall (e : Event) (c : Component) (k : TrashType),
      RecycledCount.get (recycledCount (step e c)) k <> RecycledCount.get (recycledCount c) k ->
      exists item bin,
        depositBy e c = Some (item, bin) /\
        Bin.type bin = TrashItem.type item /\
        TrashItem.type item = k /\
        RecycledCount.get (recycledCount (step e c)) k
        = (RecycledCount.get (recycledCount c) k + 1)%Z).
Proof.
  split; [|split].
  - intros c p item bin Hp Hg Hc Hb.
    pose proof (deposit_intro c p item bin Hp Hg Hc Hb) as D.
    pose proof (tryInteract_effect c) as H. rewrite D in H.
    unfold correct in H; cbn [fst snd] in H.
    split; [exact D|].
    destruct (TrashType_eq_dec (Bin.type bin) (TrashItem.type item)); split; intros;
      tauto.
  - intros e c. pose proof (step_effect e c) as H.
    destruct (depositBy e c) as [[item bin]|].
    + unfold correct in H; cbn [fst snd] in H.
      destruct (TrashType_eq_dec (Bin.type bin) (TrashItem.type item)); tauto.
    + tauto.
  - intros e c k N. pose proof (step_effect e c) as H.
    destruct (depositBy e c) as [[item bin]|].
    + unfold correct in H; cbn [fst snd] in H.
      destruct H as (_ & _ & _ & _ & Hr & _). rewrite Hr in N |- *.
      destruct (TrashType_eq_dec (Bin.type bin) (TrashItem.type item)) as [E|E];
        [|congruence].
      exists item, bin. rewrite incr_get in N |- *.
      destruct (TrashType_eq_dec (TrashItem.type item) k); [tauto | congruence].
    + destruct H as (_ & Hr & _). rewrite Hr in N. congruence.
Qed.

(** C5. Once the game is won or lost, no sequence of interact, key-down,
    key-up and frame events changes the game state, the score, the carry
    slot, the floor set, the counters, the motion intents or any object of
    the scene; in particular the player's position and world position stay
    as they are. Only the camera can still move, through the orbit controls. *)
Theorem terminal_state_is_absorbing (c : Component) (es : list Event) :
  gameState c <> playing ->
  run es c = set_camera c (camera (run es c)) /\
  gameState (run es c) = gameState c /\
  score (run es c) = score c /\
  carryingItem (run es c) = carryingItem c /\
  trashItems (run es c) = trashItems c /\
  recycledCount (run es c) = recycledCount c /\
  moveForward (run es c) = moveForward c /\
  turn (run es c) = turn c /\
  heap (run es c) = heap c /\
  forall p, player c = Some p ->
    player (run es c) = Some p /\
    Object3D.position (heap (run es c) p) = Object3D.position (heap c p) /\
    getWorldPosition (heap (run es c)) p = getWorldPosition (heap c) p.
Proof.
  intros H. pose proof (run_terminal es c H) as R.
  split; [exact R|].
  rewrite R. fields. repeat split; assumption.
Qed.

End Runs.

(** ** Pickups and deposits in detail *)

Lemma update_same (o : ObjId) (f : Object3D.t -> Object3D.t) (h : Heap) :
  update o f h o = f (h o).
Proof. unfold update. destruct (Nat.eq_dec o o); [reflexivity | congruence]. Qed.

Lemma removeFromParent_detached (o : ObjId) (h : Heap) :
  Object3D.parent (Object3D_removeFromParent o h o) = None.
Proof.
  unfold Object3D_removeFromParent.
  destruct (Object3D.parent (h o)) eqn:E; [|exact E].
  rewrite update_same. reflexivity.
Qed.

Lemma add_keeps_scale (anchor o : ObjId) (h : Heap) :
  Object3D.scale (Object3D_add anchor o h o) = Object3D.scale (h o).
Proof.
  unfold Object3D_add. destruct (Nat.eq_dec o anchor); [reflexivity|].
  rewrite update_same. reflexivity.
Qed.

Lemma add_links (anchor o : ObjId) (h : Heap) :
  o <> anchor -> Object3D.parent (Object3D_add anchor o h o) = Some anchor.
Proof.
  intros N. unfold Object3D_add. destruct (Nat.eq_dec o anchor); [congruence|].
  rewrite update_same. reflexivity.
Qed.

(** ** Relative errors *)

Lemma Qmult_le_l_weak (x y z : Q) : 0 <= z -> x <= y -> z * x <= z * y.
Proof.
  intros Hz H. rewrite (Qmult_comm z x), (Qmult_comm z y).
  apply Qmult_le_compat_r; assumption.
Qed.

Lemma within_exact (x y : Q) : within 0 x y <-> x == y.
Proof.
  unfold within. rewrite Qmult_0_l, Qabs_Qle_condition. split; intros H; lra.
Qed.

(** A quotient accurate to [u], multiplied back by the divisor with an
    accuracy of [e], gives the dividend back up to [u + e + u * e]. *)
Lemma within_compensated (u e s h l w : Q) :
  ~ h == 0 -> 0 <= e ->
  within u l (s / h) -> within e w (h * l) ->
  within (u + e + u * e) w s.
Proof.
  unfold within. intros Hh He A B.
  set (q := s / h) in *.
  assert (Hq : h * q == s) by (unfold q; field; exact Hh).
  assert (B1 : Qabs (h * l - s) <= u * Qabs s).
  { setoid_replace (h * l - s) with (h * (l - q)) by (rewrite <- Hq; ring).
    rewrite <- Hq, !Qabs_Qmult.
    setoid_replace (u * (Qabs h * Qabs q)) with (Qabs h * (u * Qabs q)) by ring.
    apply Qmult_le_l_weak; [apply Qabs_nonneg | exact A]. }
  assert (C : Qabs (h * l) <= Qabs s + u * Qabs s).
  { setoid_replace (h * l) with (s + (h * l - s)) at 1 by ring.
    eapply Qle_trans; [apply Qabs_triangle|]. lra. }
  assert (D : e * Qabs (h * l) <= e * (Qabs s + u * Qabs s)).
  { apply Qmult_le_l_weak; assumption. }
  setoid_replace (w - s) with ((w - h * l) + (h * l - s)) by ring.
  eapply Qle_trans; [apply Qabs_triangle|].
  setoid_replace ((u + e + u * e) * Qabs s)
    with (e * (Qabs s + u * Qabs s) + u * Qabs s) by ring.
  lra.
Qed.

Lemma exactly_compensated (s h l w : Q) :
  ~ h == 0 -> l == s / h -> w == h * l -> w == s.
Proof.
  intros Hh A B. rewrite B, A. field. exact Hh.
Qed.

(** A reciprocal accurate to [u], multiplied by [k] with an accuracy of [u]
    and scaled back by [s], gives [k] up to [u + u + u * u]. *)
Lemma within_scaled_back (u k s inv m : Q) :
  ~ s == 0 -> 0 <= u ->
  within u inv (1 / s) -> within u m (k * inv) ->
  within (u + u + u * u) (s * m) k.
Proof.
  unfold within. intros Hs Hu A B.
  assert (Hq : s * (1 / s) == 1) by (field; exact Hs).
  assert (A1 : Qabs (s * inv - 1) <= u).
  { setoid_replace (s * inv - 1) with (s * (inv - 1 / s)) by (rewrite <- Hq at 1; ring).
    rewrite Qabs_Qmult.
    setoid_replace u with (Qabs s * (u * Qabs (1 / s))).
    - apply Qmult_le_l_weak; [apply Qabs_nonneg | exact A].
    - setoid_replace (Qabs s * (u * Qabs (1 / s))) with (u * (Qabs s * Qabs (1 / s))) by ring.
      rewrite <- Qabs_Qmult, Hq. change (Qabs 1) with 1. ring. }
  assert (C : Qabs (s * inv) <= 1 + u).
  { setoid_replace (s * inv) with (1 + (s * inv - 1)) at 1 by ring.
    eapply Qle_trans; [apply Qabs_triangle|]. change (Qabs 1) with 1. lra. }
  assert (B1 : Qabs (s * m - k * (s * inv)) <= u * Qabs k * (1 + u)).
  { setoid_replace (s * m - k * (s * inv)) with (s * (m - k * inv)) by ring.
    rewrite Qabs_Qmult.
    eapply Qle_trans.
    - apply Qmult_le_l_weak; [apply Qabs_nonneg | exact B].
    - rewrite Qabs_Qmult.
      setoid_replace (Qabs s * (u * (Qabs k * Qabs inv)))
        with ((u * Qabs k) * (Qabs s * Qabs inv)) by ring.
      rewrite <- (Qabs_Qmult s inv).
      apply Qmult_le_l_weak; [|exact C].
      apply Qmult_le_0_compat; [exact Hu | apply Qabs_nonneg]. }
  assert (B2 : Qabs (k * (s * inv) - k) <= Qabs k * u).
  { setoid_replace (k * (s * inv) - k) with (k * (s * inv - 1)) by ring.
    rewrite Qabs_Qmult. apply Qmult_le_l_weak; [apply Qabs_nonneg | exact A1]. }
  setoid_replace (s * m - k) with ((s * m - k * (s * inv)) + (k * (s * inv) - k)) by ring.
  eapply Qle_trans; [apply Qabs_triangle|].
  setoid_replace ((u + u + u * u) * Qabs k) with (u * Qabs k * (1 + u) + Qabs k * u) by ring.
  lra.
Qed.

(** *** Binary64 rounding *)

(** The nearest integer is within a half. *)
Lemma nearest_even_close (n d : Z) :
  (0 < d)%Z -> (2 * Z.abs (nearest_even n d * d - n) <= d)%Z.
Proof.
  intros Hd. unfold nearest_even.
  pose proof (Z.div_mod n d ltac:(lia)) as E.
  pose proof (Z.mod_pos_bound n d Hd) as B.
  set (m := (n / d)%Z) in *. set (r := (n mod d)%Z) in *.
  clearbody m r.
  assert (E0 : (m * d - n = - r)%Z) by lia.
  assert (E1 : ((m + 1) * d - n = d - r)%Z) by lia.
  destruct (Z.compare_spec (2 * r) d) as [C | C | C].
  - destruct (Z.even m); rewrite ?E0, ?E1; lia.
  - rewrite E0. lia.
  - rewrite E1. lia.
Qed.

(** The exponent [round64] chooses leaves at least 52 bits before the point:
    the scaled value is at least [2 ^ 52]. *)
Lemma round64_scaled (n d : Z) :
  (0 < n)%Z -> (0 < d)%Z ->
  let k := (Z.log2 n - Z.log2 d)%Z in
  let above := if (0 <=? k)%Z then (d * 2 ^ k <=? n)%Z else (d <=? n * 2 ^ (- k))%Z in
  let e := if above then (k - 52)%Z else (k - 53)%Z in
  if (0 <=? e)%Z then (2 ^ 52 * (d * 2 ^ e) <= n)%Z
  else (2 ^ 52 * d <= n * 2 ^ (- e))%Z.
Proof.
  intros Hn Hd k above e.
  destruct (Z.log2_spec n Hn) as [Na Nb]. destruct (Z.log2_spec d Hd) as [Da Db].
  pose proof (Z.log2_nonneg n) as An. pose proof (Z.log2_nonneg d) as Ad.
  set (a := Z.log2 n) in *. set (b := Z.log2 d) in *.
  replace (Z.succ a) with (a + 1)%Z in * by lia.
  replace (Z.succ b) with (b + 1)%Z in * by lia.
  subst e above. 
  destruct (0 <=? k)%Z eqn:K.
  - apply Z.leb_le in K.
    destruct (d * 2 ^ k <=? n)%Z eqn:Ab.
    + apply Z.leb_le in Ab.
      destruct (0 <=? k - 52)%Z eqn:E.
      * apply Z.leb_le in E.
        replace (2 ^ 52 * (d * 2 ^ (k - 52)))%Z with (d * (2 ^ 52 * 2 ^ (k - 52)))%Z by ring.
        rewrite <- Z.pow_add_r by lia. replace (52 + (k - 52))%Z with k by lia. exact Ab.
      * apply Z.leb_gt in E.
        assert (P : (2 ^ k * 2 ^ (- (k - 52)) = 2 ^ 52)%Z).
        { rewrite <- Z.pow_add_r by lia. f_equal. lia. }
        assert (Q0 : (0 < 2 ^ (- (k - 52)))%Z) by (apply Z.pow_pos_nonneg; lia).
        nia.
    + apply Z.leb_gt in Ab.
      destruct (0 <=? k - 53)%Z eqn:E.
      * apply Z.leb_le in E.
        assert (P : (2 ^ (b + 1) * 2 ^ (k - 53 + 52) = 2 ^ a)%Z).
        { rewrite <- Z.pow_add_r by lia. f_equal. unfold k. lia. }
        assert (Q0 : (0 < 2 ^ (k - 53))%Z) by (apply Z.pow_pos_nonneg; lia).
        assert (P2 : (2 ^ 52 * 2 ^ (k - 53) = 2 ^ (k - 53 + 52))%Z).
        { rewrite <- Z.pow_add_r by lia. f_equal. lia. }
        nia.
      * apply Z.leb_gt in E.
        assert (P : (2 ^ a * 2 ^ (- (k - 53)) = 2 ^ 52 * 2 ^ (b + 1))%Z).
        { rewrite <- !Z.pow_add_r by lia. f_equal. unfold k. lia. }
        assert (Q0 : (0 < 2 ^ (- (k - 53)))%Z) by (apply Z.pow_pos_nonneg; lia).
        nia.
  - apply Z.leb_gt in K.
    destruct (d <=? n * 2 ^ (- k))%Z eqn:Ab.
    + apply Z.leb_le in Ab.
      destruct (0 <=? k - 52)%Z eqn:E; [apply Z.leb_le in E; lia|].
      assert (P : (2 ^ (- (k - 52)) = 2 ^ 52 * 2 ^ (- k))%Z).
      { rewrite <- Z.pow_add_r by lia. f_equal. lia. }
      rewrite P. nia.
    + apply Z.leb_gt in Ab.
      destruct (0 <=? k - 53)%Z eqn:E; [apply Z.leb_le in E; lia|].
      assert (P : (2 ^ a * 2 ^ (- (k - 53)) = 2 ^ 52 * 2 ^ (b + 1))%Z).
      { rewrite <- !Z.pow_add_r by lia. f_equal. unfold k. lia. }
      assert (Q0 : (0 < 2 ^ (- (k - 53)))%Z) by (apply Z.pow_pos_nonneg; lia).
      nia.
Qed.

Lemma round64_core (n d m N M : Z) :
  (0 < M)%Z -> (2 * Z.abs (m * M - N) <= M)%Z -> (2 ^ 52 * M <= N)%Z ->
  (2 ^ 53 * Z.abs (m * M - N) <= N)%Z.
Proof.
  intros HM H1 H2. change (2 ^ 53)%Z with (2 ^ 52 * 2)%Z. nia.
Qed.

(** Rounding to binary64 is accurate to the unit roundoff, for every
    rational. *)
Lemma round64_accurate (q : Q) : within unitRoundoff (round64 q) q.
Proof.
  destruct q as [n0 d]. unfold within, round64. cbn [Qnum Qden].
  destruct (Z.abs n0 =? 0)%Z eqn:Z0.
  - apply Z.eqb_eq in Z0. assert (n0 = 0%Z) by lia. subst n0.
    unfold Qle. cbn. lia.
  - apply Z.eqb_neq in Z0.
    assert (Hn : (0 < Z.abs n0)%Z) by lia.
    assert (Hd : (0 < Z.pos d)%Z) by apply Pos2Z.is_pos.
    pose proof (round64_scaled (Z.abs n0) (Z.pos d) Hn Hd) as S. cbv zeta in S.
    set (k := (Z.log2 (Z.abs n0) - Z.log2 (Z.pos d))%Z) in *.
    set (above := if (0 <=? k)%Z then (Z.pos d * 2 ^ k <=? Z.abs n0)%Z
                  else (Z.pos d <=? Z.abs n0 * 2 ^ (- k))%Z) in *.
    set (e := if above then (k - 52)%Z else (k - 53)%Z) in *.
    clearbody e. clear above k.
    unfold scale2.
    destruct (0 <=? e)%Z eqn:E.
    + apply Z.leb_le in E.
      assert (HM : (0 < Z.pos d * 2 ^ e)%Z).
      { apply Z.mul_pos_pos; [exact Hd | apply Z.pow_pos_nonneg; lia]. }
      pose proof (nearest_even_close (Z.abs n0) _ HM) as C.
      pose proof (round64_core (Z.abs n0) (Z.pos d) _ _ _ HM C S) as R.
      set (m := nearest_even (Z.abs n0) (Z.pos d * 2 ^ e)) in *. clearbody m.
      set (p := (2 ^ e)%Z) in *. clearbody p.
      unfold Qle, Qabs, Qminus, Qplus, Qopp, Qmult, inject_Z, unitRoundoff.
      cbn [Qnum Qden]. rewrite !Pos2Z.inj_mul.
      change (Z.pos 9007199254740992) with (2 ^ 53)%Z.
      destruct n0 as [|n|n]; [lia| |]; cbn [Z.sgn Z.abs] in *.
      * replace (1 * m * p * Z.pos d + - Z.pos n * 1)%Z with (m * (Z.pos d * p) - Z.pos n)%Z by ring.
        nia.
      * replace (-1 * m * p * Z.pos d + - Z.neg n * 1)%Z with (- (m * (Z.pos d * p) - Z.pos n))%Z
          by (change (Z.neg n) with (- Z.pos n)%Z; ring).
        rewrite Z.abs_opp. nia.
    + apply Z.leb_gt in E.
      assert (P0 : (0 < 2 ^ (- e))%Z) by (apply Z.pow_pos_nonneg; lia).
      pose proof (nearest_even_close (Z.abs n0 * 2 ^ (- e)) _ Hd) as C.
      pose proof (round64_core (Z.abs n0) (Z.pos d) _ _ _ Hd C S) as R.
      set (m := nearest_even (Z.abs n0 * 2 ^ (- e)) (Z.pos d)) in *. clearbody m.
      unfold Qle, Qabs, Qminus, Qplus, Qopp, Qmult, unitRoundoff.
      cbn [Qnum Qden]. rewrite !Pos2Z.inj_mul.
      rewrite Z2Pos.id by exact P0.
      set (p := (2 ^ (- e))%Z) in *. clearbody p.
      change (Z.pos 9007199254740992) with (2 ^ 53)%Z.
      destruct n0 as [|n|n]; [lia| |]; cbn [Z.sgn Z.abs] in *.
      * replace (1 * m * Z.pos d + - Z.pos n * p)%Z with (m * Z.pos d - Z.pos n * p)%Z by ring.
        nia.
      * replace (-1 * m * Z.pos d + - Z.neg n * p)%Z with (- (m * Z.pos d - Z.pos n * p))%Z
          by (change (Z.neg n) with (- Z.pos n)%Z; ring).
        rewrite Z.abs_opp. nia.
Qed.

(** So the quotients and products of the binary64 runtime are accurate to the
    unit roundoff, and so is the arithmetic of every label. *)
Lemma rigScene_divide_accurate (a b : Q) :
  within unitRoundoff (@divide rigScene a b) (a / b).
Proof. apply round64_accurate. Qed.

Lemma rigScene_times_accurate (a b : Q) :
  within unitRoundoff (@times rigScene a b) (a * b).
Proof. apply round64_accurate. Qed.

Lemma rigScene_labelArithmetic (s : Q) : @labelArithmetic rigScene unitRoundoff s.
Proof.
  unfold labelArithmetic.
  split; [apply rigScene_divide_accurate|].
  split; [apply rigScene_times_accurate|].
  split; apply rigScene_times_accurate.
Qed.

Section Details.

Context {T : Three}.

(** The scene and the sounds after a deposit. *)
Lemma tryInteract_deposit_scene (c : Component) (item : TrashItem.t) (bin : Bin.t) :
  deposit c = Some (item, bin) ->
  heap (tryInteract c) = Object3D_removeFromParent (TrashItem.object item) (heap c) /\
  played (tryInteract c)
  = played c ++ [if correct (item, bin) then correctSound else wrongSound].
Proof.
  intros D. destruct (deposit_inv c item bin D) as (Hg & Hc & p & Hp & Hb).
  unfold tryInteract, correct. rewrite Hp, Hg, Hc, Hb. cbn [fst snd].
  destruct (TrashType_eq_dec (Bin.type bin) (TrashItem.type item));
    match goal with |- context [checkGameState ?x] =>
      pose proof (checkGameState_frame x) as (_ & _ & _ & _ & F5 & _ & _ & F8);
      rewrite F5, F8
    end; split; reflexivity.
Qed.

(** The carry slot is only ever filled from the floor. *)
Lemma step_carry_source (e : Event) (c : Component) (item : TrashItem.t) :
  carryingItem (step e c) = Some item ->
  carryingItem c = Some item \/ In item (trashItems c).
Proof.
  pose proof (step_effect e c) as H.
  destruct (depositBy e c) as [d|].
  - destruct H as (_ & _ & -> & _). discriminate.
  - destruct H as (_ & _ & _ & [[_ ->] | (i & _ & Hi & _ & ->)]).
    + tauto.
    + intros E. inversion E; subst. tauto.
Qed.

Lemma run_carry_source (es : list Event) (c : Component) (item : TrashItem.t) :
  carryingItem (run es c) = Some item ->
  carryingItem c = Some item \/ In item (trashItems c).
Proof.
  revert c. induction es as [|e es IH]; intros c H.
  - left. exact H.
  - rewrite run_cons in H. apply IH in H. destruct H as [H | H].
    + apply step_carry_source in H. exact H.
    + right. apply (step_floor_shrinks e c). exact H.
Qed.

(** C6. In a playing state in which [item] is carried and the bin query
    finds a bin of another category, interacting empties the carry slot,
    lowers the score by exactly 1, leaves every counter as it was, cuts the
    item's object from its parent, plays the wrong-bin sound and puts nothing
    on the floor; no later sequence of events adds anything to the floor
    set, so an item that was not on the floor (as the registry invariant
    guarantees of a carried item) is never on the floor nor carried again. *)
Theorem wrong_bin_discards_the_item
  (c : Component) (p : ObjId) (item : TrashItem.t) (bin : Bin.t) :
  player c = Some p ->
  gameState c = playing ->
  carryingItem c = Some item ->
  findNearestBin c (getWorldPosition (heap c) p) binDistance = Some bin ->
  Bin.type bin <> TrashItem.type item ->
  carryingItem (tryInteract c) = None /\
  score (tryInteract c) = (score c - 1)%Z /\
  recycledCount (tryInteract c) = recycledCount c /\
  Object3D.parent (heap (tryInteract c) (TrashItem.object item)) = None /\
  played (tryInteract c) = played c ++ [wrongSound] /\
  trashItems (tryInteract c) = trashItems c /\
  (forall es, incl (trashItems (run es (tryInteract c))) (trashItems c)) /\
  (~ In item (trashItems c) ->
   forall es, ~ In item (trashItems (run es (tryInteract c))) /\
              carryingItem (run es (tryInteract c)) <> Some item).
Proof.
  intros Hp Hg Hc Hb N.
  pose proof (deposit_intro c p item bin Hp Hg Hc Hb) as D.
  pose proof (tryInteract_effect c) as H. rewrite D in H.
  pose proof (tryInteract_deposit_scene c item bin D) as [Hh Hs].
  unfold correct in H, Hs; cbn [fst snd] in H, Hs.
  destruct (TrashType_eq_dec (Bin.type bin) (TrashItem.type item)) as [E|_];
    [congruence|].
  destruct H as (Ht & Hn & Hsc & Hr & _).
  assert (F : forall es, incl (trashItems (run es (tryInteract c))) (trashItems c)).
  { intros es. rewrite <- Ht. apply run_floor_shrinks. }
  repeat split; try assumption.
  - rewrite Hh. apply removeFromParent_detached.
  - intros I. apply H. apply (F es). exact I.
  - intros C. apply run_carry_source in C. destruct C as [C | C].
    + congruence.
    + rewrite Ht in C. tauto.
Qed.

(** C7. In a playing state in which an item is carried and every bin is at
    least the bin distance away from the player's world position,
    interacting only replaces the HUD message: the carry slot, the score, the
    counters, the game state, the floor set, the bins, the scene and the
    sounds played are unchanged. *)
Theorem interact_without_bin_in_range (c : Component) (p : ObjId) (item : TrashItem.t) :
  player c = Some p ->
  gameState c = playing ->
  carryingItem c = Some item ->
  (forall b, In b (bins c) ->
             binDistance <= distanceOfBin c (getWorldPosition (heap c) p) b) ->
  tryInteract c = set_hudMessage c "No hay ningún contenedor cerca. Acércate más." /\
  carryingItem (tryInteract c) = Some item /\
  score (tryInteract c) = score c /\
  recycledCount (tryInteract c) = recycledCount c /\
  gameState (tryInteract c) = playing /\
  trashItems (tryInteract c) = trashItems c /\
  bins (tryInteract c) = bins c /\
  heap (tryInteract c) = heap c /\
  played (tryInteract c) = played c.
Proof.
  intros Hp Hg Hc Hfar.
  assert (Hb : findNearestBin c (getWorldPosition (heap c) p) binDistance = None).
  { rewrite findNearestBin_scan. apply scan_none_iff. exact Hfar. }
  assert (E : tryInteract c
              = set_hudMessage c "No hay ningún contenedor cerca. Acércate más.").
  { unfold tryInteract. rewrite Hp, Hg, Hc, Hb. reflexivity. }
  rewrite E. fields. repeat split; assumption.
Qed.

(** C8, amended. On a successful pickup (player loaded, game being played,
    nothing carried, the trash query finds [item]) the item becomes the
    carried one and the local scale of its object is, componentwise, the
    quotient of the item's base scale by the world scale of the hand anchor,
    as the engine computes it; the object is linked under the anchor, at the
    fixed offset and unrotated. Let no component of the anchor's world scale
    be zero, let the quotients be accurate to the relative error [u], and
    let the item's world scale after the pickup be the anchor's world scale
    times the item's local scale up to the relative error [e]: then the
    item's world scale after the pickup is its base scale up to the relative
    error [u + e + u * e] in each component, and exactly its base scale when
    the quotients and the composition are exact. *)
Theorem pickup_compensates_anchor_scale
  (c : Component) (p : ObjId) (item : TrashItem.t) (u e : Q) :
  player c = Some p ->
  gameState c = playing ->
  carryingItem c = None ->
  findNearestTrash c (getWorldPosition (heap c) p) pickupDistance = Some item ->
  let anchor := getHandAnchor c in
  let handWorldScale := getWorldScale (heap c) anchor in
  let s := TrashItem.baseScale item in
  let o := heap (tryInteract c) (TrashItem.object item) in
  let worldScale := getWorldScale (heap (tryInteract c)) (TrashItem.object item) in
  let quotients := Vector3.mk (s / Vector3.x handWorldScale)
                              (s / Vector3.y handWorldScale)
                              (s / Vector3.z handWorldScale) in
  carryingItem (tryInteract c) = Some item /\
  Object3D.scale o
  = Vector3.mk (divide s (Vector3.x handWorldScale))
               (divide s (Vector3.y handWorldScale))
               (divide s (Vector3.z handWorldScale)) /\
  Object3D.position o = Vector3.mk 0.1 0.3 0.2 /\
  Object3D.rotation o = Vector3.mk 0 0 0 /\
  (TrashItem.object item <> anchor -> Object3D.parent o = Some anchor) /\
  (nonzeroV handWorldScale ->
   0 <= e ->
   withinV u (Object3D.scale o) quotients ->
   withinV e worldScale (Vector3.multiply handWorldScale (Object3D.scale o)) ->
   withinV (u + e + u * e) worldScale (Vector3.mk s s s)) /\
  (nonzeroV handWorldScale ->
   Vector3.equiv (Object3D.scale o) quotients ->
   Vector3.equiv worldScale (Vector3.multiply handWorldScale (Object3D.scale o)) ->
   Vector3.equiv worldScale (Vector3.mk s s s)).
Proof.
  intros Hp Hg Hc Hn anchor handWorldScale s o worldScale quotients.
  assert (Hscale : Object3D.scale o
                   = Vector3.mk (divide s (Vector3.x handWorldScale))
                                (divide s (Vector3.y handWorldScale))
                                (divide s (Vector3.z handWorldScale))).
  { subst o. unfold tryInteract. rewrite Hp, Hg, Hc, Hn. fields.
    rewrite !update_same. cbn [Object3D.scale Object3D.set_rotation Object3D.set_position].
    rewrite add_keeps_scale, update_same. reflexivity. }
  split; [unfold tryInteract; rewrite Hp, Hg, Hc, Hn; reflexivity|].
  split; [exact Hscale|].
  split; [subst o; unfold tryInteract; rewrite Hp, Hg, Hc, Hn; fields;
          rewrite !update_same; reflexivity|].
  split; [subst o; unfold tryInteract; rewrite Hp, Hg, Hc, Hn; fields;
          rewrite !update_same; reflexivity|].
  split.
  - intros N. subst o. unfold tryInteract. rewrite Hp, Hg, Hc, Hn. fields.
    rewrite !update_same.
    cbn [Object3D.parent Object3D.set_rotation Object3D.set_position].
    apply add_links. exact N.
  - generalize (Object3D.scale o). intros l. clear Hscale.
    unfold withinV, nonzeroV, Vector3.equiv, Vector3.multiply. subst quotients.
    cbn [Vector3.x Vector3.y Vector3.z]. split.
    + intros (Nx & Ny & Nz) He (Qx & Qy & Qz) (Wx & Wy & Wz).
      split; [exact (within_compensated _ _ _ _ _ _ Nx He Qx Wx)|].
      split; [exact (within_compensated _ _ _ _ _ _ Ny He Qy Wy)|].
      exact (within_compensated _ _ _ _ _ _ Nz He Qz Wz).
    + intros (Nx & Ny & Nz) (Qx & Qy & Qz) (Wx & Wy & Wz).
      split; [exact (exactly_compensated _ _ _ _ Nx Qx Wx)|].
      split; [exact (exactly_compensated _ _ _ _ Ny Qy Wy)|].
      exact (exactly_compensated _ _ _ _ Nz Qz Wz).
Qed.

(** C10. While the player model is not loaded, interacting does nothing at
    all: [tryInteract] returns the component as it is, whether it is called
    directly or through the E key. *)
Theorem interact_before_player_loaded (c : Component) :
  player c = None ->
  tryInteract c = c /\
  step Interact c = c /\
  forall key, interacts (KeyDown key) c = true -> step (KeyDown key) c = c.
Proof.
  intros H.
  assert (E : tryInteract c = c) by (apply tryInteract_idle; left; exact H).
  split; [exact E|]. split; [exact E|].
  intros key I. rewrite (step_interacts _ _ I). exact E.
Qed.

End Details.

(** ** The theorems at work on the concrete scenes *)

Lemma demo_floor_NoDup : NoDup (trashItems demoGame).
Proof.
  constructor; [intros [H | []]; discriminate H|].
  constructor; [intros []|]. constructor.
Defined.

(** C2 on the short walk through the demo scene. *)
Lemma carried_item_is_off_the_floor_witness :
  NoDup (trashItems demoGame) /\
  carryingItem demoGame = None /\
  NoDup (trashItems (@run flatScene shortWalk demoGame)) /\
  incl (trashItems (@run flatScene shortWalk demoGame)) (trashItems demoGame) /\
  match carryingItem (@run flatScene shortWalk demoGame) with
  | None => True
  | Some item =>
      In item (trashItems demoGame) /\
      ~ In item (trashItems (@run flatScene shortWalk demoGame))
  end.
Proof.
  split; [exact demo_floor_NoDup|]. split; [reflexivity|].
  apply (@carried_item_is_off_the_floor flatScene demoGame shortWalk).
  - exact demo_floor_NoDup.
  - reflexivity.
Defined.

(** C3 in the yard: five peels into the organic bin, two wrappers into it. *)
Lemma game_progress_evaluation_witness :
  (@deposits flatScene (repeat Interact 10) (yard fivePeels) = [true; true; true; true; true] /\
   gameState (@run flatScene (repeat Interact 10) (yard fivePeels)) = win /\
   score (@run flatScene (repeat Interact 10) (yard fivePeels)) = 5%Z) /\
  (@deposits flatScene (repeat Interact 4) (yard twoWrappers) = [false; false] /\
   gameState (@run flatScene (repeat Interact 4) (yard twoWrappers)) = lose /\
   score (@run flatScene (repeat Interact 4) (yard twoWrappers)) = (-2)%Z).
Proof.
  destruct (@game_progress_evaluation flatScene) as (_ & _ & _ & H).
  split.
  - assert (D : @deposits flatScene (repeat Interact 10) (yard fivePeels)
                = [true; true; true; true; true]) by (vm_compute; reflexivity).
    split; [exact D|].
    apply (H (yard fivePeels) (repeat Interact 10) eq_refl eq_refl). exact D.
  - assert (D : @deposits flatScene (repeat Interact 4) (yard twoWrappers)
                = [false; false]) by (vm_compute; reflexivity).
    split; [exact D|].
    apply (H (yard twoWrappers) (repeat Interact 4) eq_refl eq_refl). exact D.
Defined.

(** C4 on a wrong and on a right deposit in the yard. *)
Lemma score_changes_only_on_deposit_witness :
  (score (@tryInteract flatScene carryingWrapper) = (score carryingWrapper - 1)%Z /\
   recycledCount (@tryInteract flatScene carryingWrapper) = recycledCount carryingWrapper) /\
  (score (@tryInteract flatScene carryingPeel) = (score carryingPeel + 1)%Z /\
   recycledCount (@tryInteract flatScene carryingPeel)
   = RecycledCount.incr organico (recycledCount carryingPeel)).
Proof.
  destruct (@score_changes_only_on_deposit flatScene) as (H & _).
  split.
  - assert (Hp : player carryingWrapper = Some 1%nat) by (vm_compute; reflexivity).
    assert (Hg : gameState carryingWrapper = playing) by (vm_compute; reflexivity).
    assert (Hc : carryingItem carryingWrapper = Some (wrapper 0))
      by (vm_compute; reflexivity).
    assert (Hb : @findNearestBin flatScene carryingWrapper
                   (@getWorldPosition flatScene (heap carryingWrapper) 1%nat) binDistance
                 = Some (Bin.mk 10%nat organico)) by (vm_compute; reflexivity).
    destruct (H carryingWrapper 1%nat (wrapper 0) (Bin.mk 10%nat organico) Hp Hg Hc Hb)
      as (_ & _ & Hwrong).
    apply Hwrong. discriminate.
  - assert (Hp : player carryingPeel = Some 1%nat) by (vm_compute; reflexivity).
    assert (Hg : gameState carryingPeel = playing) by (vm_compute; reflexivity).
    assert (Hc : carryingItem carryingPeel = Some (peel 0)) by (vm_compute; reflexivity).
    assert (Hb : @findNearestBin flatScene carryingPeel
                   (@getWorldPosition flatScene (heap carryingPeel) 1%nat) binDistance
                 = Some (Bin.mk 10%nat organico)) by (vm_compute; reflexivity).
    destruct (H carryingPeel 1%nat (peel 0) (Bin.mk 10%nat organico) Hp Hg Hc Hb)
      as (_ & Hright & _).
    apply Hright. reflexivity.
Defined.

(** C5 on the won yard, with keys, frames and interactions coming in. *)
Lemma terminal_state_is_absorbing_witness :
  gameState wonGame <> playing /\
  gameState (@run flatScene shortWalk wonGame) = gameState wonGame /\
  score (@run flatScene shortWalk wonGame) = score wonGame /\
  carryingItem (@run flatScene shortWalk wonGame) = carryingItem wonGame /\
  heap (@run flatScene shortWalk wonGame) = heap wonGame.
Proof.
  assert (N : gameState wonGame <> playing) by (vm_compute; discriminate).
  split; [exact N|].
  destruct (@terminal_state_is_absorbing flatScene wonGame shortWalk N)
    as (_ & Hg & Hs & Hc & _ & _ & _ & _ & Hh & _).
  split; [exact Hg|]. split; [exact Hs|]. split; [exact Hc | exact Hh].
Defined.

(** C6 on a wrapper carried to the organic bin. *)
Lemma wrong_bin_discards_the_item_witness :
  player carryingWrapper = Some 1%nat /\
  gameState carryingWrapper = playing /\
  carryingItem carryingWrapper = Some (wrapper 0) /\
  @findNearestBin flatScene carryingWrapper
    (@getWorldPosition flatScene (heap carryingWrapper) 1%nat) binDistance
  = Some (Bin.mk 10%nat organico) /\
  Bin.type (Bin.mk 10%nat organico) <> TrashItem.type (wrapper 0) /\
  ~ In (wrapper 0) (trashItems carryingWrapper) /\
  carryingItem (@tryInteract flatScene carryingWrapper) = None /\
  score (@tryInteract flatScene carryingWrapper) = (score carryingWrapper - 1)%Z /\
  recycledCount (@tryInteract flatScene carryingWrapper) = recycledCount carryingWrapper /\
  Object3D.parent (heap (@tryInteract flatScene carryingWrapper)
                        (TrashItem.object (wrapper 0))) = None /\
  forall es, ~ In (wrapper 0) (trashItems (@run flatScene es (@tryInteract flatScene carryingWrapper))).
Proof.
  assert (Hp : player carryingWrapper = Some 1%nat) by (vm_compute; reflexivity).
  assert (Hg : gameState carryingWrapper = playing) by (vm_compute; reflexivity).
  assert (Hc : carryingItem carryingWrapper = Some (wrapper 0))
    by (vm_compute; reflexivity).
  assert (Hb : @findNearestBin flatScene carryingWrapper
                 (@getWorldPosition flatScene (heap carryingWrapper) 1%nat) binDistance
               = Some (Bin.mk 10%nat organico)) by (vm_compute; reflexivity).
  assert (Hn : Bin.type (Bin.mk 10%nat organico) <> TrashItem.type (wrapper 0))
    by discriminate.
  assert (Hf : ~ In (wrapper 0) (trashItems carryingWrapper)).
  { vm_compute. intros [H | []]. discriminate H. }
  destruct (@wrong_bin_discards_the_item flatScene carryingWrapper 1%nat (wrapper 0)
              (Bin.mk 10%nat organico) Hp Hg Hc Hb Hn)
    as (H1 & H2 & H3 & H4 & _ & _ & _ & H8).
  split; [exact Hp|]. split; [exact Hg|]. split; [exact Hc|]. split; [exact Hb|].
  split; [exact Hn|]. split; [exact Hf|]. split; [exact H1|]. split; [exact H2|].
  split; [exact H3|]. split; [exact H4|].
  intros es. apply (H8 Hf es).
Defined.

(** C7 on the banana carried at the spawn point, 200 units from the bins. *)
Lemma interact_without_bin_in_range_witness :
  player carryingBanana = Some 1%nat /\
  gameState carryingBanana = playing /\
  carryingItem carryingBanana = Some bananaA /\
  (forall b, In b (bins carryingBanana) ->
     binDistance <= @distanceOfBin flatScene carryingBanana
                      (@getWorldPosition flatScene (heap carryingBanana) 1%nat) b) /\
  @tryInteract flatScene carryingBanana
  = set_hudMessage carryingBanana "No hay ningún contenedor cerca. Acércate más.".
Proof.
  assert (Hfar : forall b, In b (bins carryingBanana) ->
            binDistance <= @distanceOfBin flatScene carryingBanana
                             (@getWorldPosition flatScene (heap carryingBanana) 1%nat) b).
  { intros b [<- | [<- | [<- | []]]]; vm_compute; discriminate. }
  assert (Hp : player carryingBanana = Some 1%nat) by (vm_compute; reflexivity).
  assert (Hg : gameState carryingBanana = playing) by (vm_compute; reflexivity).
  assert (Hc : carryingItem carryingBanana = Some bananaA) by (vm_compute; reflexivity).
  split; [exact Hp|]. split; [exact Hg|]. split; [exact Hc|]. split; [exact Hfar|].
  apply (@interact_without_bin_in_range flatScene carryingBanana 1%nat bananaA
           Hp Hg Hc Hfar).
Defined.

(** C8, as first stated, fails to rounding. The player, scaled by 30,
    carries a hand bone scaled by 10, so that the anchor's world scale is
    300; a bag of crisps of base scale 0.1 lies within reach. In binary64
    arithmetic the pickup sets the bag's local scale to
    0.0003333333333333334, and under the anchor its world scale is
    0.10000000000000002, which is not its base scale. *)
Lemma pickup_scale_rounds :
  player rigGame = Some 1%nat /\
  gameState rigGame = playing /\
  carryingItem rigGame = None /\
  @findNearestTrash rigScene rigGame
    (@getWorldPosition rigScene (heap rigGame) 1%nat) pickupDistance = Some crisps /\
  @getHandAnchor rigScene rigGame = 2%nat /\
  Vector3.equiv (@getWorldScale rigScene (heap rigGame) 2%nat) (Vector3.mk 300 300 300) /\
  Object3D.parent (heap (@tryInteract rigScene rigGame) (TrashItem.object crisps))
  = Some 2%nat /\
  TrashItem.baseScale crisps == 3602879701896397 # 36028797018963968 /\
  Vector3.x (Object3D.scale (heap (@tryInteract rigScene rigGame) (TrashItem.object crisps)))
  == 3074457345618259 # 9223372036854775808 /\
  Vector3.x (@getWorldScale rigScene (heap (@tryInteract rigScene rigGame))
               (TrashItem.object crisps))
  == 7205759403792795 # 72057594037927936 /\
  ~ Vector3.x (@getWorldScale rigScene (heap (@tryInteract rigScene rigGame))
                 (TrashItem.object crisps))
    == TrashItem.baseScale crisps.
Proof.
  split; [reflexivity|]. split; [reflexivity|]. split; [reflexivity|].
  split; [vm_compute; reflexivity|].
  split; [vm_compute; reflexivity|].
  split; [unfold Vector3.equiv; split; [|split]; vm_compute; reflexivity|].
  split; [vm_compute; reflexivity|].
  split; [vm_compute; reflexivity|].
  split; [vm_compute; reflexivity|].
  split; [vm_compute; reflexivity|].
  vm_compute. discriminate.
Qed.

(** C8 on the same pickup: the quotients and the composition with the
    anchor's scale are accurate to the unit roundoff of binary64 arithmetic,
    and the bag's world scale after the pickup is its base scale up to twice
    the unit roundoff and its square. *)
Lemma pickup_compensates_anchor_scale_witness :
  let handWorldScale := @getWorldScale rigScene (heap rigGame) (@getHandAnchor rigScene rigGame) in
  let s := TrashItem.baseScale crisps in
  let o := heap (@tryInteract rigScene rigGame) (TrashItem.object crisps) in
  let worldScale := @getWorldScale rigScene (heap (@tryInteract rigScene rigGame))
                      (TrashItem.object crisps) in
  let quotients := Vector3.mk (s / Vector3.x handWorldScale)
                              (s / Vector3.y handWorldScale)
                              (s / Vector3.z handWorldScale) in
  player rigGame = Some 1%nat /\
  gameState rigGame = playing /\
  carryingItem rigGame = None /\
  @findNearestTrash rigScene rigGame
    (@getWorldPosition rigScene (heap rigGame) 1%nat) pickupDistance = Some crisps /\
  nonzeroV handWorldScale /\
  0 <= unitRoundoff /\
  withinV unitRoundoff (Object3D.scale o) quotients /\
  withinV unitRoundoff worldScale (Vector3.multiply handWorldScale (Object3D.scale o)) /\
  withinV (unitRoundoff + unitRoundoff + unitRoundoff * unitRoundoff) worldScale
    (Vector3.mk s s s).
Proof.
  intros handWorldScale s o worldScale quotients.
  assert (Hn : @findNearestTrash rigScene rigGame
                 (@getWorldPosition rigScene (heap rigGame) 1%nat) pickupDistance
               = Some crisps) by (vm_compute; reflexivity).
  assert (N : nonzeroV handWorldScale)
    by (unfold nonzeroV; split; [|split]; vm_compute; discriminate).
  assert (Hu : 0 <= unitRoundoff) by (vm_compute; discriminate).
  assert (Hq : withinV unitRoundoff (Object3D.scale o) quotients)
    by (unfold withinV; split; [|split]; vm_compute; discriminate).
  assert (Hw : withinV unitRoundoff worldScale
                 (Vector3.multiply handWorldScale (Object3D.scale o)))
    by (unfold withinV; split; [|split]; vm_compute; discriminate).
  split; [reflexivity|]. split; [reflexivity|]. split; [reflexivity|].
  split; [exact Hn|]. split; [exact N|]. split; [exact Hu|].
  split; [exact Hq|]. split; [exact Hw|].
  destruct (@pickup_compensates_anchor_scale rigScene rigGame 1%nat crisps
              unitRoundoff unitRoundoff eq_refl eq_refl eq_refl Hn)
    as (_ & _ & _ & _ & _ & Hb & _).
  exact (Hb N Hu Hq Hw).
Defined.

(** C9 in the yard, down to the losing score. *)
Lemma score_stays_within_thresholds_witness :
  score (yard twoWrappers) = 0%Z /\
  gameState (yard twoWrappers) = playing /\
  (-2 <= score (@run flatScene (repeat Interact 6) (yard twoWrappers)) <= 5)%Z.
Proof.
  split; [reflexivity|]. split; [reflexivity|].
  pose proof (@score_stays_within_thresholds flatScene (yard twoWrappers)
                (repeat Interact 6) eq_refl eq_refl) as H.
  destruct H as [H _]. exact H.
Defined.

(** C10 on the demo scene before the player model has arrived. *)
Lemma interact_before_player_loaded_witness :
  player unloadedGame = None /\
  @tryInteract flatScene unloadedGame = unloadedGame /\
  @step flatScene (KeyDown "E") unloadedGame = unloadedGame.
Proof.
  split; [reflexivity|].
  destruct (@interact_before_player_loaded flatScene unloadedGame eq_refl) as (H1 & _ & H3).
  split; [exact H1|]. apply H3. reflexivity.
Defined.

(** * More of the code *)

(** * More of the component *)

(** ** The nearest-entity queries under a change of radius *)

Section ScanRadius.

Variable A : Type.
Variable dist : A -> Q.
Variables r r' : Q.
Hypothesis r_le : r <= r'.






End ScanRadius.

Section MoreNearest.

Context {T : Three}.


End MoreNearest.

(** ** checkGameState, the key handlers and what a finished game looks like *)

Lemma lower_ascii_idempotent (a : ascii) : lower_ascii (lower_ascii a) = lower_ascii a.
Proof.
  destruct a as [[] [] [] [] [] [] [] []]; reflexivity.
Qed.

Lemma toLowerCase_idempotent (s : string) : toLowerCase (toLowerCase s) = toLowerCase s.
Proof.
  induction s as [|a s IH]; simpl; [reflexivity|].
  rewrite lower_ascii_idempotent, IH. reflexivity.
Qed.

Lemma set_moveForward_back (c : Component) (v : Q) :
  moveForward c = 0 -> set_moveForward (set_moveForward c v) 0 = c.
Proof. destruct c; simpl; intros ->; reflexivity. Qed.

Lemma set_turn_back (c : Component) (v : Q) :
  turn c = 0 -> set_turn (set_turn c v) 0 = c.
Proof. destruct c; simpl; intros ->; reflexivity. Qed.

Section Handlers.

Context {T : Three}.

Lemma checkGameState_idle (c : Component) :
  gameState c <> playing -> checkGameState c = c.
Proof.
  intros H. unfold checkGameState. destruct (gameState c); congruence.
Qed.

(** X2. Evaluating the game state twice is the same as evaluating it once. *)
Theorem checkGameState_idempotent (c : Component) :
  checkGameState (checkGameState c) = checkGameState c.
Proof.
  destruct (gameState c) eqn:G.
  - destruct (verdict_cases (score c)) as [[V E] | [[V E] | [V E]]];
      pose proof (checkGameState_verdict c G) as H; rewrite E in H.
    + apply checkGameState_idle. congruence.
    + apply checkGameState_idle. congruence.
    + assert (S : checkGameState c = c).
      { unfold checkGameState. rewrite G.
        destruct (score c >=? 5)%Z eqn:E1; [lia|].
        destruct (score c <=? -2)%Z eqn:E2; [lia|]. rewrite G. reflexivity. }
      rewrite !S. reflexivity.
  - rewrite !(checkGameState_idle c) by congruence. reflexivity.
  - rewrite !(checkGameState_idle c) by congruence. reflexivity.
Qed.

(** X3. The key handlers match keys without regard to letter case: a key
    and its lower-cased name are handled alike, and so are any two keys with
    the same lower-cased name. *)
Theorem key_handlers_ignore_case :
  (forall key c, onKeyDown (toLowerCase key) c = onKeyDown key c) /\
  (forall key c, onKeyUp (toLowerCase key) c = onKeyUp key c) /\
  (forall key key' c,
      toLowerCase key = toLowerCase key' ->
      onKeyDown key c = onKeyDown key' c /\ onKeyUp key c = onKeyUp key' c).
Proof.
  repeat split.
  - intros key c. unfold onKeyDown. rewrite toLowerCase_idempotent. reflexivity.
  - intros key c. unfold onKeyUp. rewrite toLowerCase_idempotent. reflexivity.
  - unfold onKeyDown. rewrite H. reflexivity.
  - unfold onKeyUp. rewrite H. reflexivity.
Qed.

(** X4. Tapping a key at rest: when both intents are 0, pressing and then
    releasing any key other than E gives back the component exactly as it
    was. *)
Theorem key_tap_at_rest (key : string) (c : Component) :
  toLowerCase key <> "e" ->
  moveForward c = 0 ->
  turn c = 0 ->
  onKeyUp key (onKeyDown key c) = c.
Proof.
  intros Ne Hm Ht.
  assert (E : (toLowerCase key =? "e") = false) by (apply String.eqb_neq; exact Ne).
  unfold onKeyUp, onKeyDown. rewrite E.
  destruct (gameState c) eqn:G; [|rewrite G; reflexivity | rewrite G; reflexivity].
  destruct (toLowerCase key =? "w"), (toLowerCase key =? "arrowup"),
           (toLowerCase key =? "s"), (toLowerCase key =? "arrowdown"),
           (toLowerCase key =? "a"), (toLowerCase key =? "arrowleft"),
           (toLowerCase key =? "d"), (toLowerCase key =? "arrowright");
    cbn [orb]; fields; rewrite ?G; cbn [orb];
    first [ apply set_moveForward_back; exact Hm
          | apply set_turn_back; exact Ht
          | reflexivity ].
Qed.

End Handlers.

Section Intents.

Context {T : Three}.

Lemma checkGameState_intents (c : Component) :
  (moveForward (checkGameState c) = moveForward c \/ moveForward (checkGameState c) = 0) /\
  (turn (checkGameState c) = turn c \/ turn (checkGameState c) = 0).
Proof.
  unfold checkGameState. repeat (break_match; fields); auto.
Qed.

Lemma tryInteract_intents (c : Component) :
  (moveForward (tryInteract c) = moveForward c \/ moveForward (tryInteract c) = 0) /\
  (turn (tryInteract c) = turn c \/ turn (tryInteract c) = 0).
Proof.
  unfold tryInteract.
  repeat break_match; fields; auto;
    match goal with |- context [checkGameState ?x] =>
      pose proof (checkGameState_intents x) as H; fields; exact H
    end.
Qed.

Lemma step_intents (e : Event) (c : Component) :
  isIntent (moveForward c) -> isIntent (turn c) ->
  isIntent (moveForward (step e c)) /\ isIntent (turn (step e c)).
Proof.
  unfold isIntent. intros Hm Ht.
  assert (I : forall c', (moveForward c' = moveForward c \/ moveForward c' = 0) /\
                         (turn c' = turn c \/ turn c' = 0) ->
                         (moveForward c' = 1 \/ moveForward c' = -1 \/ moveForward c' = 0) /\
                         (turn c' = 1 \/ turn c' = -1 \/ turn c' = 0)).
  { intros c' [[-> | ->] [-> | ->]]; tauto. }
  destruct e as [key | key | | delta]; simpl.
  - unfold onKeyDown.
    repeat break_match; fields; try tauto. apply I, tryInteract_intents.
  - unfold onKeyUp. repeat break_match; fields; tauto.
  - apply I, tryInteract_intents.
  - unfold animate. repeat (break_match; fields); tauto.
Qed.

(** X5. The two motion intents only ever hold 1, -1 or 0: starting from such
    values, they do so after every sequence of events. *)
Theorem intents_stay_in_range (c : Component) (es : list Event) :
  isIntent (moveForward c) ->
  isIntent (turn c) ->
  isIntent (moveForward (run es c)) /\ isIntent (turn (run es c)).
Proof.
  revert c. induction es as [|e es IH]; intros c Hm Ht.
  - split; assumption.
  - rewrite run_cons. destruct (step_intents e c Hm Ht) as [Hm' Ht'].
    apply IH; assumption.
Qed.

Lemma step_frozen (e : Event) (c : Component) :
  frozenWhenOver c -> frozenWhenOver (step e c).
Proof.
  unfold frozenWhenOver. intros F N.
  destruct (gameState c) eqn:G.
  - pose proof (step_effect e c) as H.
    destruct (depositBy e c) as [d|].
    + destruct H as (_ & _ & _ & _ & _ & _ & Hz).
      destruct (Hz N) as (Hm & Ht & Hw).
      split; [exact Hm|]. split; [exact Ht|].
      intros a Ha. rewrite Hw in Ha. unfold pausedWalk in Ha.
      destruct (walkAction c); simpl in Ha; [|discriminate].
      inversion Ha. reflexivity.
    + destruct H as (_ & _ & Hg & _). congruence.
  - assert (N' : gameState c <> playing) by congruence.
    rewrite (step_terminal e c N'). fields. apply F. discriminate.
  - assert (N' : gameState c <> playing) by congruence.
    rewrite (step_terminal e c N'). fields. apply F. discriminate.
Qed.

(** X6. A finished game stands still: in every state reached from a state
    in which the game was being played, if the game is won or lost then both
    motion intents are 0 and the walk action, if there is one, is paused. *)
Theorem finished_game_is_frozen (c0 : Component) (es : list Event) :
  gameState c0 = playing ->
  gameState (run es c0) <> playing ->
  moveForward (run es c0) = 0 /\
  turn (run es c0) = 0 /\
  forall a, walkAction (run es c0) = Some a -> AnimationAction.paused a = true.
Proof.
  intros G.
  assert (F : frozenWhenOver c0) by (intros N; congruence).
  clear G. revert c0 F. induction es as [|e es IH]; intros c F.
  - exact F.
  - rewrite run_cons. apply IH. apply step_frozen. exact F.
Qed.

(** *** Menus and closing messages *)

Lemma checkGameState_menus (c : Component) :
  gameState c = playing ->
  (gameState (checkGameState c) = playing /\
   showWinMenu (checkGameState c) = showWinMenu c /\
   showLoseMenu (checkGameState c) = showLoseMenu c) \/
  (gameState (checkGameState c) = win /\
   showWinMenu (checkGameState c) = true /\
   showLoseMenu (checkGameState c) = showLoseMenu c /\
   hudMessage (checkGameState c) = "¡Excelente! Clasificaste bien la basura. 🎉") \/
  (gameState (checkGameState c) = lose /\
   showLoseMenu (checkGameState c) = true /\
   showWinMenu (checkGameState c) = showWinMenu c /\
   hudMessage (checkGameState c) = "Has reciclado mal demasiadas veces. 😢").
Proof.
  intros G. unfold checkGameState. rewrite G.
  repeat (break_match; fields); try congruence; tauto.
Qed.

Lemma tryInteract_menus (c : Component) :
  gameState c = playing ->
  (gameState (tryInteract c) = playing /\
   showWinMenu (tryInteract c) = showWinMenu c /\
   showLoseMenu (tryInteract c) = showLoseMenu c) \/
  (gameState (tryInteract c) = win /\
   showWinMenu (tryInteract c) = true /\
   showLoseMenu (tryInteract c) = showLoseMenu c /\
   hudMessage (tryInteract c) = "¡Excelente! Clasificaste bien la basura. 🎉") \/
  (gameState (tryInteract c) = lose /\
   showLoseMenu (tryInteract c) = true /\
   showWinMenu (tryInteract c) = showWinMenu c /\
   hudMessage (tryInteract c) = "Has reciclado mal demasiadas veces. 😢").
Proof.
  intros G. unfold tryInteract. rewrite G.
  repeat break_match; fields; try tauto;
    match goal with |- context [checkGameState ?x] =>
      pose proof (checkGameState_menus x G) as H; fields; exact H
    end.
Qed.

Lemma step_quiet_menus (e : Event) (c : Component) :
  interacts e c = false ->
  showWinMenu (step e c) = showWinMenu c /\ showLoseMenu (step e c) = showLoseMenu c.
Proof.
  destruct e as [key | key | | delta]; simpl; try discriminate.
  - unfold onKeyDown. destruct (gameState c) eqn:Hg; try tauto.
    intros E. rewrite E. repeat (break_match; fields); tauto.
  - intros _. unfold onKeyUp. repeat (break_match; fields); tauto.
  - intros _. unfold animate. repeat (break_match; fields); tauto.
Qed.

Lemma step_hud (e : Event) (c : Component) :
  hudTellsState c -> hudTellsState (step e c).
Proof.
  intros H. destruct (gameState c) eqn:G.
  - assert (W : showWinMenu c = false).
    { destruct (showWinMenu c) eqn:E; [|reflexivity].
      destruct H as (H & _). apply H in E. congruence. }
    assert (L : showLoseMenu c = false).
    { destruct (showLoseMenu c) eqn:E; [|reflexivity].
      destruct H as (_ & H & _). apply H in E. congruence. }
    assert (K : (gameState (step e c) = playing /\
                 showWinMenu (step e c) = false /\ showLoseMenu (step e c) = false) \/
                (gameState (step e c) = win /\
                 showWinMenu (step e c) = true /\ showLoseMenu (step e c) = false /\
                 hudMessage (step e c) = "¡Excelente! Clasificaste bien la basura. 🎉") \/
                (gameState (step e c) = lose /\
                 showLoseMenu (step e c) = true /\ showWinMenu (step e c) = false /\
                 hudMessage (step e c) = "Has reciclado mal demasiadas veces. 😢")).
    { destruct (interacts e c) eqn:I.
      - rewrite (step_interacts e c I).
        pose proof (tryInteract_menus c G) as M. rewrite W, L in M. exact M.
      - left. destruct (step_quiet e c I) as (_ & _ & _ & _ & Hg & _).
        destruct (step_quiet_menus e c I) as [Hw Hl].
        rewrite Hg, Hw, Hl. tauto. }
    unfold hudTellsState.
    destruct K as [(Kg & Kw & Kl) | [(Kg & Kw & Kl & Kh) | (Kg & Kl & Kw & Kh)]];
      rewrite Kg, Kw, Kl; repeat split; intros; try congruence.
  - assert (N : gameState c <> playing) by congruence.
    rewrite (step_terminal e c N). exact H.
  - assert (N : gameState c <> playing) by congruence.
    rewrite (step_terminal e c N). exact H.
Qed.

(** X7. The HUD tells the game state. From a state in which the game is
    being played and no end menu is shown, after every sequence of events the
    win menu is shown exactly when the game is won, the lose menu exactly
    when it is lost, and in either case the HUD message is the closing
    message of that outcome. *)
Theorem hud_tells_the_game_state (c0 : Component) (es : list Event) :
  gameState c0 = playing ->
  showWinMenu c0 = false ->
  showLoseMenu c0 = false ->
  (showWinMenu (run es c0) = true <-> gameState (run es c0) = win) /\
  (showLoseMenu (run es c0) = true <-> gameState (run es c0) = lose) /\
  (gameState (run es c0) = win ->
   hudMessage (run es c0) = "¡Excelente! Clasificaste bien la basura. 🎉") /\
  (gameState (run es c0) = lose ->
   hudMessage (run es c0) = "Has reciclado mal demasiadas veces. 😢").
Proof.
  intros G W L.
  assert (H : hudTellsState c0).
  { unfold hudTellsState. rewrite G, W, L. repeat split; intros; congruence. }
  clear G W L. revert c0 H. induction es as [|e es IH]; intros c H.
  - exact H.
  - rewrite run_cons. apply IH. apply step_hud. exact H.
Qed.

End Intents.

(** ** Pickups, deposits and the books *)

Lemma update_other (o o' : ObjId) (f : Object3D.t -> Object3D.t) (h : Heap) :
  o' <> o -> update o f h o' = h o'.
Proof. intros N. unfold update. destruct (Nat.eq_dec o' o); [congruence | reflexivity]. Qed.

Lemma add_other (anchor o o' : ObjId) (h : Heap) :
  o' <> o -> Object3D_add anchor o h o' = h o'.
Proof.
  intros N. unfold Object3D_add. destruct (Nat.eq_dec o anchor); [reflexivity|].
  apply update_other. exact N.
Qed.

Lemma removeFromParent_other (o o' : ObjId) (h : Heap) :
  o' <> o -> Object3D_removeFromParent o h o' = h o'.
Proof.
  intros N. unfold Object3D_removeFromParent.
  destruct (Object3D.parent (h o)); [apply update_other; exact N | reflexivity].
Qed.

Lemma removeItem_In (item x : TrashItem.t) (l : list TrashItem.t) :
  In x (removeItem item l) <-> In x l /\ x <> item.
Proof.
  unfold removeItem. rewrite filter_In.
  destruct (TrashItem.eq_dec x item); split; intros [H1 H2];
    (split; [exact H1|]); congruence.
Qed.

Lemma removeItem_length (item : TrashItem.t) (l : list TrashItem.t) :
  NoDup l -> In item l -> S (length (removeItem item l)) = length l.
Proof.
  unfold removeItem.
  induction l as [|a l IH]; intros Hnd Hin; [destruct Hin|].
  inversion Hnd as [|? ? Hna Hnd']; subst. cbn [filter].
  destruct (TrashItem.eq_dec a item) as [E|E].
  - subst a. rewrite forallb_filter_id; [reflexivity|].
    apply forallb_forall. intros x Hx.
    destruct (TrashItem.eq_dec x item); [congruence | reflexivity].
  - cbn [length]. f_equal. apply IH; [exact Hnd'|].
    destruct Hin as [Hin | Hin]; [congruence | exact Hin].
Qed.

Lemma tally_bound (ds : list bool) :
  (- Z.of_nat (length ds) <= tally ds <= Z.of_nat (length ds))%Z.
Proof.
  induction ds as [|[] ds IH]; cbn [tally length]; lia.
Qed.

Section Books.

Context {T : Three}.


(** X9. A successful pickup moves exactly one item: the item found becomes
    the carried one and leaves the floor set, which otherwise keeps its items
    (and, when it had no duplicates, shrinks by one); the pickup sound is
    played and the HUD names the item's category; the score, the counters,
    the game state, the bins and the player are untouched, and no object of
    the scene other than the item's own is modified. *)
Theorem pickup_moves_one_item (c : Component) (p : ObjId) (item : TrashItem.t) :
  player c = Some p ->
  gameState c = playing ->
  carryingItem c = None ->
  findNearestTrash c (getWorldPosition (heap c) p) pickupDistance = Some item ->
  carryingItem (tryInteract c) = Some item /\
  trashItems (tryInteract c) = removeItem item (trashItems c) /\
  (forall x, In x (trashItems (tryInteract c)) <-> In x (trashItems c) /\ x <> item) /\
  (NoDup (trashItems c) ->
   S (length (trashItems (tryInteract c))) = length (trashItems c)) /\
  played (tryInteract c) = played c ++ [pickupSound] /\
  hudMessage (tryInteract c)
  = ("Recogiste basura (" ++ TrashType_to_string (TrashItem.type item)
       ++ "). Llévala al contenedor correcto.")%string /\
  score (tryInteract c) = score c /\
  recycledCount (tryInteract c) = recycledCount c /\
  gameState (tryInteract c) = playing /\
  bins (tryInteract c) = bins c /\
  player (tryInteract c) = Some p /\
  (forall o, o <> TrashItem.object item -> heap (tryInteract c) o = heap c o).
Proof.
  intros Hp Hg Hc Hn.
  pose proof (findNearestTrash_in c _ _ item Hn) as Hin.
  unfold tryInteract. rewrite Hp, Hg, Hc, Hn. fields.
  split; [reflexivity|]. split; [reflexivity|].
  split; [intros x; apply removeItem_In|].
  split; [intros Hnd; apply removeItem_length; assumption|].
  split; [reflexivity|]. split; [reflexivity|]. split; [reflexivity|].
  split; [reflexivity|]. split; [exact Hg|]. split; [reflexivity|].
  split; [exact Hp|].
  intros o No.
  rewrite !update_other by exact No. rewrite add_other by exact No.
  apply update_other. exact No.
Qed.

(** *** Every deposit uses the item up *)

(** X10. Every deposit, into the right bin or not, uses the carried item up:
    the carry slot is emptied, the item's object is cut from its parent, the
    matching feedback sound is played, the floor set is left as it is and no
    other scene object is modified; an item that was not on the floor is
    never on the floor nor carried again, whatever happens next. *)
Theorem deposit_uses_the_item_up
  (c : Component) (p : ObjId) (item : TrashItem.t) (bin : Bin.t) :
  player c = Some p ->
  gameState c = playing ->
  carryingItem c = Some item ->
  findNearestBin c (getWorldPosition (heap c) p) binDistance = Some bin ->
  carryingItem (tryInteract c) = None /\
  trashItems (tryInteract c) = trashItems c /\
  Object3D.parent (heap (tryInteract c) (TrashItem.object item)) = None /\
  (forall o, o <> TrashItem.object item -> heap (tryInteract c) o = heap c o) /\
  played (tryInteract c)
  = played c ++ [if TrashType_eq_dec (Bin.type bin) (TrashItem.type item)
                 then correctSound else wrongSound] /\
  (~ In item (trashItems c) ->
   forall es, ~ In item (trashItems (run es (tryInteract c))) /\
              carryingItem (run es (tryInteract c)) <> Some item).
Proof.
  intros Hp Hg Hc Hb.
  pose proof (deposit_intro c p item bin Hp Hg Hc Hb) as D.
  pose proof (tryInteract_effect c) as H. rewrite D in H.
  destruct H as (Ht & Hn & _).
  pose proof (tryInteract_deposit_scene c item bin D) as [Hh Hs].
  unfold correct in Hs; cbn [fst snd] in Hs.
  split; [exact Hn|]. split; [exact Ht|].
  split; [rewrite Hh; apply removeFromParent_detached|].
  split; [intros o No; rewrite Hh; apply removeFromParent_other; exact No|].
  split; [rewrite Hs;
          destruct (TrashType_eq_dec (Bin.type bin) (TrashItem.type item)); reflexivity|].
  intros Hf es. split.
  - intros I. apply Hf. apply (run_floor_shrinks es (tryInteract c)) in I.
    rewrite Ht in I. exact I.
  - intros C. apply run_carry_source in C. destruct C as [C | C].
    + congruence.
    + rewrite Ht in C. tauto.
Qed.

(** *** Counting items *)

Lemma step_count (spawned : list TrashItem.t) (e : Event) (c : Component) :
  registryInvariant spawned c ->
  (length (trashItems (step e c)) + carriedCount (step e c)
   + length (deposits [e] c)
   = length (trashItems c) + carriedCount c)%nat.
Proof.
  intros (Hnd & _ & Hc). unfold carriedCount. cbn [deposits].
  pose proof (step_effect e c) as H.
  destruct (depositBy e c) as [d|] eqn:D.
  - destruct H as (Hd & -> & -> & _).
    destruct d as [item bin]. apply deposit_inv in Hd.
    destruct Hd as (_ & -> & _). simpl. lia.
  - destruct H as (_ & _ & _ & [[-> ->] | (item & Hnone & Hitem & -> & ->)]).
    + simpl. lia.
    + rewrite Hnone.
      pose proof (removeItem_length item (trashItems c) Hnd Hitem). simpl. lia.
Qed.

Lemma deposits_cons (e : Event) (es : list Event) (c : Component) :
  deposits (e :: es) c = deposits [e] c ++ deposits es (step e c).
Proof.
  cbn [deposits]. destruct (depositBy e c); reflexivity.
Qed.

Lemma run_count (spawned : list TrashItem.t) (es : list Event) (c : Component) :
  registryInvariant spawned c ->
  (length (trashItems (run es c)) + carriedCount (run es c) + length (deposits es c)
   = length (trashItems c) + carriedCount c)%nat.
Proof.
  revert c. induction es as [|e es IH]; intros c R.
  - simpl. lia.
  - rewrite run_cons, deposits_cons, length_app.
    pose proof (step_count spawned e c R) as S.
    pose proof (IH (step e c) (step_registry spawned e c R)) as S'.
    lia.
Qed.

(** X11. Items are conserved. From a state with nothing carried and a floor
    set without duplicates, after every sequence of events the items still
    on the floor, the item carried (if any) and the deposits made so far add
    up to the number of items the floor started with. *)
Theorem items_are_conserved (c0 : Component) (es : list Event) :
  NoDup (trashItems c0) ->
  carryingItem c0 = None ->
  (length (trashItems (run es c0)) + carriedCount (run es c0)
   + length (deposits es c0)
   = length (trashItems c0))%nat.
Proof.
  intros Hnd Hc.
  assert (R : registryInvariant (trashItems c0) c0).
  { unfold registryInvariant. rewrite Hc.
    split; [exact Hnd | split; [apply incl_refl | exact I]]. }
  pose proof (run_count (trashItems c0) es c0 R) as H.
  unfold carriedCount in H at 2. rewrite Hc in H. lia.
Qed.

(** X12. The score is bounded by the supply of trash. From score 0 in the
    playing state, with nothing carried and a floor set without duplicates,
    the score never leaves the range from minus to plus the number of items
    the floor started with; so a game is only ever won when at least five
    items were on the floor, and only ever lost when at least two were. *)
Theorem outcome_needs_enough_items (c0 : Component) (es : list Event) :
  score c0 = 0%Z ->
  gameState c0 = playing ->
  NoDup (trashItems c0) ->
  carryingItem c0 = None ->
  (- Z.of_nat (length (trashItems c0)) <= score (run es c0)
   <= Z.of_nat (length (trashItems c0)))%Z /\
  (gameState (run es c0) = win -> (5 <= length (trashItems c0))%nat) /\
  (gameState (run es c0) = lose -> (2 <= length (trashItems c0))%nat).
Proof.
  intros Hs Hg Hnd Hc.
  assert (R : registryInvariant (trashItems c0) c0).
  { unfold registryInvariant. rewrite Hc.
    split; [exact Hnd | split; [apply incl_refl | exact I]]. }
  pose proof (run_count (trashItems c0) es c0 R) as N.
  pose proof (run_score es c0) as S. rewrite Hs in S.
  pose proof (tally_bound (deposits es c0)) as B.
  assert (Bd : scoreInBounds (run es c0)).
  { apply run_bounds. unfold scoreInBounds. rewrite Hg, Hs. lia. }
  unfold scoreInBounds in Bd.
  unfold carriedCount in N at 2. rewrite Hc in N.
  split; [lia|]. split; intros W; rewrite W in Bd; lia.
Qed.

End Books.

(** ** The books: score, counters and sounds *)

Lemma timesPlayed_playSound (s s' : Sound) (c : Component) :
  timesPlayed s (playSound c s')
  = (timesPlayed s c + if Sound_eq_dec s' s then 1 else 0)%nat.
Proof.
  unfold timesPlayed, playSound; simpl. rewrite count_occ_app. simpl.
  destruct (Sound_eq_dec s' s); reflexivity.
Qed.

Section Ledger.

Context {T : Three}.

Lemma tryInteract_quiet_sounds (c : Component) :
  deposit c = None ->
  (played (tryInteract c) = played c /\ carryingItem (tryInteract c) = carryingItem c) \/
  (carryingItem c = None /\
   (exists item, carryingItem (tryInteract c) = Some item) /\
   played (tryInteract c) = played c ++ [pickupSound]).
Proof.
  unfold deposit, tryInteract.
  destruct (player c) as [p|]; [|tauto].
  destruct (gameState c); try tauto.
  destruct (carryingItem c) as [item|] eqn:Hc.
  - destruct (findNearestBin c (getWorldPosition (heap c) p) binDistance);
      [discriminate|].
    intros _. left. fields. tauto.
  - intros _.
    destruct (findNearestTrash c (getWorldPosition (heap c) p) pickupDistance) as [item|].
    + right. fields. split; [reflexivity|]. split; [exists item; reflexivity | reflexivity].
    + left. fields. tauto.
Qed.

(** What one event does to the books. *)
Lemma step_ledger (e : Event) (c : Component) :
  match depositBy e c with
  | Some d =>
      carryingItem c = Some (fst d) /\
      carryingItem (step e c) = None /\
      played (step e c) = played c ++ [if correct d then correctSound else wrongSound] /\
      score (step e c) = (if correct d then score c + 1 else score c - 1)%Z /\
      recycledCount (step e c)
      = (if correct d then RecycledCount.incr (TrashItem.type (fst d)) (recycledCount c)
         else recycledCount c)
  | None =>
      score (step e c) = score c /\
      recycledCount (step e c) = recycledCount c /\
      ((played (step e c) = played c /\ carryingItem (step e c) = carryingItem c) \/
       (carryingItem c = None /\
        (exists item, carryingItem (step e c) = Some item) /\
        played (step e c) = played c ++ [pickupSound]))
  end.
Proof.
  pose proof (step_effect e c) as H. unfold depositBy in *.
  destruct (interacts e c) eqn:I.
  - rewrite (step_interacts e c I) in *.
    destruct (deposit c) as [[item bin]|] eqn:D.
    + destruct H as (_ & _ & Hn & Hs & Hr & _).
      destruct (tryInteract_deposit_scene c item bin D) as [_ Hp].
      destruct (deposit_inv c item bin D) as (_ & Hc & _).
      cbn [fst]. tauto.
    + destruct H as (Hs & Hr & _).
      split; [exact Hs|]. split; [exact Hr|].
      apply tryInteract_quiet_sounds. exact D.
  - destruct (step_quiet e c I) as (_ & Hc & Hs & Hr & _ & _ & _ & _ & Hp). tauto.
Qed.

Lemma total_incr (k : TrashType) (r : RecycledCount.t) (c : Component) :
  recycledCount c = RecycledCount.incr k r ->
  totalRecycled c
  = (RecycledCount.organico_ r + RecycledCount.reciclable_ r + RecycledCount.general_ r + 1)%Z.
Proof.
  unfold totalRecycled. intros ->. destruct k; simpl; lia.
Qed.

Lemma step_books (e : Event) (c : Component) :
  booksBalance c -> booksBalance (step e c).
Proof.
  unfold booksBalance. intros (Ht & Hs & Hp & Hk).
  pose proof (step_ledger e c) as L.
  assert (P : forall s x, played (step e c) = played c ++ [x] ->
                timesPlayed s (step e c)
                = (timesPlayed s c + if Sound_eq_dec x s then 1 else 0)%nat).
  { intros s x E. unfold timesPlayed. rewrite E, count_occ_app. simpl.
    destruct (Sound_eq_dec x s); reflexivity. }
  destruct (depositBy e c) as [d|].
  - destruct L as (Lc & Ln & Lp & Ls & Lr).
    rewrite !(P _ _ Lp). unfold carriedCount in *. rewrite Ln. rewrite Lc in Hp.
    destruct (correct d).
    + rewrite (total_incr _ _ _ Lr). fold (totalRecycled c).
      simpl. split; [lia|]. split; [lia|]. split; [lia|].
      intros k. rewrite Lr, incr_get. specialize (Hk k).
      destruct (TrashType_eq_dec (TrashItem.type (fst d)) k); lia.
    + unfold totalRecycled in *. rewrite Lr. simpl.
      split; [lia|]. split; [lia|]. split; [lia | exact Hk].
  - destruct L as (Ls & Lr & [[Lp Lc] | (Lc & (item & Li) & Lp)]).
    + unfold timesPlayed, totalRecycled, carriedCount in *.
      rewrite Lp, Lr, Ls, Lc. tauto.
    + rewrite !(P _ _ Lp). unfold totalRecycled, carriedCount in *.
      rewrite Lr, Ls, Li. rewrite Lc in Hp. simpl.
      split; [lia|]. split; [lia|]. split; [lia | exact Hk].
Qed.

(** X13. The books balance. From a state with score 0, every counter 0, no
    sound played and nothing carried, after every sequence of events: the
    three counters add up to the number of correct-deposit sounds played; the
    score is the number of correct-deposit sounds minus the number of
    wrong-deposit sounds; the pickup sounds are as many as the deposit sounds
    plus the item in hand, if any; and no counter is negative. *)
Theorem books_balance (c0 : Component) (es : list Event) :
  score c0 = 0%Z ->
  recycledCount c0 = RecycledCount.mk 0 0 0 ->
  played c0 = [] ->
  carryingItem c0 = None ->
  totalRecycled (run es c0) = Z.of_nat (timesPlayed correctSound (run es c0)) /\
  score (run es c0)
  = (Z.of_nat (timesPlayed correctSound (run es c0))
     - Z.of_nat (timesPlayed wrongSound (run es c0)))%Z /\
  timesPlayed pickupSound (run es c0)
  = (timesPlayed correctSound (run es c0) + timesPlayed wrongSound (run es c0)
     + carriedCount (run es c0))%nat /\
  (forall k, (0 <= RecycledCount.get (recycledCount (run es c0)) k)%Z).
Proof.
  intros Hs Hr Hp Hc.
  assert (B : booksBalance c0).
  { unfold booksBalance, totalRecycled, timesPlayed, carriedCount.
    rewrite Hs, Hr, Hp, Hc. simpl.
    split; [lia|]. split; [lia|]. split; [lia|]. intros k; destruct k; simpl; lia. }
  clear Hs Hr Hp Hc. revert c0 B. induction es as [|e es IH]; intros c B.
  - exact B.
  - rewrite run_cons. apply IH. apply step_books. exact B.
Qed.

End Ledger.

(** ** Frames *)

Section FrameFacts.

Context {T : Three}.

(** The player's object after a frame of play. *)
Lemma animate_player (delta : Q) (c : Component) (p : ObjId) :
  player c = Some p ->
  gameState c = playing ->
  heap (animate delta c) p
  = let o := afterMixer delta c p in
    let rot := Vector3.mk (Vector3.x (Object3D.rotation o))
                          (Vector3.y (Object3D.rotation o) - turn c * rotationSpeed * delta)
                          (Vector3.z (Object3D.rotation o)) in
    Object3D.mk (Object3D.name o) (Object3D.parent o)
      (Vector3.add (Object3D.position o)
         (Vector3.multiplyScalar
            (applyAxisAngle (Vector3.mk 0 0 1) (Vector3.mk 0 1 0) (Vector3.y rot))
            (moveForward c * speed * delta)))
      rot (Object3D.scale o).
Proof.
  intros Hp Hg. unfold animate, afterMixer.
  destruct (playerMixer c) eqn:M;
    do 3 (fields; rewrite ?M, ?Hg, ?Hp);
    destruct (walkAction c) eqn:W; do 2 (fields; rewrite ?W);
    rewrite !update_same; reflexivity.
Qed.

Lemma animate_others (delta : Q) (c : Component) (p o : ObjId) :
  player c = Some p ->
  gameState c = playing ->
  o <> p ->
  heap (animate delta c) o = afterMixer delta c o.
Proof.
  intros Hp Hg No. unfold animate, afterMixer.
  destruct (playerMixer c) eqn:M;
    do 3 (fields; rewrite ?M, ?Hg, ?Hp);
    destruct (walkAction c) eqn:W; do 2 (fields; rewrite ?W);
    rewrite !update_other by exact No; reflexivity.
Qed.

Lemma animate_idle (delta : Q) (c : Component) :
  player c = None \/ gameState c <> playing ->
  heap (animate delta c) = afterMixer delta c.
Proof.
  intros H. unfold animate, afterMixer.
  destruct (playerMixer c) eqn:M, (gameState c) eqn:G, (player c) as [p|] eqn:P;
    try (destruct H; congruence);
    do 3 (fields; rewrite ?M, ?G, ?P); reflexivity.
Qed.

(** X14. A frame moves nothing but the player. Whatever the state and the
    time step, after [animate] every scene object other than the player's is
    as the animation mixer left it, and the player's object keeps its name,
    its parent, its scale and the x and z components of its rotation. *)
Theorem frame_touches_only_the_player (delta : Q) (c : Component) :
  (forall o, player c <> Some o -> heap (animate delta c) o = afterMixer delta c o) /\
  (forall p, player c = Some p ->
     Object3D.name (heap (animate delta c) p) = Object3D.name (afterMixer delta c p) /\
     Object3D.parent (heap (animate delta c) p) = Object3D.parent (afterMixer delta c p) /\
     Object3D.scale (heap (animate delta c) p) = Object3D.scale (afterMixer delta c p) /\
     Vector3.x (Object3D.rotation (heap (animate delta c) p))
     = Vector3.x (Object3D.rotation (afterMixer delta c p)) /\
     Vector3.z (Object3D.rotation (heap (animate delta c) p))
     = Vector3.z (Object3D.rotation (afterMixer delta c p))).
Proof.
  split.
  - intros o N.
    destruct (player c) as [p|] eqn:P;
      [|rewrite animate_idle by (left; exact P); reflexivity].
    destruct (gameState c) eqn:G;
      [|rewrite animate_idle by (right; congruence); reflexivity
       |rewrite animate_idle by (right; congruence); reflexivity].
    apply (animate_others delta c p o P G). congruence.
  - intros p P.
    destruct (gameState c) eqn:G;
      [|rewrite animate_idle by (right; congruence); tauto
       |rewrite animate_idle by (right; congruence); tauto].
    rewrite (animate_player delta c p P G). cbn. tauto.
Qed.

(** X15. A frame at rest. While the game is being played with the player
    loaded, a frame with both intents at 0 leaves the player's position and
    rotation where the animation mixer left them, whatever the time step. *)
Theorem frame_at_rest (delta : Q) (c : Component) (p : ObjId) :
  player c = Some p ->
  gameState c = playing ->
  moveForward c == 0 ->
  turn c == 0 ->
  Vector3.equiv (Object3D.position (heap (animate delta c) p))
                (Object3D.position (afterMixer delta c p)) /\
  Vector3.equiv (Object3D.rotation (heap (animate delta c) p))
                (Object3D.rotation (afterMixer delta c p)).
Proof.
  intros Hp Hg Hm Ht. rewrite (animate_player delta c p Hp Hg).
  generalize (afterMixer delta c p). intros o.
  cbn zeta. cbn [Object3D.position Object3D.rotation].
  unfold Vector3.equiv, Vector3.add, Vector3.multiplyScalar.
  cbn [Vector3.x Vector3.y Vector3.z].
  generalize (applyAxisAngle (Vector3.mk 0 0 1) (Vector3.mk 0 1 0)
                (Vector3.y (Object3D.rotation o) - turn c * rotationSpeed * delta)).
  intros f.
  repeat split; try reflexivity; rewrite ?Hm, ?Ht; ring.
Qed.

(** X16. The walk animation follows the intents. While the game is being
    played with the player and the walk action loaded, and the intents
    holding 1, -1 or 0, a frame leaves the walk action paused exactly when
    both intents are 0. *)
Theorem walk_action_follows_intents (delta : Q) (c : Component) (p : ObjId)
  (a : AnimationAction.t) :
  player c = Some p ->
  gameState c = playing ->
  walkAction c = Some a ->
  isIntent (moveForward c) ->
  isIntent (turn c) ->
  exists a',
    walkAction (animate delta c) = Some a' /\
    (AnimationAction.paused a' = true <-> moveForward c = 0 /\ turn c = 0).
Proof.
  intros Hp Hg Hw Hm Ht. unfold animate.
  destruct (playerMixer c) eqn:M;
    do 3 (fields; rewrite ?M, ?Hg, ?Hp, ?Hw);
    eexists; (split; [reflexivity|]); simpl;
    destruct Hm as [-> | [-> | ->]], Ht as [-> | [-> | ->]]; simpl;
    split; intros H; try discriminate; try tauto;
    destruct H as [H1 H2]; discriminate.
Qed.

(** X17. The hand anchor. Without a player the anchor is the scene; with a
    player it is the first object, in the order [traverse] visits the
    player's subtree, whose name is not empty and contains "hand" in any
    letter case, and the player itself when there is no such object. *)
Theorem hand_anchor_choice (c : Component) :
  (player c = None -> getHandAnchor c = scene c) /\
  (forall p, player c = Some p ->
     (forall o, In o (traverse (heap c) p) -> isHand (heap c) o = false) ->
     getHandAnchor c = p) /\
  (forall p before hand after, player c = Some p ->
     traverse (heap c) p = before ++ hand :: after ->
     (forall o, In o before -> isHand (heap c) o = false) ->
     isHand (heap c) hand = true ->
     getHandAnchor c = hand) /\
  (forall o, isHand (heap c) o = true <->
     Object3D.name (heap c o) <> ""%string /\
     exists n, index 0 "hand" (toLowerCase (Object3D.name (heap c o))) = Some n).
Proof.
  unfold getHandAnchor. split; [|split; [|split]].
  - intros ->. reflexivity.
  - intros p -> Hno.
    destruct (find (isHand (heap c)) (traverse (heap c) p)) as [h|] eqn:F;
      [|reflexivity].
    apply find_some in F. destruct F as [Hin Hh]. rewrite (Hno h Hin) in Hh.
    discriminate.
  - intros p before hand after -> -> Hb Hh.
    induction before as [|b before IH]; simpl.
    + rewrite Hh. reflexivity.
    + rewrite (Hb b) by (left; reflexivity). apply IH.
      intros o Ho. apply Hb. right. exact Ho.
  - intros o. unfold isHand, includes.
    destruct (String.eqb_spec (Object3D.name (heap c o)) "") as [E|E];
      destruct (index 0 "hand" (toLowerCase (Object3D.name (heap c o)))) as [n|];
      simpl; split; intros H; try discriminate; try tauto.
    + split; [exact E | exists n; reflexivity].
    + destruct H as [_ [m H]]. discriminate.
Qed.

End FrameFacts.

(** ** Asset loading *)

Ltac fields' :=
  fields; cbn [set_player set_playerMixer set_bins] in *.

Section LoadingFacts.

Context {T : Three}.

Lemma gameUntouched_refl (c : Component) : gameUntouched c c.
Proof. unfold gameUntouched. tauto. Qed.

Lemma gameUntouched_trans (c c' c'' : Component) :
  gameUntouched c c' -> gameUntouched c' c'' -> gameUntouched c c''.
Proof.
  unfold gameUntouched.
  intros (A1 & A2 & A3 & A4 & A5 & A6 & A7 & A8 & A9 & A10 & A11 & A12)
         (B1 & B2 & B3 & B4 & B5 & B6 & B7 & B8 & B9 & B10 & B11 & B12).
  repeat split; congruence.
Qed.

(** What one spawned instance leaves behind. *)
Lemma loadTrash_instance_frame (cfg : TrashConfig.t) (original : ObjId) (i : Instance.t)
  (c : Component) :
  let c' := loadTrash_instance cfg original i c in
  gameUntouched c c' /\
  trashItems c'
  = trashItems c
      ++ [TrashItem.mk (Instance.trash i) (TrashConfig.type cfg) (TrashConfig.scale cfg)
            (Some (Instance.labelSprite i))] /\
  bins c' = bins c /\ player c' = player c /\
  playerMixer c' = playerMixer c /\ walkAction c' = walkAction c.
Proof.
  unfold loadTrash_instance, gameUntouched. fields. tauto.
Qed.

Lemma loadExtraTrashModels_instance_frame (cfg : ExtraConfig.t) (base : ObjId)
  (i : Instance.t) (c : Component) :
  let c' := loadExtraTrashModels_instance cfg base i c in
  gameUntouched c c' /\
  trashItems c'
  = trashItems c
      ++ [TrashItem.mk (Instance.trash i) (ExtraConfig.type cfg) debugScale
            (Some (Instance.labelSprite i))] /\
  bins c' = bins c /\ player c' = player c /\
  playerMixer c' = playerMixer c /\ walkAction c' = walkAction c.
Proof.
  unfold loadExtraTrashModels_instance, gameUntouched. fields. tauto.
Qed.

(** A loop of spawns appends one item per turn and leaves the rest alone. *)
Lemma spawn_loop_frame (spawn : nat -> Component -> Component) (item : nat -> TrashItem.t)
  (turns : list nat) (c : Component) :
  (forall i c, gameUntouched c (spawn i c) /\
               trashItems (spawn i c) = trashItems c ++ [item i] /\
               bins (spawn i c) = bins c /\ player (spawn i c) = player c /\
               playerMixer (spawn i c) = playerMixer c /\
               walkAction (spawn i c) = walkAction c) ->
  let c' := fold_left (fun c i => spawn i c) turns c in
  gameUntouched c c' /\
  trashItems c' = trashItems c ++ map item turns /\
  bins c' = bins c /\ player c' = player c /\
  playerMixer c' = playerMixer c /\ walkAction c' = walkAction c.
Proof.
  intros H. revert c. induction turns as [|i turns IH]; intros c; simpl.
  - rewrite app_nil_r. split; [apply gameUntouched_refl | tauto].
  - destruct (H i c) as (G & Ht & Hb & Hp & Hm & Hw).
    destruct (IH (spawn i c)) as (G' & Ht' & Hb' & Hp' & Hm' & Hw').
    split; [eapply gameUntouched_trans; eassumption|].
    rewrite Ht', Ht, <- app_assoc. simpl.
    repeat split; congruence.
Qed.

Lemma loadTrash_configs_frame (getObjectByName : string -> option ObjId)
  (instances : string -> nat -> Instance.t) (cfgs : list TrashConfig.t) (c : Component) :
  let c' :=
    fold_left
      (fun c cfg =>
         match getObjectByName (TrashConfig.name cfg) with
         | None => c
         | Some original =>
             fold_left
               (fun c i =>
                  loadTrash_instance cfg original (instances (TrashConfig.name cfg) i) c)
               (seq 0 (TrashConfig.instances cfg)) c
         end)
      cfgs c in
  gameUntouched c c' /\
  trashItems c' = trashItems c ++ flat_map (instancesOf getObjectByName instances) cfgs /\
  bins c' = bins c /\ player c' = player c /\
  playerMixer c' = playerMixer c /\ walkAction c' = walkAction c.
Proof.
  revert c. induction cfgs as [|cfg cfgs IH]; intros c; simpl.
  - rewrite app_nil_r. split; [apply gameUntouched_refl | tauto].
  - unfold instancesOf at 1.
    destruct (getObjectByName (TrashConfig.name cfg)) as [original|].
    + pose proof (spawn_loop_frame
                    (fun i c => loadTrash_instance cfg original
                                  (instances (TrashConfig.name cfg) i) c)
                    (fun i => TrashItem.mk
                                (Instance.trash (instances (TrashConfig.name cfg) i))
                                (TrashConfig.type cfg) (TrashConfig.scale cfg)
                                (Some (Instance.labelSprite
                                         (instances (TrashConfig.name cfg) i))))
                    (seq 0 (TrashConfig.instances cfg)) c
                    (fun i c => loadTrash_instance_frame cfg original _ c)) as S.
      cbv zeta in S. destruct S as (G & Ht & Hb & Hp & Hm & Hw).
      match goal with |- context [fold_left _ cfgs ?x] => destruct (IH x)
        as (G' & Ht' & Hb' & Hp' & Hm' & Hw') end.
      split; [eapply gameUntouched_trans; eassumption|].
      rewrite Ht', Ht, <- app_assoc.
      repeat split; congruence.
    + simpl. apply IH.
Qed.

(** What a loader's callback leaves behind. *)
Lemma arrive_frame (a : Arrival) (c : Component) :
  gameUntouched c (arrive a c) /\
  trashItems (arrive a c) = trashItems c ++ arriving a /\
  bins (arrive a c) = bins c ++ arrivingBins a /\
  match a with
  | PlayerModel model animations =>
      player (arrive a c) = Some model /\
      playerMixer (arrive a c) = true /\
      walkAction (arrive a c)
      = (if (0 <? animations)%nat then Some (AnimationAction.mk true) else walkAction c)
  | _ =>
      player (arrive a c) = player c /\
      playerMixer (arrive a c) = playerMixer c /\
      walkAction (arrive a c) = walkAction c
  end.
Proof.
  destruct a as [model animations | cfg model | g instances | cfg base instances];
    cbn [arrive arriving arrivingBins]; rewrite ?app_nil_r.
  - unfold loadPlayerModel_onLoad, gameUntouched.
    destruct (0 <? animations)%nat; fields'; tauto.
  - unfold loadBins_onLoad, gameUntouched. fields'. tauto.
  - pose proof (loadTrash_configs_frame g instances trashConfigs c) as H.
    cbv zeta in H. fold (loadTrash_onLoad g instances c) in H.
    destruct H as (G & Ht & Hb & Hp & Hm & Hw). tauto.
  - pose proof (spawn_loop_frame
                  (fun i c => loadExtraTrashModels_instance cfg base (instances i) c)
                  (fun i => TrashItem.mk (Instance.trash (instances i))
                              (ExtraConfig.type cfg) debugScale
                              (Some (Instance.labelSprite (instances i))))
                  (seq 0 (ExtraConfig.instances cfg)) c
                  (fun i c => loadExtraTrashModels_instance_frame cfg base _ c)) as S.
    cbv zeta in S. fold (loadExtraTrashModels_onLoad cfg base instances c) in S.
    destruct S as (G & Ht & Hb & Hp & Hm & Hw). tauto.
Qed.

(** X18. Loading only adds. Whenever a loader's callback fires, whatever the
    state of the game: the floor set gains the arriving items at its end, in
    order (none for a player or bin model, none for a trash model the file
    does not contain); the bin list gains the arriving bin at its end; the
    player, its mixer and its walk action change only on the player model's
    arrival, the walk action starting out paused; and the score, the
    counters, the carry slot, the game state, the intents, the menus, the HUD
    message and the sounds played are left as they are. *)
Theorem loading_only_adds (a : Arrival) (c : Component) :
  gameUntouched c (arrive a c) /\
  trashItems (arrive a c) = trashItems c ++ arriving a /\
  bins (arrive a c) = bins c ++ arrivingBins a /\
  match a with
  | PlayerModel model animations =>
      player (arrive a c) = Some model /\
      playerMixer (arrive a c) = true /\
      walkAction (arrive a c)
      = (if (0 <? animations)%nat then Some (AnimationAction.mk true) else walkAction c)
  | _ =>
      player (arrive a c) = player c /\
      playerMixer (arrive a c) = playerMixer c /\
      walkAction (arrive a c) = walkAction c
  end.
Proof. exact (arrive_frame a c). Qed.

(** *** Where the instances land, and their labels *)

Lemma new_same (o : ObjId) (h : Heap) :
  Object3D_new o h o
  = Object3D.mk "" None (Vector3.mk 0 0 0) (Vector3.mk 0 0 0) (Vector3.mk 1 1 1).
Proof. unfold Object3D_new. destruct (Nat.eq_dec o o); [reflexivity | congruence]. Qed.

Lemma new_other (o o' : ObjId) (h : Heap) : o' <> o -> Object3D_new o h o' = h o'.
Proof. intros N. unfold Object3D_new. destruct (Nat.eq_dec o' o); [congruence | reflexivity]. Qed.


Lemma add_keeps_position (anchor o : ObjId) (h : Heap) :
  Object3D.position (Object3D_add anchor o h o) = Object3D.position (h o).
Proof.
  unfold Object3D_add. destruct (Nat.eq_dec o anchor); [reflexivity|].
  rewrite update_same. reflexivity.
Qed.



(** X20. A label keeps its size, up to rounding. Take an instance of an
    item whose scale [s] is not 0, with the clone and its label different
    objects, and let the label's arithmetic at [s] (the reciprocal of [s]
    and its products by 20, 8 and 25) be accurate to the relative error
    [u]. Then the label is linked under the clone; the clone's local scale
    times the label's local scale is 20 by 8 up to the relative error
    [u + u + u * u], and [s] in depth; and the clone's scale times the
    label's offset is 25 straight up, up to the same error. So seen from the
    scene every label has the same size and height above its item, whatever
    the item's scale, and exactly so where the arithmetic is exact. The same
    holds of the extra models at their scale of 5. *)
Theorem label_keeps_its_size (i : Instance.t) (c : Component) (u : Q) :
  Instance.trash i <> Instance.labelSprite i ->
  0 <= u ->
  (forall cfg original,
     ~ TrashConfig.scale cfg == 0 ->
     labelArithmetic u (TrashConfig.scale cfg) ->
     let h := heap (loadTrash_instance cfg original i c) in
     let size := Vector3.multiply (Object3D.scale (h (Instance.trash i)))
                   (Object3D.scale (h (Instance.labelSprite i))) in
     let offset := Vector3.multiply (Object3D.scale (h (Instance.trash i)))
                     (Object3D.position (h (Instance.labelSprite i))) in
     Object3D.parent (h (Instance.labelSprite i)) = Some (Instance.trash i) /\
     within (u + u + u * u) (Vector3.x size) 20 /\
     within (u + u + u * u) (Vector3.y size) 8 /\
     Vector3.z size == TrashConfig.scale cfg /\
     Vector3.x offset == 0 /\
     within (u + u + u * u) (Vector3.y offset) 25 /\
     Vector3.z offset == 0) /\
  (forall cfg base,
     labelArithmetic u debugScale ->
     let h := heap (loadExtraTrashModels_instance cfg base i c) in
     let size := Vector3.multiply (Object3D.scale (h (Instance.trash i)))
                   (Object3D.scale (h (Instance.labelSprite i))) in
     let offset := Vector3.multiply (Object3D.scale (h (Instance.trash i)))
                     (Object3D.position (h (Instance.labelSprite i))) in
     Object3D.parent (h (Instance.labelSprite i)) = Some (Instance.trash i) /\
     within (u + u + u * u) (Vector3.x size) 20 /\
     within (u + u + u * u) (Vector3.y size) 8 /\
     Vector3.z size == debugScale /\
     Vector3.x offset == 0 /\
     within (u + u + u * u) (Vector3.y offset) 25 /\
     Vector3.z offset == 0).
Proof.
  intros N Hu.
  assert (N' : Instance.labelSprite i <> Instance.trash i) by congruence.
  split.
  - intros cfg original S (A & B20 & B8 & B25) h size offset.
    subst size offset h. unfold loadTrash_instance. fields.
    rewrite (add_keeps_scale (scene c)).
    rewrite !(add_other (scene c) _ _ _ N').
    rewrite !update_same, !(update_other _ _ _ _ N').
    rewrite (add_other _ _ _ _ N), !(update_other _ _ _ _ N), (new_other _ _ _ N).
    rewrite !update_same.
    split; [apply add_links; exact N'|].
    rewrite add_keeps_scale, add_keeps_position, !update_same.
    unfold Vector3.multiply, labelScale, labelPosition.
    cbn [Vector3.x Vector3.y Vector3.z Object3D.scale Object3D.position
         Object3D.set_scale Object3D.set_position].
    split; [exact (within_scaled_back _ _ _ _ _ S Hu A B20)|].
    split; [exact (within_scaled_back _ _ _ _ _ S Hu A B8)|].
    split; [ring|]. split; [ring|].
    split; [exact (within_scaled_back _ _ _ _ _ S Hu A B25)|]. ring.
  - intros cfg base (A & B20 & B8 & B25) h size offset.
    assert (S : ~ debugScale == 0) by (unfold debugScale; discriminate).
    subst size offset h. unfold loadExtraTrashModels_instance. fields.
    rewrite (add_keeps_scale (scene c)).
    rewrite !(add_other (scene c) _ _ _ N').
    rewrite (add_other _ _ _ _ N), !(update_other _ _ _ _ N), (new_other _ _ _ N).
    rewrite !update_same.
    split; [apply add_links; exact N'|].
    rewrite add_keeps_scale, add_keeps_position, !update_same.
    unfold Vector3.multiply, labelScale, labelPosition.
    cbn [Vector3.x Vector3.y Vector3.z Object3D.scale Object3D.position
         Object3D.set_scale Object3D.set_position].
    split; [exact (within_scaled_back _ _ _ _ _ S Hu A B20)|].
    split; [exact (within_scaled_back _ _ _ _ _ S Hu A B8)|].
    split; [ring|]. split; [ring|].
    split; [exact (within_scaled_back _ _ _ _ _ S Hu A B25)|]. ring.
Qed.

End LoadingFacts.

(** *** The bins *)

Lemma binConfigs_by_type (a b : BinConfig.t) :
  In a binConfigs -> In b binConfigs -> BinConfig.type a = BinConfig.type b -> a = b.
Proof.
  unfold binConfigs.
  intros [<- | [<- | [<- | []]]] [<- | [<- | [<- | []]]] E;
    try reflexivity; discriminate E.
Qed.

Lemma square_nonneg (x : Q) : 0 <= x * x.
Proof.
  destruct (Qlt_le_dec x 0) as [H | H].
  - setoid_replace (x * x) with ((- x) * (- x)) by ring.
    apply Qmult_le_0_compat; lra.
  - apply Qmult_le_0_compat; exact H.
Qed.

(** No point is within the bin distance, squared distances compared, of the
    places of two different bins. *)
Lemma binConfigs_far_apart (a b : BinConfig.t) (p : Vector3.t) :
  In a binConfigs -> In b binConfigs ->
  Vector3.distanceToSquared (BinConfig.position a) p < binDistance * binDistance ->
  Vector3.distanceToSquared (BinConfig.position b) p < binDistance * binDistance ->
  a = b.
Proof.
  unfold binConfigs, binDistance, Vector3.distanceToSquared. destruct p as [px py pz].
  pose proof (square_nonneg (0 - py)) as Sy.
  pose proof (square_nonneg (200 - pz)) as Sz.
  intros [<- | [<- | [<- | []]]] [<- | [<- | [<- | []]]];
    cbn [BinConfig.position Vector3.x Vector3.y Vector3.z]; intros H1 H2;
    try reflexivity; exfalso;
    match type of H1 with
    | (?a - px) * _ + _ + _ < _ =>
        match type of H2 with
        | (?b - px) * _ + _ + _ < _ =>
            pose proof (square_nonneg ((a - px) + (b - px))) as S
        end
    end;
    lra.
Qed.

Section BinFacts.

Context {T : Three}.

Lemma tryInteract_keeps_bins (c : Component) :
  bins (tryInteract c) = bins c /\ player (tryInteract c) = player c.
Proof.
  unfold tryInteract.
  repeat break_match; fields; try tauto;
    match goal with |- context [checkGameState ?x] =>
      destruct (checkGameState_frame x) as (_ & _ & _ & _ & _ & Fp & Fb & _);
      rewrite Fp, Fb; fields; split; [reflexivity | congruence]
    end.
Qed.

Lemma step_keeps_bins (e : Event) (c : Component) :
  bins (step e c) = bins c /\ player (step e c) = player c.
Proof.
  destruct (interacts e c) eqn:I.
  - rewrite (step_interacts e c I). apply tryInteract_keeps_bins.
  - destruct (step_quiet e c I) as (_ & _ & _ & _ & _ & Hb & Hp & _). tauto.
Qed.

Lemma session_cons (i : Input) (inputs : list Input) (c : Component) :
  session (i :: inputs) c = session inputs (handle i c).
Proof. reflexivity. Qed.

Lemma session_bins (inputs : list Input) (c : Component) :
  map Bin.type (bins (session inputs c))
  = map Bin.type (bins c) ++ map BinConfig.type (binsArrived inputs).
Proof.
  revert c. induction inputs as [|i inputs IH]; intros c.
  - simpl. rewrite app_nil_r. reflexivity.
  - rewrite session_cons, IH. destruct i as [e | a]; cbn [handle binsArrived].
    + destruct (step_keeps_bins e c) as [-> _]. reflexivity.
    + destruct (arrive_frame a c) as (_ & _ & -> & _).
      destruct a; cbn [arrivingBins]; rewrite ?app_nil_r; try reflexivity.
      rewrite map_app, <- app_assoc. reflexivity.
Qed.

(** X21. One bin per category. Starting without bins, however the events
    and the arriving assets interleave, in whatever order the bin models
    arrive and whichever of them fail to, as long as each configured bin
    arrives at most once: the bins registered are those that arrived, in
    that order, no two of them have the same category, and there are at most
    three. *)
Theorem one_bin_per_category (inputs : list Input) (c0 : Component) :
  bins c0 = [] ->
  NoDup (binsArrived inputs) ->
  incl (binsArrived inputs) binConfigs ->
  map Bin.type (bins (session inputs c0)) = map BinConfig.type (binsArrived inputs) /\
  NoDup (map Bin.type (bins (session inputs c0))) /\
  (length (bins (session inputs c0)) <= 3)%nat.
Proof.
  intros Hb Hnd Hin.
  pose proof (session_bins inputs c0) as S. rewrite Hb in S. simpl in S.
  split; [exact S|]. split.
  - rewrite S. apply NoDup_map_NoDup_ForallPairs; [|exact Hnd].
    intros a b Ha Hb' E. apply binConfigs_by_type; auto.
  - rewrite <- (length_map Bin.type), S, length_map.
    change 3%nat with (length binConfigs).
    apply NoDup_incl_length; assumption.
Qed.

(** X22. The bins' ranges never overlap. Let the square root be sound at the
    bin distance (a root below 70 means a radicand below 4900) and let every
    bin stand, in world coordinates, where [loadBins] places a bin of its
    category. Then, wherever the player is, any two bins within the bin
    distance have the same category; so the bin [findNearestBin] returns has
    the category of every bin in range, and whether a deposit is correct
    does not depend on the order of the bin list. *)
Theorem bin_ranges_never_overlap (c : Component) (playerPos : Vector3.t) :
  (forall q, Math_sqrt q < binDistance -> q < binDistance * binDistance) ->
  (forall b, In b (bins c) ->
     exists cfg, In cfg binConfigs /\
                 Bin.type b = BinConfig.type cfg /\
                 getWorldPosition (heap c) (Bin.object b) = BinConfig.position cfg) ->
  (forall b b', In b (bins c) -> In b' (bins c) ->
     distanceOfBin c playerPos b < binDistance ->
     distanceOfBin c playerPos b' < binDistance ->
     Bin.type b = Bin.type b') /\
  (forall b b', findNearestBin c playerPos binDistance = Some b ->
     In b' (bins c) ->
     distanceOfBin c playerPos b' < binDistance ->
     Bin.type b' = Bin.type b).
Proof.
  intros Hsqrt Hplace.
  assert (A : forall b b', In b (bins c) -> In b' (bins c) ->
     distanceOfBin c playerPos b < binDistance ->
     distanceOfBin c playerPos b' < binDistance ->
     Bin.type b = Bin.type b').
  { intros b b' Hb Hb' D D'.
    destruct (Hplace b Hb) as (cfg & Hc & Ht & Hp).
    destruct (Hplace b' Hb') as (cfg' & Hc' & Ht' & Hp').
    unfold distanceOfBin, distanceTo in D, D'. rewrite Hp in D. rewrite Hp' in D'.
    apply Hsqrt in D. apply Hsqrt in D'.
    rewrite Ht, Ht'. f_equal. eapply binConfigs_far_apart; eassumption. }
  split; [exact A|].
  intros b b' F Hb' D'.
  rewrite findNearestBin_scan in F.
  pose proof (scan_result _ (distanceOfBin c playerPos) (bins c) binDistance) as R.
  rewrite F in R. destruct R as (before & after & E & D & _).
  apply A; try assumption. rewrite E. apply in_elt.
Qed.

End BinFacts.

(** *** How many items arrive *)

Section ArrivalFacts.

Context {T : Three}.

Lemma arriving_trash_length (g : string -> option ObjId)
  (instances : string -> nat -> Instance.t) (cfgs : list TrashConfig.t) :
  Forall (fun cfg => TrashConfig.instances cfg = 2%nat) cfgs ->
  length (flat_map (instancesOf g instances) cfgs)
  = (2 * length (filter (hasModel g) cfgs))%nat.
Proof.
  induction 1 as [|cfg cfgs H _ IH]; [reflexivity|].
  simpl. rewrite length_app, IH. unfold hasModel, instancesOf.
  destruct (g (TrashConfig.name cfg)).
  - rewrite length_map, length_seq, H. cbn [length]. lia.
  - cbn [length]. lia.
Qed.

Lemma arriving_trash_types (g : string -> option ObjId)
  (instances : string -> nat -> Instance.t) (cfgs : list TrashConfig.t) :
  Forall (fun cfg => hasModel g cfg = true) cfgs ->
  map TrashItem.type (flat_map (instancesOf g instances) cfgs)
  = flat_map (fun cfg => repeat (TrashConfig.type cfg) (TrashConfig.instances cfg)) cfgs.
Proof.
  induction 1 as [|cfg cfgs H _ IH]; [reflexivity|].
  simpl. rewrite map_app, IH. f_equal.
  unfold hasModel in H. unfold instancesOf.
  destruct (g (TrashConfig.name cfg)); [|discriminate].
  rewrite map_map. cbn [TrashItem.type].
  generalize 0%nat. induction (TrashConfig.instances cfg) as [|n IHn]; intros k;
    [reflexivity|]. simpl. f_equal. apply IHn.
Qed.

(** X23. Two instances per model found. Out of the file [loadTrash] loads,
    every configured model that is found yields exactly two items and every
    model that is missing yields none, without keeping the others from
    loading; with all eleven models found there are 22 items: 4 organic, 8
    general and 10 recyclable. *)
Theorem loadTrash_two_per_model_found
  (getObjectByName : string -> option ObjId) (instances : string -> nat -> Instance.t)
  (c : Component) :
  trashItems (loadTrash_onLoad getObjectByName instances c)
  = trashItems c ++ arriving (TrashModels getObjectByName instances) /\
  length (arriving (TrashModels getObjectByName instances))
  = (2 * length (filter (hasModel getObjectByName) trashConfigs))%nat /\
  ((forall cfg, In cfg trashConfigs -> getObjectByName (TrashConfig.name cfg) = None) ->
   arriving (TrashModels getObjectByName instances) = []) /\
  ((forall cfg, In cfg trashConfigs -> getObjectByName (TrashConfig.name cfg) <> None) ->
   length (arriving (TrashModels getObjectByName instances)) = 22%nat /\
   countOfType organico (arriving (TrashModels getObjectByName instances)) = 4%nat /\
   countOfType general (arriving (TrashModels getObjectByName instances)) = 8%nat /\
   countOfType reciclable (arriving (TrashModels getObjectByName instances)) = 10%nat).
Proof.
  assert (F2 : Forall (fun cfg => TrashConfig.instances cfg = 2%nat) trashConfigs)
    by (repeat constructor).
  split.
  { destruct (arrive_frame (TrashModels getObjectByName instances) c) as (_ & H & _).
    exact H. }
  split; [apply arriving_trash_length; exact F2|].
  split.
  - intros Hnone. cbn [arriving].
    assert (G : forall cfgs, incl cfgs trashConfigs ->
              flat_map (instancesOf getObjectByName instances) cfgs = []).
    { induction cfgs as [|cfg cfgs IH]; intros I; [reflexivity|].
      simpl. unfold instancesOf at 1.
      rewrite (Hnone cfg) by (apply I; left; reflexivity).
      apply IH. intros x Hx. apply I. right. exact Hx. }
    apply G. apply incl_refl.
  - intros Hall.
    assert (Fa : Forall (fun cfg => hasModel getObjectByName cfg = true) trashConfigs).
    { apply Forall_forall. intros cfg Hin. unfold hasModel.
      specialize (Hall cfg Hin).
      destruct (getObjectByName (TrashConfig.name cfg)); congruence. }
    split.
    + cbn [arriving]. rewrite arriving_trash_length by exact F2.
      rewrite forallb_filter_id; [reflexivity|].
      apply forallb_forall. apply Forall_forall. exact Fa.
    + unfold countOfType. cbn [arriving].
      rewrite arriving_trash_types by exact Fa. repeat split; reflexivity.
Qed.

End ArrivalFacts.

(** ** Sessions *)

Lemma object_injective (l : list TrashItem.t) (x y : TrashItem.t) :
  NoDup (map TrashItem.object l) ->
  In x l -> In y l -> TrashItem.object x = TrashItem.object y -> x = y.
Proof.
  induction l as [|a l IH]; intros Hn Hx Hy E; [destruct Hx|].
  simpl in Hn. inversion Hn as [|? ? Ha Hn']; subst.
  destruct Hx as [<- | Hx], Hy as [<- | Hy].
  - reflexivity.
  - exfalso. apply Ha. rewrite E. apply in_map. exact Hy.
  - exfalso. apply Ha. rewrite <- E. apply in_map. exact Hx.
  - apply IH; assumption.
Qed.

Lemma handles_pickup (item : TrashItem.t) (l : list TrashItem.t) :
  NoDup (map TrashItem.object l) ->
  In item l ->
  NoDup (map TrashItem.object (removeItem item l) ++ [TrashItem.object item]).
Proof.
  intros Hnd Hin. apply NoDup_app.
  - apply NoDup_map_NoDup_ForallPairs.
    + intros x y Hx Hy E. apply removeItem_In in Hx, Hy.
      apply (object_injective l); tauto.
    + apply removeItem_NoDup. apply (NoDup_map_inv _ _ Hnd).
  - constructor; [intros [] | constructor].
  - intros o Ho [<- | []].
    apply in_map_iff in Ho. destruct Ho as (x & Ex & Hx).
    apply removeItem_In in Hx. destruct Hx as [Hx Nx]. apply Nx.
    apply (object_injective l); assumption.
Qed.

Section SessionFacts.

Context {T : Three}.

Lemma step_handles (e : Event) (c : Component) :
  NoDup (itemHandles c) -> NoDup (itemHandles (step e c)).
Proof.
  unfold itemHandles. intros H.
  pose proof (step_effect e c) as E.
  destruct (depositBy e c) as [d|].
  - destruct E as (_ & -> & -> & _). rewrite app_nil_r.
    apply NoDup_app_remove_r in H. exact H.
  - destruct E as (_ & _ & _ & [[-> ->] | (item & Hnone & Hitem & -> & ->)]).
    + exact H.
    + rewrite Hnone, app_nil_r in H. apply handles_pickup; assumption.
Qed.

Lemma arrive_handles (a : Arrival) (c : Component) :
  NoDup (itemHandles c ++ map TrashItem.object (arriving a)) ->
  NoDup (itemHandles (arrive a c)).
Proof.
  unfold itemHandles.
  destruct (arrive_frame a c) as ((_ & _ & _ & _ & -> & _) & -> & _).
  rewrite map_app. apply Permutation_NoDup.
  rewrite <- !app_assoc. apply Permutation_app_head. apply Permutation_app_comm.
Qed.

Lemma handle_bounds (i : Input) (c : Component) :
  scoreInBounds c -> scoreInBounds (handle i c).
Proof.
  destruct i as [e | a]; cbn [handle]; [apply step_bounds|].
  unfold scoreInBounds.
  destruct (arrive_frame a c) as ((_ & _ & _ & _ & _ & _ & -> & -> & _) & _).
  tauto.
Qed.

(** X24. The score bounds hold through loading. From score 0 in the playing
    state, as the constructor leaves them, however the user's events and the
    arriving assets interleave, the score stays between -2 and 5: strictly inside while the
    game is being played, 5 once it is won and -2 once it is lost. *)
Theorem score_bounds_through_loading (inputs : list Input) (c0 : Component) :
  score c0 = 0%Z ->
  gameState c0 = playing ->
  (-2 <= score (session inputs c0) <= 5)%Z /\
  match gameState (session inputs c0) with
  | playing => (-2 < score (session inputs c0) < 5)%Z
  | win => score (session inputs c0) = 5%Z
  | lose => score (session inputs c0) = (-2)%Z
  end.
Proof.
  intros Hs Hg.
  assert (B : scoreInBounds c0) by (unfold scoreInBounds; rewrite Hg, Hs; lia).
  clear Hs Hg.
  assert (B' : scoreInBounds (session inputs c0)).
  { revert c0 B. induction inputs as [|i inputs IH]; intros c B; [exact B|].
    rewrite session_cons. apply IH. apply handle_bounds. exact B. }
  split; [|exact B'].
  unfold scoreInBounds in B'. destruct (gameState (session inputs c0)); lia.
Qed.

(** X25. No two items share a scene object. From a state in which the items
    in play sit on pairwise different objects (as when there are none yet),
    and with every arrival bringing clones that are new, however events and
    arrivals interleave: the items on the floor and the carried one still sit
    on pairwise different objects, so the floor set has no duplicates and the
    carried item's object belongs to no item on the floor. *)
Theorem items_never_share_an_object (inputs : list Input) (c0 : Component) :
  NoDup (itemHandles c0) ->
  clonesAreNew inputs c0 ->
  NoDup (itemHandles (session inputs c0)) /\
  NoDup (trashItems (session inputs c0)) /\
  (forall item x,
     carryingItem (session inputs c0) = Some item ->
     In x (trashItems (session inputs c0)) ->
     TrashItem.object x <> TrashItem.object item).
Proof.
  intros H A.
  assert (N : NoDup (itemHandles (session inputs c0))).
  { revert c0 H A. induction inputs as [|i inputs IH]; intros c H A; [exact H|].
    rewrite session_cons. destruct A as [A1 A2]. apply IH; [|exact A2].
    destruct i as [e | a]; cbn [handle].
    - apply step_handles. exact H.
    - apply arrive_handles. exact A1. }
  split; [exact N|]. unfold itemHandles in N. split.
  - apply NoDup_app_remove_r in N. apply (NoDup_map_inv _ _ N).
  - intros item x Hc Hx E. rewrite Hc in N.
    apply NoDup_remove_2 in N. rewrite app_nil_r in N. apply N.
    rewrite <- E. apply in_map. exact Hx.
Qed.

End SessionFacts.

(** ** The further theorems at work on the concrete scenes *)

Ltac by_computation := vm_compute; reflexivity.

Lemma exact_sqrt_sound (q : Q) :
  exact_sqrt q < binDistance -> q < binDistance * binDistance.
Proof.
  unfold exact_sqrt, binDistance, Qlt. destruct q as [n d].
  cbn [Qnum Qden Qmult]. rewrite Z.mul_1_r. intros H.
  change (Z.pos (1 * 1)) with 1%Z. rewrite Z.mul_1_r.
  assert (P : (0 < Z.pos d)%Z) by apply Pos2Z.is_pos.
  destruct (Z.lt_ge_cases n 0) as [Hn | Hn]; [nia|].
  apply Z.sqrt_lt_square in H; nia.
Qed.

Lemma fivePeels_NoDup : NoDup (trashItems (yard fivePeels)).
Proof.
  repeat (constructor; [simpl; intuition discriminate|]). constructor.
Defined.


(** X4 on the left arrow key. *)
Lemma key_tap_at_rest_witness :
  toLowerCase "ArrowLeft" <> "e" /\
  moveForward demoGame = 0 /\
  turn demoGame = 0 /\
  @onKeyUp "ArrowLeft" (@onKeyDown flatScene "ArrowLeft" demoGame) = demoGame.
Proof.
  assert (N : toLowerCase "ArrowLeft" <> "e") by (vm_compute; discriminate).
  split; [exact N|]. split; [reflexivity|]. split; [reflexivity|].
  apply (@key_tap_at_rest flatScene "ArrowLeft" demoGame N eq_refl eq_refl).
Defined.

(** X5 on the short walk. *)
Lemma intents_stay_in_range_witness :
  isIntent (moveForward demoGame) /\
  isIntent (turn demoGame) /\
  isIntent (moveForward (@run flatScene shortWalk demoGame)) /\
  isIntent (turn (@run flatScene shortWalk demoGame)).
Proof.
  assert (Z : isIntent 0) by (right; right; reflexivity).
  split; [exact Z|]. split; [exact Z|].
  apply (@intents_stay_in_range flatScene demoGame shortWalk Z Z).
Defined.

(** X6 on the yard once the five peels are recycled. *)
Lemma finished_game_is_frozen_witness :
  gameState (yard fivePeels) = playing /\
  gameState (@run flatScene (repeat Interact 10) (yard fivePeels)) <> playing /\
  moveForward (@run flatScene (repeat Interact 10) (yard fivePeels)) = 0 /\
  turn (@run flatScene (repeat Interact 10) (yard fivePeels)) = 0.
Proof.
  assert (N : gameState (@run flatScene (repeat Interact 10) (yard fivePeels)) <> playing)
    by (vm_compute; discriminate).
  split; [reflexivity|]. split; [exact N|].
  destruct (@finished_game_is_frozen flatScene (yard fivePeels) (repeat Interact 10)
              eq_refl N) as (Hm & Ht & _).
  split; [exact Hm | exact Ht].
Defined.

(** X7 on the yard once two wrappers went into the organic bin. *)
Lemma hud_tells_the_game_state_witness :
  gameState (yard twoWrappers) = playing /\
  showWinMenu (yard twoWrappers) = false /\
  showLoseMenu (yard twoWrappers) = false /\
  (showLoseMenu (@run flatScene (repeat Interact 4) (yard twoWrappers)) = true <->
   gameState (@run flatScene (repeat Interact 4) (yard twoWrappers)) = lose).
Proof.
  split; [reflexivity|]. split; [reflexivity|]. split; [reflexivity|].
  destruct (@hud_tells_the_game_state flatScene (yard twoWrappers) (repeat Interact 4)
              eq_refl eq_refl eq_refl) as (_ & H & _).
  exact H.
Defined.


(** X9 on the first pickup of the demo scene. *)
Lemma pickup_moves_one_item_witness :
  player demoGame = Some 1%nat /\
  gameState demoGame = playing /\
  carryingItem demoGame = None /\
  @findNearestTrash flatScene demoGame
    (@getWorldPosition flatScene (heap demoGame) 1%nat) pickupDistance = Some bananaA /\
  carryingItem (@tryInteract flatScene demoGame) = Some bananaA /\
  trashItems (@tryInteract flatScene demoGame) = removeItem bananaA (trashItems demoGame).
Proof.
  assert (F : @findNearestTrash flatScene demoGame
                (@getWorldPosition flatScene (heap demoGame) 1%nat) pickupDistance
              = Some bananaA) by by_computation.
  split; [reflexivity|]. split; [reflexivity|]. split; [reflexivity|].
  split; [exact F|].
  destruct (@pickup_moves_one_item flatScene demoGame 1%nat bananaA eq_refl eq_refl
              eq_refl F) as (H1 & H2 & _).
  split; [exact H1 | exact H2].
Defined.

(** X10 on a peel carried to the organic bin. *)
Lemma deposit_uses_the_item_up_witness :
  player carryingPeel = Some 1%nat /\
  gameState carryingPeel = playing /\
  carryingItem carryingPeel = Some (peel 0) /\
  @findNearestBin flatScene carryingPeel
    (@getWorldPosition flatScene (heap carryingPeel) 1%nat) binDistance
  = Some (Bin.mk 10%nat organico) /\
  carryingItem (@tryInteract flatScene carryingPeel) = None /\
  Object3D.parent (heap (@tryInteract flatScene carryingPeel) (TrashItem.object (peel 0)))
  = None.
Proof.
  assert (Hp : player carryingPeel = Some 1%nat) by by_computation.
  assert (Hg : gameState carryingPeel = playing) by by_computation.
  assert (Hc : carryingItem carryingPeel = Some (peel 0)) by by_computation.
  assert (Hb : @findNearestBin flatScene carryingPeel
                 (@getWorldPosition flatScene (heap carryingPeel) 1%nat) binDistance
               = Some (Bin.mk 10%nat organico)) by by_computation.
  split; [exact Hp|]. split; [exact Hg|]. split; [exact Hc|]. split; [exact Hb|].
  destruct (@deposit_uses_the_item_up flatScene carryingPeel 1%nat (peel 0)
              (Bin.mk 10%nat organico) Hp Hg Hc Hb) as (H1 & _ & H3 & _).
  split; [exact H1 | exact H3].
Defined.

(** X11 on the yard, five interactions in. *)
Lemma items_are_conserved_witness :
  NoDup (trashItems (yard fivePeels)) /\
  carryingItem (yard fivePeels) = None /\
  (length (trashItems (@run flatScene (repeat Interact 5) (yard fivePeels)))
   + carriedCount (@run flatScene (repeat Interact 5) (yard fivePeels))
   + length (@deposits flatScene (repeat Interact 5) (yard fivePeels))
   = length (trashItems (yard fivePeels)))%nat.
Proof.
  split; [exact fivePeels_NoDup|]. split; [reflexivity|].
  apply (@items_are_conserved flatScene (yard fivePeels) (repeat Interact 5)
           fivePeels_NoDup eq_refl).
Defined.

(** X12 on the yard with its five peels. *)
Lemma outcome_needs_enough_items_witness :
  score (yard fivePeels) = 0%Z /\
  gameState (yard fivePeels) = playing /\
  NoDup (trashItems (yard fivePeels)) /\
  carryingItem (yard fivePeels) = None /\
  (gameState (@run flatScene (repeat Interact 10) (yard fivePeels)) = win ->
   (5 <= length (trashItems (yard fivePeels)))%nat).
Proof.
  split; [reflexivity|]. split; [reflexivity|]. split; [exact fivePeels_NoDup|].
  split; [reflexivity|].
  destruct (@outcome_needs_enough_items flatScene (yard fivePeels) (repeat Interact 10)
              eq_refl eq_refl fivePeels_NoDup eq_refl) as (_ & H & _).
  exact H.
Defined.

(** X13 on the yard, seven interactions in. *)
Lemma books_balance_witness :
  score (yard fivePeels) = 0%Z /\
  recycledCount (yard fivePeels) = RecycledCount.mk 0 0 0 /\
  played (yard fivePeels) = [] /\
  carryingItem (yard fivePeels) = None /\
  totalRecycled (@run flatScene (repeat Interact 7) (yard fivePeels))
  = Z.of_nat (timesPlayed correctSound (@run flatScene (repeat Interact 7) (yard fivePeels))).
Proof.
  split; [reflexivity|]. split; [reflexivity|]. split; [reflexivity|].
  split; [reflexivity|].
  destruct (@books_balance flatScene (yard fivePeels) (repeat Interact 7)
              eq_refl eq_refl eq_refl eq_refl) as (H & _).
  exact H.
Defined.

(** X15 on a frame of 16 milliseconds in the demo scene. *)
Lemma frame_at_rest_witness :
  player demoGame = Some 1%nat /\
  gameState demoGame = playing /\
  moveForward demoGame == 0 /\
  turn demoGame == 0 /\
  Vector3.equiv (Object3D.position (heap (@animate flatScene 0.016 demoGame) 1%nat))
                (Object3D.position (@afterMixer flatScene 0.016 demoGame 1%nat)).
Proof.
  assert (Z : (0 : Q) == 0) by reflexivity.
  split; [reflexivity|]. split; [reflexivity|]. split; [exact Z|]. split; [exact Z|].
  destruct (@frame_at_rest flatScene 0.016 demoGame 1%nat eq_refl eq_refl Z Z) as (H & _).
  exact H.
Defined.

(** X16 on the same frame. *)
Lemma walk_action_follows_intents_witness :
  player demoGame = Some 1%nat /\
  gameState demoGame = playing /\
  walkAction demoGame = Some (AnimationAction.mk true) /\
  isIntent (moveForward demoGame) /\
  isIntent (turn demoGame) /\
  exists a',
    walkAction (@animate flatScene 0.016 demoGame) = Some a' /\
    (AnimationAction.paused a' = true <-> moveForward demoGame = 0 /\ turn demoGame = 0).
Proof.
  assert (Z : isIntent 0) by (right; right; reflexivity).
  split; [reflexivity|]. split; [reflexivity|]. split; [reflexivity|].
  split; [exact Z|]. split; [exact Z|].
  apply (@walk_action_follows_intents flatScene 0.016 demoGame 1%nat
           (AnimationAction.mk true) eq_refl eq_refl eq_refl Z Z).
Defined.


(** X20 on an instance of the banana in binary64 arithmetic: the label's
    arithmetic is accurate to the unit roundoff, and the clone's scale times
    the label's offset is 25 up to twice the unit roundoff and its square,
    though not 25 itself. *)
Lemma label_keeps_its_size_witness :
  let h := heap (@loadTrash_instance rigScene bananaConfig64 50%nat anInstance emptyGame) in
  let offset := Vector3.multiply (Object3D.scale (h (Instance.trash anInstance)))
                  (Object3D.position (h (Instance.labelSprite anInstance))) in
  Instance.trash anInstance <> Instance.labelSprite anInstance /\
  0 <= unitRoundoff /\
  ~ TrashConfig.scale bananaConfig64 == 0 /\
  @labelArithmetic rigScene unitRoundoff (TrashConfig.scale bananaConfig64) /\
  within (unitRoundoff + unitRoundoff + unitRoundoff * unitRoundoff) (Vector3.y offset) 25 /\
  ~ Vector3.y offset == 25.
Proof.
  intros h offset.
  assert (N : Instance.trash anInstance <> Instance.labelSprite anInstance)
    by (vm_compute; discriminate).
  assert (Hu : 0 <= unitRoundoff) by (vm_compute; discriminate).
  assert (S : ~ TrashConfig.scale bananaConfig64 == 0) by (vm_compute; discriminate).
  assert (A : @labelArithmetic rigScene unitRoundoff (TrashConfig.scale bananaConfig64))
    by (unfold labelArithmetic; split; [|split; [|split]]; vm_compute; discriminate).
  split; [exact N|]. split; [exact Hu|]. split; [exact S|]. split; [exact A|].
  split; [|vm_compute; discriminate].
  destruct (@label_keeps_its_size rigScene anInstance emptyGame unitRoundoff N Hu) as (H & _).
  destruct (H bananaConfig64 50%nat S A) as (_ & _ & _ & _ & _ & H25 & _).
  exact H25.
Defined.

Lemma demoSession_bins_NoDup : NoDup (binsArrived demoSession).
Proof.
  constructor; [intros [H | []]; discriminate H|].
  constructor; [intros []|]. constructor.
Defined.

Lemma demoSession_bins_configured : incl (binsArrived demoSession) binConfigs.
Proof.
  intros cfg [<- | [<- | []]].
  - right. left. reflexivity.
  - left. reflexivity.
Defined.

(** X21 on the demo session. *)
Lemma one_bin_per_category_witness :
  bins emptyGame = [] /\
  NoDup (binsArrived demoSession) /\
  incl (binsArrived demoSession) binConfigs /\
  NoDup (map Bin.type (bins (@session flatScene demoSession emptyGame))).
Proof.
  split; [reflexivity|]. split; [exact demoSession_bins_NoDup|].
  split; [exact demoSession_bins_configured|].
  destruct (@one_bin_per_category flatScene demoSession emptyGame eq_refl
              demoSession_bins_NoDup demoSession_bins_configured) as (_ & H & _).
  exact H.
Defined.

Lemma demoSession_bins_placed :
  forall b, In b (bins (@session flatScene demoSession emptyGame)) ->
    exists cfg, In cfg binConfigs /\
                Bin.type b = BinConfig.type cfg /\
                @getWorldPosition flatScene (heap (@session flatScene demoSession emptyGame))
                  (Bin.object b)
                = BinConfig.position cfg.
Proof.
  assert (E : bins (@session flatScene demoSession emptyGame)
              = [Bin.mk 11%nat general; Bin.mk 10%nat organico]) by by_computation.
  rewrite E. intros b [<- | [<- | []]].
  - exists blackBin. split; [right; left; reflexivity|]. split; by_computation.
  - exists greenBin. split; [left; reflexivity|]. split; by_computation.
Defined.

(** X22 on the bins of the demo session, seen from fifty units before the black bin. *)
Lemma bin_ranges_never_overlap_witness :
  (forall q, @Math_sqrt flatScene q < binDistance -> q < binDistance * binDistance) /\
  (forall b b',
     @findNearestBin flatScene (@session flatScene demoSession emptyGame)
       (Vector3.mk 0 0 150) binDistance = Some b ->
     In b' (bins (@session flatScene demoSession emptyGame)) ->
     @distanceOfBin flatScene (@session flatScene demoSession emptyGame)
       (Vector3.mk 0 0 150) b' < binDistance ->
     Bin.type b' = Bin.type b).
Proof.
  split; [exact exact_sqrt_sound|].
  destruct (@bin_ranges_never_overlap flatScene (@session flatScene demoSession emptyGame)
              (Vector3.mk 0 0 150) exact_sqrt_sound demoSession_bins_placed) as (_ & H).
  exact H.
Defined.

(** X24 on the demo session. *)
Lemma score_bounds_through_loading_witness :
  score emptyGame = 0%Z /\
  gameState emptyGame = playing /\
  (-2 <= score (@session flatScene demoSession emptyGame) <= 5)%Z.
Proof.
  split; [reflexivity|]. split; [reflexivity|].
  destruct (@score_bounds_through_loading flatScene demoSession emptyGame eq_refl eq_refl)
    as (H & _).
  exact H.
Defined.

Lemma demoSession_clones_new : @clonesAreNew flatScene demoSession emptyGame.
Proof.
  vm_compute.
  repeat split;
    repeat (constructor; [simpl; intuition discriminate|]); constructor.
Defined.

(** X25 on the demo session. *)
Lemma items_never_share_an_object_witness :
  NoDup (itemHandles emptyGame) /\
  @clonesAreNew flatScene demoSession emptyGame /\
  NoDup (itemHandles (@session flatScene demoSession emptyGame)).
Proof.
  assert (N : NoDup (itemHandles emptyGame)) by constructor.
  split; [exact N|]. split; [exact demoSession_clones_new|].
  destruct (@items_never_share_an_object flatScene demoSession emptyGame N
              demoSession_clones_new) as (H & _).
  exact H.
Defined.
